(** * Book-my-event: booking, review, search and FX rules

    A shallow embedding of the backend's domain logic
    ([app/models], [app/crud], [app/services]) with the relational store
    written out as four tables of rows, and the properties the design
    document states about it. *)

From Stdlib Require Import ZArith List String Ascii Bool Lia Permutation Sorted QArith.
From Stdlib Require Import Qabs Qpower Qround Qreduction Lqa.
From Stdlib Require Import Floats.PrimFloat Floats.FloatOps Floats.SpecFloat.
From stdpp Require Import base gmap strings.
Import ListNotations.

Local Open Scope string_scope.
Local Open Scope list_scope.
Local Open Scope Z_scope.

(** ** Data model ([app/models]) *)

(** [models/booking.py]: [class BookingStatus(str, Enum)]. *)
Inductive BookingStatus : Type := CONFIRMED | CANCELLED.

Definition BookingStatus_eqb (a b : BookingStatus) : bool :=
  match a, b with
  | CONFIRMED, CONFIRMED | CANCELLED, CANCELLED => true
  | _, _ => false
  end.

(** Timestamps are UTC instants counted in microseconds, the resolution of
    Python's [datetime]. *)
Definition datetime : Type := Z.

(** [models/booking.py]: [class Booking]. *)
Module Booking.
Record t : Type := mk {
  id : string;
  slot_id : string;
  name : string;
  email : string;
  status : BookingStatus;
  booked_at : datetime
}.

(** [Booking.is_active]. *)
Definition is_active (b : t) : bool := BookingStatus_eqb (status b) CONFIRMED.

Definition with_status (b : t) (s : BookingStatus) : t :=
  mk (id b) (slot_id b) (name b) (email b) s (booked_at b).
End Booking.

(** [models/slot.py]: [class Slot] (columns). *)
Module Slot.
Record t : Type := mk {
  id : string;
  event_id : string;
  start_utc : datetime;
  max_bookings : Z;
  created_at : datetime
}.
End Slot.

(** [models/review.py]: [class Review]. *)
Module Review.
Record t : Type := mk {
  id : string;
  event_id : string;
  booking_id : string;
  rating : Z;
  comment : option string;
  created_at : datetime
}.
End Review.

(** [models/event.py]: [class Event].  The denormalised [rating_avg] is a
    float column; a stored binary64 is written as the rational number it
    denotes (the aggregate query never yields an infinity or a NaN). *)
Module Event.
Record t : Type := mk {
  id : string;
  title : string;
  description : string;
  host_name : string;
  category : string;
  duration_min : Z;
  price_minor : Z;
  currency : string;
  rating_avg : option Q;
  rating_count : Z;
  timezone : string;
  image_url : option string;
  created_at : datetime
}.

Definition with_rating (e : t) (avg : option Q) (cnt : Z) : t :=
  mk (id e) (title e) (description e) (host_name e) (category e)
     (duration_min e) (price_minor e) (currency e) avg cnt
     (timezone e) (image_url e) (created_at e).
End Event.

(** ** The store and its side channels *)

(** What the services hand to their collaborators: the Celery task queue and
    the Redis topic ([services/bookings.py], [_broadcast_slot_update]). *)
Inductive Effect : Type :=
| SendBookingEmail (booking_id : string)
| RedisPublish (channel : string) (slot_id : string) (remaining : Z) (is_full : bool).

(** The committed state a [Session] reads and writes. *)
Record DB : Type := mkDB {
  events : list Event.t;
  slots : list Slot.t;
  bookings : list Booking.t;
  reviews : list Review.t;
  outbox : list Effect
}.

Definition set_bookings (db : DB) (bs : list Booking.t) : DB :=
  mkDB (events db) (slots db) bs (reviews db) (outbox db).
Definition set_reviews (db : DB) (rs : list Review.t) : DB :=
  mkDB (events db) (slots db) (bookings db) rs (outbox db).
Definition set_events (db : DB) (es : list Event.t) : DB :=
  mkDB es (slots db) (bookings db) (reviews db) (outbox db).
Definition emit (db : DB) (e : Effect) : DB :=
  mkDB (events db) (slots db) (bookings db) (reviews db) (outbox db ++ [e]).

(** ** Exceptions *)

Inductive Error : Type :=
| HTTPException (status_code : Z) (detail : string)
| IntegrityError (constraint : string)
| ValueError (msg : string)
| AttributeError (msg : string)
| NameError (name : string)
| ImportError (name : string)
| SyntaxError (module : string)
| RecursionError
| ZeroDivisionError
| OverflowError.

Definition HTTP_400_BAD_REQUEST : Z := 400.
Definition HTTP_404_NOT_FOUND : Z := 404.
Definition HTTP_409_CONFLICT : Z := 409.

(** The design document's names for the conflicts the services raise. *)
Definition DuplicateBooking : Error :=
  HTTPException HTTP_409_CONFLICT "You have already booked this slot.".
Definition SlotFull : Error :=
  HTTPException HTTP_409_CONFLICT "Slot is already full.".
Definition AlreadyCancelled : Error :=
  HTTPException HTTP_400_BAD_REQUEST "Booking already cancelled.".
Definition BookingNotConfirmed : Error :=
  HTTPException HTTP_400_BAD_REQUEST "Cannot review an unconfirmed booking.".
Definition ReviewAlreadyExists : Error :=
  HTTPException HTTP_409_CONFLICT "This booking already has a review.".

(** A call either returns or raises; the store is threaded through both. *)
Inductive Result (A : Type) : Type :=
| Ok (a : A)
| Raise (e : Error).
Arguments Ok {A} a.
Arguments Raise {A} e.

Definition M (A : Type) : Type := DB -> Result A * DB.

Definition ret {A} (a : A) : M A := fun db => (Ok a, db).
Definition raise {A} (e : Error) : M A := fun db => (Raise e, db).
Definition bind {A B} (m : M A) (k : A -> M B) : M B :=
  fun db => match m db with
            | (Ok a, db') => k a db'
            | (Raise e, db') => (Raise e, db')
            end.
Definition get_db : M DB := fun db => (Ok db, db).
Definition modify (f : DB -> DB) : M unit := fun db => (Ok tt, f db).

Notation "'let!' x ':=' m 'in' k" := (bind m (fun x => k))
  (at level 10, x name, m at level 100, k at level 200).
Notation "'do!' m 'in' k" := (bind m (fun _ => k))
  (at level 10, m at level 100, k at level 200).

(** ** Booking rows ([app/crud/bookings.py]) *)

Definition same_slot (slot_id : string) (b : Booking.t) : bool :=
  String.eqb (Booking.slot_id b) slot_id.
Definition same_email (email : string) (b : Booking.t) : bool :=
  String.eqb (Booking.email b) email.
Definition is_confirmed (b : Booking.t) : bool :=
  BookingStatus_eqb (Booking.status b) CONFIRMED.

(** [select(func.count()).where(...)]: the number of rows the filter keeps. *)
Definition select_count {A} (where_ : A -> bool) (table : list A) : Z :=
  Z.of_nat (length (List.filter where_ table)).

(** [booking_exists]: a CONFIRMED booking with this slot and e-mail exists. *)
Definition booking_exists (db : DB) (slot_id email : string) : bool :=
  select_count
    (fun b => same_slot slot_id b && same_email email b && is_confirmed b)
    (bookings db) >? 0.

(** [booking_count]: CONFIRMED bookings only. *)
Definition booking_count (db : DB) (slot_id : string) : Z :=
  select_count (fun b => same_slot slot_id b && is_confirmed b) (bookings db).

(** [session.add(booking); session.commit()] on the [booking] table: the
    primary key and [UniqueConstraint("slot_id", "email",
    name="uix_slot_email")] of [models/booking.py] decide whether the row
    goes in. *)
Definition insert_booking (b : Booking.t) : M unit := fun db =>
  if existsb (fun r => String.eqb (Booking.id r) (Booking.id b)) (bookings db)
  then (Raise (IntegrityError "booking_pkey"), db)
  else if existsb (fun r => same_slot (Booking.slot_id b) r
                            && same_email (Booking.email b) r) (bookings db)
  then (Raise (IntegrityError "uix_slot_email"), db)
  else (Ok tt, set_bookings db (bookings db ++ [b])).

(** [create_booking]; [new_id] is the [uuid4()] drawn for the row and [now]
    the value of [datetime.utcnow()]. *)
Definition crud_create_booking (slot_id name email : string)
    (new_id : string) (now : datetime) : M Booking.t :=
  let booking := Booking.mk new_id slot_id name email CONFIRMED now in
  do! insert_booking booking in
  ret booking.

(** [get_booking]. *)
Definition get_booking (db : DB) (booking_id : string) : option Booking.t :=
  List.find (fun b => String.eqb (Booking.id b) booking_id) (bookings db).

(** The row update [booking.status = CANCELLED] flushed for one primary key. *)
Definition mark_cancelled (booking_id : string) (b : Booking.t) : Booking.t :=
  if String.eqb (Booking.id b) booking_id
  then Booking.with_status b CANCELLED else b.

(** [cancel_booking] of the CRUD layer (idempotent). *)
Definition crud_cancel_booking (booking : Booking.t) : M Booking.t :=
  match Booking.status booking with
  | CANCELLED => ret booking
  | CONFIRMED =>
      do! modify (fun db =>
            set_bookings db
              (List.map (mark_cancelled (Booking.id booking)) (bookings db))) in
      ret (Booking.with_status booking CANCELLED)
  end.

(** ** Slot relationship and convenience properties ([app/models/slot.py]) *)

(** [Slot.bookings]: the relationship loads every booking row of the slot. *)
Definition Slot_bookings (db : DB) (s : Slot.t) : list Booking.t :=
  List.filter (same_slot (Slot.id s)) (bookings db).

(** [Slot.is_full]. *)
Definition Slot_is_full (db : DB) (s : Slot.t) : bool :=
  Z.of_nat (length (Slot_bookings db s)) >=? Slot.max_bookings s.

(** [Slot.remaining]. *)
Definition Slot_remaining (db : DB) (s : Slot.t) : Z :=
  Z.max (Slot.max_bookings s - Z.of_nat (length (Slot_bookings db s))) 0.

(** [Booking.slot]. *)
Definition Booking_slot (db : DB) (b : Booking.t) : option Slot.t :=
  List.find (fun s => String.eqb (Slot.id s) (Booking.slot_id b)) (slots db).

(** ** Booking service ([app/services/bookings.py]) *)

(** [_broadcast_slot_update]: publishes on channel [event:{event_id}]. *)
Definition _broadcast_slot_update (slot : Slot.t) : M unit :=
  modify (fun db =>
    emit db (RedisPublish ("event:" ++ Slot.event_id slot) (Slot.id slot)
                          (Slot_remaining db slot) (Slot_is_full db slot))).

(** [make_booking]. *)
Definition make_booking (slot : Slot.t) (name email : string)
    (new_id : string) (now : datetime) : M Booking.t :=
  let! db := get_db in
  if booking_exists db (Slot.id slot) email then raise DuplicateBooking
  else if booking_count db (Slot.id slot) >=? Slot.max_bookings slot
  then raise SlotFull
  else
    let! booking := crud_create_booking (Slot.id slot) name email new_id now in
    do! modify (fun db => emit db (SendBookingEmail (Booking.id booking))) in
    do! _broadcast_slot_update slot in
    ret booking.

(** [cancel_booking] of the service layer (the request-facing one). *)
Definition cancel_booking (booking : Booking.t) : M Booking.t :=
  match Booking.status booking with
  | CANCELLED => raise AlreadyCancelled
  | CONFIRMED =>
      let! booking := crud_cancel_booking booking in
      let! db := get_db in
      match Booking_slot db booking with
      | None => raise (AttributeError "'NoneType' object has no attribute 'id'")
      | Some slot =>
          do! _broadcast_slot_update slot in
          ret booking
      end
  end.

(** ** Rating aggregate ([app/crud/events.py]) *)

Definition of_event (event_id : string) (r : Review.t) : bool :=
  String.eqb (Review.event_id r) event_id.

Definition sum_Z (xs : list Z) : Z := fold_right Z.add 0 xs.

(** The integer nearest to [y], the even one of two equally near. *)
Definition Qround_half_even (y : Q) : Z :=
  let f := Qfloor y in
  match Qcompare (y - inject_Z f) (1 # 2) with
  | Lt => f
  | Gt => f + 1
  | Eq => if Z.even f then f else f + 1
  end.

(** [floor (log2 x)] for a positive [x]. *)
Definition Qfloor_log2 (x : Q) : Z :=
  let k := Z.log2 (Qnum x) - Z.log2 (Z.pos (Qden x)) in
  if Qle_bool (Qpower 2 k) x then k else k - 1.

(** IEEE-754 binary64 rounding of a rational (round to nearest, ties to
    even, 53 significant bits): the significand is [x] scaled into
    [[2^52, 2^53)] and rounded to an integer.  The exponent range plays no
    part for a quotient of two 64-bit integers. *)
Definition binary64_round_pos (x : Q) : Q :=
  let e := Qfloor_log2 x - 52 in
  (inject_Z (Qround_half_even (x * Qpower 2 (- e))) * Qpower 2 e)%Q.

Definition binary64_round (x : Q) : Q :=
  Qred (match Qnum x with
        | 0 => 0%Q
        | Z.pos _ => binary64_round_pos x
        | Z.neg _ => (- binary64_round_pos (- x))%Q
        end).

(** The exact quotient [sum / count]. *)
Definition mean (xs : list Z) : Q :=
  Qmake (sum_Z xs) (Pos.of_nat (length xs)).

(** [func.avg(Review.rating)] over an integer column: NULL over no rows,
    otherwise the floating-point quotient of the sum by the count (the
    engine's [AVG] is a float division; the column is a float). *)
Definition sql_avg (xs : list Z) : option Q :=
  match xs with
  | [] => None
  | _ :: _ => Some (binary64_round (mean xs))
  end.

(** The single row the aggregate [select(func.avg(...), func.count(...))
    .where(Review.event_id == event_id)] yields. *)
Definition rating_stats (db : DB) (event_id : string) : option (option Q * Z) :=
  let rows := List.filter (of_event event_id) (reviews db) in
  Some (sql_avg (List.map Review.rating rows), Z.of_nat (length rows)).

(** [recompute_event_rating]. *)
Definition recompute_event_rating (event_id : string) : M unit :=
  modify (fun db =>
    let stats := match rating_stats db event_id with
                 | Some row => row
                 | None => (None, 0)
                 end in
    let '(avg, cnt) := stats in
    set_events db
      (List.map (fun e => if String.eqb (Event.id e) event_id
                          then Event.with_rating e avg cnt else e)
                (events db))).

(** ** Review rows ([app/crud/reviews.py]) *)

(** [review_exists]. *)
Definition review_exists (db : DB) (booking_id : string) : bool :=
  select_count (fun r => String.eqb (Review.booking_id r) booking_id)
               (reviews db) >? 0.

(** [session.add(review); session.commit()]: the primary key decides. *)
Definition insert_review (r : Review.t) : M unit := fun db =>
  if existsb (fun x => String.eqb (Review.id x) (Review.id r)) (reviews db)
  then (Raise (IntegrityError "review_pkey"), db)
  else (Ok tt, set_reviews db (reviews db ++ [r])).

(** [create_review]. *)
Definition crud_create_review (event_id booking_id : string) (rating : Z)
    (comment : option string) (new_id : string) (now : datetime) : M Review.t :=
  let! db := get_db in
  if review_exists db booking_id
  then raise (ValueError "This booking already has a review.")
  else
    let review := Review.mk new_id event_id booking_id rating comment now in
    do! insert_review review in
    do! recompute_event_rating event_id in
    ret review.

(** [get_review]. *)
Definition get_review (db : DB) (review_id : string) : option Review.t :=
  List.find (fun r => String.eqb (Review.id r) review_id) (reviews db).

(** The keyword arguments [update_review] is called with
    ([rating=..., comment=...]); [None] leaves the attribute alone. *)
Record ReviewData : Type := mkReviewData {
  data_rating : option Z;
  data_comment : option string
}.

Definition setattrs (data : ReviewData) (r : Review.t) : Review.t :=
  Review.mk (Review.id r) (Review.event_id r) (Review.booking_id r)
    (match data_rating data with Some v => v | None => Review.rating r end)
    (match data_comment data with Some v => Some v | None => Review.comment r end)
    (Review.created_at r).

(** [update_review]. *)
Definition crud_update_review (review : Review.t) (data : ReviewData) : M Review.t :=
  let review' := setattrs data review in
  do! modify (fun db =>
        set_reviews db
          (List.map (fun r => if String.eqb (Review.id r) (Review.id review)
                              then setattrs data r else r)
                    (reviews db))) in
  do! recompute_event_rating (Review.event_id review') in
  ret review'.

(** [delete_review]. *)
Definition crud_delete_review (review : Review.t) : M unit :=
  let event_id := Review.event_id review in
  do! modify (fun db =>
        set_reviews db
          (List.filter (fun r => negb (String.eqb (Review.id r) (Review.id review)))
                       (reviews db))) in
  recompute_event_rating event_id.

(** ** Review service ([app/services/review.py]) *)

(** [add_review]. *)
Definition add_review (booking : Booking.t) (rating : Z)
    (comment : option string) (new_id : string) (now : datetime) : M Review.t :=
  if negb (BookingStatus_eqb (Booking.status booking) CONFIRMED)
  then raise BookingNotConfirmed
  else
    let! db := get_db in
    if review_exists db (Booking.id booking) then raise ReviewAlreadyExists
    else
      match Booking_slot db booking with
      | None =>
          raise (AttributeError "'NoneType' object has no attribute 'event_id'")
      | Some slot =>
          crud_create_review (Slot.event_id slot) (Booking.id booking)
                             rating comment new_id now
      end.

(** [edit_review]. *)
Definition edit_review (review : Review.t) (rating : option Z)
    (comment : option string) : M Review.t :=
  match rating, comment with
  | None, None => raise (HTTPException HTTP_400_BAD_REQUEST "No changes supplied.")
  | _, _ => crud_update_review review (mkReviewData rating comment)
  end.

(** [remove_review]. *)
Definition remove_review (review : Review.t) : M unit :=
  crud_delete_review review.

(** ** Event queries ([app/services/search.py]) *)

(** The [ORDER BY] terms the builder uses. *)
Inductive OrderBy : Type :=
| price_minor_asc
| rating_avg_desc_nullslast
| created_at_desc
| pop_count_desc_nullslast.

(** A [select(Event)] statement: its [WHERE] conjuncts, the outer join with
    the popularity subquery (given by the cut-off instant bound into it) and
    the [ORDER BY] list. *)
Record Select : Type := mkSelect {
  where_ : list (Event.t -> bool);
  popularity_join : option datetime;
  order_by : list OrderBy
}.

Definition select_Event : Select := mkSelect [] None [].
Definition add_where (stmt : Select) (p : Event.t -> bool) : Select :=
  mkSelect (where_ stmt ++ [p]) (popularity_join stmt) (order_by stmt).
Definition add_order_by (stmt : Select) (ks : list OrderBy) : Select :=
  mkSelect (where_ stmt) (popularity_join stmt) (order_by stmt ++ ks).
Definition join_popularity_sub (stmt : Select) (cutoff : datetime) : Select :=
  mkSelect (where_ stmt) (Some cutoff) (order_by stmt).

(** [timedelta(days=n)] in microseconds. *)
Definition timedelta_days (n : Z) : Z := n * 86400 * 1000000.

(** [_apply_sort]; [now] is the value of [datetime.utcnow()]. *)
Definition _apply_sort (stmt : Select) (sort : string) (now : datetime) : Select :=
  let option := sort in
  if String.eqb option "price" then add_order_by stmt [price_minor_asc]
  else if String.eqb option "rating"
  then add_order_by stmt [rating_avg_desc_nullslast; created_at_desc]
  else if String.eqb option "popularity" then
    let thirty_days_ago := now - timedelta_days 30 in
    add_order_by
      (add_order_by (join_popularity_sub stmt thirty_days_ago)
                    [pop_count_desc_nullslast])
      [created_at_desc]
  else add_order_by stmt [created_at_desc].

(** *** What the store does with such a statement *)

Definition inner_join {A B} (on : A -> B -> bool) (l : list A) (r : list B)
  : list (A * B) :=
  List.flat_map (fun a => List.map (pair a) (List.filter (on a) r)) l.

Definition left_outer_join {A B} (on : A -> B -> bool) (l : list A) (r : list B)
  : list (A * option B) :=
  List.flat_map
    (fun a => match List.filter (on a) r with
              | [] => [(a, None)]
              | ms => List.map (fun b => (a, Some b)) ms
              end) l.

(** [GROUP BY key] with [count(...)]: one row per distinct key. *)
Definition group_count (keys : list string) : list (string * Z) :=
  List.map (fun k => (k, Z.of_nat (count_occ string_dec keys k)))
           (nodup string_dec keys).

(** The rows of [Slot JOIN Booking ON Booking.slot_id = Slot.id] that pass
    [Booking.status == "CONFIRMED"] and [Booking.booked_at >= cutoff]. *)
Definition recent_confirmed (db : DB) (cutoff : datetime)
  : list (Slot.t * Booking.t) :=
  List.filter
    (fun sb => is_confirmed (snd sb) && (cutoff <=? Booking.booked_at (snd sb)))
    (inner_join (fun s b => String.eqb (Booking.slot_id b) (Slot.id s))
                (slots db) (bookings db)).

(** [popularity_sub]: columns [pop_event_id], [pop_count]. *)
Definition popularity_sub (db : DB) (cutoff : datetime) : list (string * Z) :=
  group_count (List.map (fun sb => Slot.event_id (fst sb))
                        (recent_confirmed db cutoff)).

(** A result row: the event and the joined [pop_count] (NULL when the outer
    join found no partner, or when the statement has no join). *)
Definition Row : Type := (Event.t * option Z)%type.

Definition cmp_desc_nullslast {A} (cmp : A -> A -> comparison)
    (x y : option A) : comparison :=
  match x, y with
  | Some a, Some b => cmp b a
  | Some _, None => Lt
  | None, Some _ => Gt
  | None, None => Eq
  end.

(** [Lt] when the first row sorts before the second under one term. *)
Definition order_cmp (k : OrderBy) (r1 r2 : Row) : comparison :=
  match k with
  | price_minor_asc =>
      Z.compare (Event.price_minor (fst r1)) (Event.price_minor (fst r2))
  | rating_avg_desc_nullslast =>
      cmp_desc_nullslast Qcompare (Event.rating_avg (fst r1))
                                  (Event.rating_avg (fst r2))
  | created_at_desc =>
      Z.compare (Event.created_at (fst r2)) (Event.created_at (fst r1))
  | pop_count_desc_nullslast =>
      cmp_desc_nullslast Z.compare (snd r1) (snd r2)
  end.

Fixpoint rows_cmp (ks : list OrderBy) (r1 r2 : Row) : comparison :=
  match ks with
  | [] => Eq
  | k :: ks' =>
      match order_cmp k r1 r2 with
      | Eq => rows_cmp ks' r1 r2
      | c => c
      end
  end.

Definition rows_leb (ks : list OrderBy) (r1 r2 : Row) : bool :=
  match rows_cmp ks r1 r2 with
  | Gt => false
  | _ => true
  end.

Fixpoint insert_sorted {A} (leb : A -> A -> bool) (x : A) (l : list A) : list A :=
  match l with
  | [] => [x]
  | y :: t => if leb x y then x :: l else y :: insert_sorted leb x t
  end.

Definition sort_by {A} (leb : A -> A -> bool) (l : list A) : list A :=
  fold_right (insert_sorted leb) [] l.

Definition matches (stmt : Select) (e : Event.t) : bool :=
  forallb (fun p => p e) (where_ stmt).

Definition joined_rows (db : DB) (stmt : Select) : list Row :=
  let base := List.filter (matches stmt) (events db) in
  match popularity_join stmt with
  | None => List.map (fun e => (e, None)) base
  | Some cutoff =>
      List.map (fun em => (fst em, option_map snd (snd em)))
        (left_outer_join (fun e g => String.eqb (Event.id e) (fst g))
                         base (popularity_sub db cutoff))
  end.

(** [session.exec(stmt).all()]. *)
Definition exec_rows (db : DB) (stmt : Select) : list Row :=
  sort_by (rows_leb (order_by stmt)) (joined_rows db stmt).

Definition exec_select (db : DB) (stmt : Select) : list Event.t :=
  List.map fst (exec_rows db stmt).

(** The count the design document words: CONFIRMED bookings of the event's
    slots whose [booked_at] is not before the cut-off. *)
Definition slot_of_event (db : DB) (event_id : string) (b : Booking.t) : bool :=
  existsb (fun s => String.eqb (Slot.id s) (Booking.slot_id b)
                    && String.eqb (Slot.event_id s) event_id) (slots db).

Definition recent_confirmed_count (db : DB) (now : datetime) (e : Event.t) : Z :=
  select_count
    (fun b => is_confirmed b
              && (now - timedelta_days 30 <=? Booking.booked_at b)
              && slot_of_event db (Event.id e) b)
    (bookings db).

(** The same count read off the join the subquery runs. *)
Definition joined_count (db : DB) (cutoff : datetime) (event_id : string) : Z :=
  Z.of_nat (count_occ string_dec
              (List.map (fun sb => Slot.event_id (fst sb))
                        (recent_confirmed db cutoff)) event_id).

(** [schemas/event.py]: [class EventFilter]. *)
Record EventFilter : Type := mkEventFilter {
  page : Z;
  size : Z;
  search : option string;
  category : option string;
  price_min : option Z;
  price_max : option Z;
  sort : string
}.

Section BuildEventQuery.
(** The store's string primitives: [lower()], [LIKE] and [ILIKE] (value
    first, pattern second). *)
Variable lower : string -> string.
Variables like ilike : string -> string -> bool.

Definition text_search (op : string -> string -> bool) (term : string)
    (e : Event.t) : bool :=
  op (lower (Event.title e)) term
  || op (lower (Event.description e)) term
  || op (lower (Event.host_name e)) term.

(** Python truthiness of an optional string. *)
Definition truthy (s : option string) : option string :=
  match s with
  | Some "" => None
  | other => other
  end.

(** [build_event_query]; [dialect] is [session.get_bind().dialect.name].
    The second component is the statement [count_stmt] counts over. *)
Definition build_event_query (dialect : string) (filters : EventFilter)
    (now : datetime) : Select * Select :=
  let stmt := select_Event in
  let stmt :=
    match truthy (search filters) with
    | Some s =>
        let term := ("%" ++ lower s ++ "%")%string in
        if String.eqb dialect "postgresql"
        then add_where stmt (text_search ilike term)
        else add_where stmt (text_search like term)
    | None => stmt
    end in
  let stmt :=
    match truthy (category filters) with
    | Some c => add_where stmt (fun e => String.eqb (Event.category e) c)
    | None => stmt
    end in
  let stmt :=
    match price_min filters with
    | Some lo => add_where stmt (fun e => Event.price_minor e >=? lo)
    | None => stmt
    end in
  let stmt :=
    match price_max filters with
    | Some hi => add_where stmt (fun e => Event.price_minor e <=? hi)
    | None => stmt
    end in
  let stmt := _apply_sort stmt (sort filters) now in
  (stmt, stmt).
End BuildEventQuery.

(** ** Currency conversion ([app/services/fx.py]) *)

(** Python's [float(int)]: nearest binary64, [OverflowError] beyond range. *)
Definition float_of_int (z : Z) : Result float :=
  match binary_normalize prec emax z 0 false with
  | S754_infinity _ => Raise OverflowError
  | sf => Ok (SF2Prim sf)
  end.

(** Round a non-negative dyadic [m * 2^e] to the nearest integer, ties to
    the even one. *)
Definition round_half_even (m : Z) (e : Z) : Z :=
  if 0 <=? e then m * 2 ^ e
  else
    let d := 2 ^ (- e) in
    let q := m / d in
    let r := m mod d in
    if 2 * r <? d then q
    else if d <? 2 * r then q + 1
    else if Z.even q then q else q + 1.

(** Python's [round(x)] on a float: an [int], ties to even. *)
Definition py_round (x : float) : Result Z :=
  match Prim2SF x with
  | S754_zero _ => Ok 0
  | S754_finite s m e =>
      let n := round_half_even (Z.pos m) e in
      Ok (if s then - n else n)
  | S754_infinity _ => Raise OverflowError
  | S754_nan => Raise (ValueError "cannot convert float NaN to integer")
  end.

(** The [ValueError] raised from a [KeyError] on the rate table. *)
Definition MissingRate (currency : string) : Error :=
  ValueError ("Missing FX rate for " ++ currency)%string.

Definition float_is_zero (x : float) : bool := PrimFloat.eqb x PrimFloat.zero.

(** [convert_minor]. *)
Definition convert_minor (amount_minor : Z) (from_currency to_currency : string)
    (rates : gmap string float) : Result Z :=
  if String.eqb from_currency to_currency then Ok amount_minor
  else
    match rates !! to_currency with
    | None => Raise (MissingRate to_currency)
    | Some rate_to =>
        match rates !! from_currency with
        | None => Raise (MissingRate from_currency)
        | Some rate_from =>
            if float_is_zero rate_from then Raise ZeroDivisionError
            else
              let base_ratio := PrimFloat.div rate_to rate_from in
              match float_of_int amount_minor with
              | Raise e => Raise e
              | Ok amount => py_round (PrimFloat.mul amount base_ratio)
              end
        end
    end.

(** The exact value of a finite float as a fraction [num / den]. *)
Definition float_fraction (x : float) : option (Z * Z) :=
  match Prim2SF x with
  | S754_zero _ => Some (0, 1)
  | S754_finite s m e =>
      let sm := if s then Z.neg m else Z.pos m in
      Some (if 0 <=? e then (sm * 2 ^ e, 1) else (sm, 2 ^ (- e)))
  | _ => None
  end.

(** The exact value of a finite float as a rational. *)
Definition float_value (x : float) : option Q :=
  match float_fraction x with
  | Some (n, d) => Some (Qred (Qmake n (Z.to_pos d)))
  | None => None
  end.

(** Whether the binary64 division [float(s) / float(n)] yields
    [binary64_round (s / n)]. *)
Definition division_agrees (s n : Z) : bool :=
  match float_of_int s, float_of_int n with
  | Ok fs, Ok fn =>
      match float_value (PrimFloat.div fs fn) with
      | Some q => Qeq_bool q (binary64_round (Qmake s (Z.to_pos n)))
      | None => false
      end
  | _, _ => false
  end.

(** ** Name resolution in [crud.events.list_events] *)

(** Which names a function body loads, binds and imports, in evaluation
    order; calls themselves are left to the callee. *)
Module PyNames.




































End PyNames.

(** ** Reachable stores *)

(** One call of the booking layer on the current store.  A slot handed to
    [make_booking] is a row of the [slot] table, as [session.get(Slot, ...)]
    returns it. *)
Inductive booking_step : DB -> DB -> Prop :=
| step_make_booking db slot name email new_id now :
    In slot (slots db) ->
    booking_step db (snd (make_booking slot name email new_id now db))
| step_cancel_booking db booking :
    booking_step db (snd (cancel_booking booking db))
| step_crud_cancel_booking db booking :
    booking_step db (snd (crud_cancel_booking booking db)).

Inductive booking_steps : DB -> DB -> Prop :=
| steps_nil db : booking_steps db db
| steps_cons db1 db2 db3 :
    booking_step db1 db2 -> booking_steps db2 db3 -> booking_steps db1 db3.

(** The capacity bound, for every slot row. *)
Definition capacity_ok (db : DB) : Prop :=
  forall s, In s (slots db) -> booking_count db (Slot.id s) <= Slot.max_bookings s.

(** Primary key of the [slot] table. *)
Definition slots_pk (db : DB) : Prop := List.NoDup (List.map Slot.id (slots db)).

(** Primary key of the [booking] table. *)
Definition bookings_pk (db : DB) : Prop := List.NoDup (List.map Booking.id (bookings db)).

(** [uix_slot_email]: no two rows agree on slot and e-mail. *)
Definition slot_email (b : Booking.t) : string * string :=
  (Booking.slot_id b, Booking.email b).

Definition uix_slot_email (db : DB) : Prop :=
  List.NoDup (List.map slot_email (bookings db)).

(** ** Popularity order *)

(** The [pop_count] the outer join attaches to an event: NULL when the
    subquery has no group for it. *)
Definition pop_count_of (db : DB) (cutoff : datetime) (e : Event.t) : option Z :=
  let c := joined_count db cutoff (Event.id e) in
  if c =? 0 then None else Some c.

(** The order the design document words for [sort = popularity]: more recent
    CONFIRMED bookings first, ties by later creation time. *)
Definition popularity_order (db : DB) (now : datetime) (e1 e2 : Event.t) : Prop :=
  recent_confirmed_count db now e1 > recent_confirmed_count db now e2
  \/ (recent_confirmed_count db now e1 = recent_confirmed_count db now e2
      /\ Event.created_at e1 >= Event.created_at e2).

(** The [ORDER BY] list [_apply_sort] builds for [popularity]. *)
Definition popularity_keys : list OrderBy :=
  [pop_count_desc_nullslast; created_at_desc].

(** When one row may precede another under [popularity_keys]. *)
Definition pop_le (r1 r2 : Row) : Prop :=
  match snd r1, snd r2 with
  | Some a, Some b =>
      b < a \/ (a = b /\ Event.created_at (fst r2) <= Event.created_at (fst r1))
  | Some _, None => True
  | None, Some _ => False
  | None, None => Event.created_at (fst r2) <= Event.created_at (fst r1)
  end.

(** [a] comes before [b] in [l]. *)
Definition ranks_above {A} (l : list A) (a b : A) : Prop :=
  exists l1 l2 l3, l = l1 ++ a :: l2 ++ b :: l3.

(** ** Rating consistency *)

(** The ratings of the reviews currently linked to an event. *)
Definition current_ratings (db : DB) (event_id : string) : list Z :=
  List.map Review.rating (List.filter (of_event event_id) (reviews db)).

(** [avg] is the arithmetic mean of [xs], as a number; undefined exactly
    when [xs] is empty. *)
Definition is_mean (avg : option Q) (xs : list Z) : Prop :=
  match avg with
  | None => xs = []
  | Some q =>
      xs <> [] /\ Qeq (q * inject_Z (Z.of_nat (length xs))) (inject_Z (sum_Z xs))
  end.

(** The values a binary64 can hold: 53 significant bits. *)
Definition binary64_value (q : Q) : Prop :=
  exists m e : Z, Z.abs m <= 2 ^ 53 /\ Qeq q (inject_Z m * Qpower 2 e).

(** [q] is a binary64 value nearest to [x]: no binary64 value is nearer. *)
Definition nearest_binary64 (x q : Q) : Prop :=
  binary64_value q
  /\ forall f, binary64_value f -> Qle (Qabs (q - x)) (Qabs (f - x)).

(** [avg] is the arithmetic mean of [xs] as a float holds it: a binary64
    value nearest to the mean; undefined exactly when [xs] is empty. *)
Definition is_rounded_mean (avg : option Q) (xs : list Z) : Prop :=
  match avg with
  | None => xs = []
  | Some q => xs <> [] /\ nearest_binary64 (mean xs) q
  end.

(** The denormalised columns of every row of the event agree with its
    reviews: the average is the mean as the float column holds it, the
    count is the number of reviews. *)
Definition rating_consistent (db : DB) (event_id : string) : Prop :=
  forall e, In e (events db) -> Event.id e = event_id ->
    is_rounded_mean (Event.rating_avg e) (current_ratings db event_id)
    /\ Event.rating_count e = Z.of_nat (length (current_ratings db event_id)).

Definition review_id_taken (db : DB) (id : string) : bool :=
  existsb (fun r => String.eqb (Review.id r) id) (reviews db).

(** Whether the [booking] table already holds a row for the pair, in any
    status, and whether a primary key is taken. *)
Definition pair_taken (db : DB) (slot_id email : string) : bool :=
  existsb (fun r => same_slot slot_id r && same_email email r) (bookings db).

Definition booking_id_taken (db : DB) (id : string) : bool :=
  existsb (fun r => String.eqb (Booking.id r) id) (bookings db).

(** ** Sample data *)

Module Sample.
Definition event1 : Event.t :=
  Event.mk "event-1" "Design Sprint" "Rapid prototyping session" "Alice"
           "Design" 90 4500 "USD" None 0 "America/New_York" None 0.
Definition slot1 : Slot.t := Slot.mk "slot-1" "event-1" 1000 1 0.
Definition db0 : DB := mkDB [event1] [slot1] [] [] [].

Definition alice : Booking.t :=
  Booking.mk "b-1" "slot-1" "Alice" "alice@example.com" CONFIRMED 100.
Definition bob_cancelled : Booking.t :=
  Booking.mk "b-0" "slot-1" "Bob" "bob@example.com" CANCELLED 50.

(** Alice books, Bob is turned away, Alice cancels, Bob books. *)
Definition db1 : DB :=
  snd (make_booking slot1 "Alice" "alice@example.com" "b-1" 100 db0).
Definition db2 : DB :=
  snd (make_booking slot1 "Bob" "bob@example.com" "b-2" 200 db1).
Definition db3 : DB := snd (cancel_booking alice db2).
Definition db4 : DB :=
  snd (make_booking slot1 "Bob" "bob@example.com" "b-3" 300 db3).

(** Bob booked and cancelled earlier; the slot is free. *)
Definition db_bob_cancelled : DB := mkDB [event1] [slot1] [bob_cancelled] [] [].

(** Bob booked and cancelled earlier; Alice holds the only seat. *)
Definition db_alice_after_bob : DB :=
  mkDB [event1] [slot1] [bob_cancelled; alice] [] [].

(** Three events: [ev_a] has five CONFIRMED bookings from yesterday, [ev_b]
    none, [ev_c] two that are forty days old. *)
Definition day : Z := timedelta_days 1.
Definition today : datetime := 100 * day.
Definition mk_event (id : string) (created : datetime) : Event.t :=
  Event.mk id id "" "Host" "Design" 60 1000 "USD" None 0 "UTC" None created.
Definition ev_a : Event.t := mk_event "ev-a" (1 * day).
Definition ev_b : Event.t := mk_event "ev-b" (3 * day).
Definition ev_c : Event.t := mk_event "ev-c" (2 * day).
Definition slot_a : Slot.t := Slot.mk "slot-a" "ev-a" (200 * day) 10 0.
Definition slot_c : Slot.t := Slot.mk "slot-c" "ev-c" (200 * day) 10 0.
Definition visit (id slot_id : string) (at_ : datetime) : Booking.t :=
  Booking.mk id slot_id id id CONFIRMED at_.
Definition db_pop : DB :=
  mkDB [ev_b; ev_c; ev_a] [slot_a; slot_c]
       [visit "a1" "slot-a" (99 * day); visit "a2" "slot-a" (99 * day);
        visit "a3" "slot-a" (99 * day); visit "a4" "slot-a" (99 * day);
        visit "a5" "slot-a" (99 * day);
        visit "c1" "slot-c" (60 * day); visit "c2" "slot-c" (60 * day)]
       [] [].

(** A stand-in for the e-mail validator in the examples: an address has
    an [@] and is kept as it is. *)
Definition simple_email (value : string) : option string :=
  match String.index 0 "@" value with
  | Some _ => Some value
  | None => None
  end.

(** Rate tables: the one of the module docstring, and one whose USD rate is
    zero. *)
Definition rates_example : gmap string float :=
  <["USD" := 1%float]> (<["EUR" := 0x1.ccccccccccccdp-1%float]> ∅).
Definition rates_zero : gmap string float :=
  <["USD" := 0%float]> (<["EUR" := 0x1.ccccccccccccdp-1%float]> ∅).
End Sample.

(** ** Booking routes ([app/api/v1/bookings.py]) *)

(** [session.get(Slot, slot_id)]. *)
Definition get_slot (db : DB) (slot_id : string) : option Slot.t :=
  List.find (fun s => String.eqb (Slot.id s) slot_id) (slots db).

(** FastAPI validates a request body against its schema before the route
    body runs, and answers 422 to a body that fails. *)
Definition HTTP_422_UNPROCESSABLE_ENTITY : Z := 422.

Definition RequestValidationError : Error :=
  HTTPException HTTP_422_UNPROCESSABLE_ENTITY "request validation failed".

(** [schemas/booking.py]: [name: constr(min_length=1, max_length=80)]. *)
Definition valid_name (name : string) : bool :=
  (1 <=? Z.of_nat (String.length name))
  && (Z.of_nat (String.length name) <=? 80).

(** [schemas/booking.py]: [status: BookingStatus], the enum member whose
    value the body gives. *)
Definition parse_BookingStatus (value : string) : option BookingStatus :=
  if String.eqb value "CONFIRMED" then Some CONFIRMED
  else if String.eqb value "CANCELLED" then Some CANCELLED
  else None.

(** The route [create_booking], up to the booking it hands to
    [BookingRead.from_orm].  [EmailStr] is pydantic's validator of that
    name, which is not part of the repository: [None] when it rejects the
    field, otherwise the normalised address that [payload.email] holds. *)
Definition api_create_booking (EmailStr : string -> option string)
    (event_id slot_id name email : string)
    (new_id : string) (now : datetime) : M Booking.t :=
  if negb (valid_name name) then raise RequestValidationError
  else
    match EmailStr email with
    | None => raise RequestValidationError
    | Some payload_email =>
        let! db := get_db in
        match get_slot db slot_id with
        | None =>
            raise (HTTPException HTTP_400_BAD_REQUEST "Invalid slot for event")
        | Some slot =>
            if negb (String.eqb (Slot.event_id slot) event_id)
            then raise (HTTPException HTTP_400_BAD_REQUEST "Invalid slot for event")
            else make_booking slot name payload_email new_id now
        end
    end.

(** The route [cancel_booking_endpoint]; [status] is the [status] field of
    the request body, which [BookingUpdate] parses into [payload.status]. *)
Definition cancel_booking_endpoint (booking_id : string)
    (status : string) : M Booking.t :=
  match parse_BookingStatus status with
  | None => raise RequestValidationError
  | Some payload_status =>
      if negb (BookingStatus_eqb payload_status CANCELLED)
      then raise (HTTPException HTTP_400_BAD_REQUEST "Only cancellation supported")
      else
        let! db := get_db in
        match get_booking db booking_id with
        | None => raise (HTTPException HTTP_404_NOT_FOUND "Booking not found")
        | Some booking => cancel_booking booking
        end
  end.

(** A request to one of the two routes. *)
Inductive BookingRequest : Type :=
| POST_booking (event_id slot_id name email new_id : string) (now : datetime)
| PATCH_booking (booking_id status : string).

Definition serve (EmailStr : string -> option string) (r : BookingRequest)
    (db : DB) : DB :=
  match r with
  | POST_booking event_id slot_id name email new_id now =>
      snd (api_create_booking EmailStr event_id slot_id name email new_id now db)
  | PATCH_booking booking_id status =>
      snd (cancel_booking_endpoint booking_id status db)
  end.

Definition serve_all (EmailStr : string -> option string)
    (rs : list BookingRequest) (db : DB) : DB :=
  fold_left (fun d r => serve EmailStr r d) rs db.

(** How a booking row may change over time: only its status, and only
    towards CANCELLED. *)
Definition booking_evolves (b b' : Booking.t) : Prop :=
  Booking.id b' = Booking.id b
  /\ Booking.slot_id b' = Booking.slot_id b
  /\ Booking.name b' = Booking.name b
  /\ Booking.email b' = Booking.email b
  /\ Booking.booked_at b' = Booking.booked_at b
  /\ (Booking.status b = CANCELLED -> Booking.status b' = CANCELLED).

(** The [booking] table [new] continues the table [old]: the old rows are
    still there, in place, each changed at most as [booking_evolves] allows,
    and new rows only follow them. *)
Definition evolved_from (old new : list Booking.t) : Prop :=
  exists kept added,
    new = kept ++ added /\ Forall2 booking_evolves old kept.

(** ** Paginated listings ([crud/bookings.py], [crud/reviews.py]) *)

(** [ORDER BY key DESC], as one run of the query may answer it: rows of
    equal key are left in the order of the table.  What any run may answer
    is [ordered_by_desc] below. *)
Definition order_by_desc {A} (key : A -> Z) (l : list A) : list A :=
  sort_by (fun a b => key b <=? key a) l.

(** What [ORDER BY key DESC] allows the engine to answer for the rows [l]:
    any arrangement of them with the keys descending.  Rows of equal key may
    come in any order, and in another one on the next run. *)
Definition ordered_by_desc {A} (key : A -> Z) (l out : list A) : Prop :=
  Permutation l out /\ StronglySorted (fun a b => key b <= key a) out.

(** [.offset(o).limit(n)] for non-negative [o] and [n] (what a negative
    value does is left to the engine and is not used below). *)
Definition offset_limit {A} (offset limit : Z) (l : list A) : list A :=
  List.firstn (Z.to_nat limit) (List.skipn (Z.to_nat offset) l).

(** The statement of [list_user_bookings], executed without pagination. *)
Definition user_bookings_stmt (db : DB) (email : string) : list Booking.t :=
  order_by_desc Booking.booked_at (List.filter (same_email email) (bookings db)).

(** [list_user_bookings]: the page and the total. *)
Definition list_user_bookings (db : DB) (email : string) (page size : Z)
  : list Booking.t * Z :=
  let stmt := user_bookings_stmt db email in
  let total := Z.of_nat (length stmt) in
  (offset_limit ((page - 1) * size) size stmt, total).

(** [services/bookings.py]: [user_bookings]. *)
Definition user_bookings (db : DB) (email : string) (page size : Z)
  : list Booking.t * Z :=
  list_user_bookings db email page size.

(** The statement of [list_reviews], executed without pagination. *)
Definition reviews_stmt (db : DB) (event_id : string) : list Review.t :=
  order_by_desc Review.created_at (List.filter (of_event event_id) (reviews db)).

(** [list_reviews]. *)
Definition list_reviews (db : DB) (event_id : string) (page size : Z)
  : list Review.t * Z :=
  let stmt := reviews_stmt db event_id in
  let total := Z.of_nat (length stmt) in
  (offset_limit ((page - 1) * size) size stmt, total).

(** [services/review.py]: [event_reviews]. *)
Definition event_reviews (db : DB) (event_id : string) (page size : Z)
  : list Review.t * Z :=
  list_reviews db event_id page size.

(** A page that one run of the query of [list_user_bookings] may return. *)
Definition user_bookings_page (db : DB) (email : string) (page size : Z)
    (rows : list Booking.t) : Prop :=
  exists stmt,
    ordered_by_desc Booking.booked_at
                    (List.filter (same_email email) (bookings db)) stmt
    /\ rows = offset_limit ((page - 1) * size) size stmt.

(** Pages [1 .. n] of a listing, one after the other. *)
Definition pages_upto {A} (page_of : Z -> list A) (n : nat) : list A :=
  List.flat_map (fun p => page_of (Z.of_nat p)) (List.seq 1 n).

(** ** Review routes ([app/api/v1/reviews.py], [app/schemas/review.py]) *)

(** [conint(ge=1, le=5)] and [max_length=2_000] of [ReviewCreate] and
    [ReviewUpdate]; a payload that fails them is answered 422 before the
    route body runs. *)
Definition valid_rating (rating : Z) : bool := (1 <=? rating) && (rating <=? 5).

Definition valid_comment (comment : option string) : bool :=
  match comment with
  | Some c => Z.of_nat (String.length c) <=? 2000
  | None => true
  end.

(** The route [create_review], up to the review it hands to
    [ReviewRead.from_orm]. *)
Definition api_create_review (event_id booking_id : string) (rating : Z)
    (comment : option string) (new_id : string) (now : datetime) : M Review.t :=
  if negb (valid_rating rating && valid_comment comment)
  then raise RequestValidationError
  else
    let! db := get_db in
    match get_booking db booking_id with
    | None => raise (HTTPException HTTP_400_BAD_REQUEST "Invalid booking for event")
    | Some booking =>
        match Booking_slot db booking with
        | None =>
            raise (AttributeError "'NoneType' object has no attribute 'event_id'")
        | Some slot =>
            if negb (String.eqb (Slot.event_id slot) event_id)
            then raise (HTTPException HTTP_400_BAD_REQUEST "Invalid booking for event")
            else add_review booking rating comment new_id now
        end
    end.

(** The route [update_review]. *)
Definition api_update_review (review_id : string) (rating : option Z)
    (comment : option string) : M Review.t :=
  if negb (match rating with Some r => valid_rating r | None => true end
          && valid_comment comment)
  then raise RequestValidationError
  else
    let! db := get_db in
    match get_review db review_id with
    | None => raise (HTTPException HTTP_404_NOT_FOUND "Review not found")
    | Some review => edit_review review rating comment
    end.

(** The route [delete_review]. *)
Definition api_delete_review (review_id : string) : M unit :=
  let! db := get_db in
  match get_review db review_id with
  | None => raise (HTTPException HTTP_404_NOT_FOUND "Review not found")
  | Some review => remove_review review
  end.

Inductive ReviewRequest : Type :=
| POST_review (event_id booking_id : string) (rating : Z)
              (comment : option string) (new_id : string) (now : datetime)
| PATCH_review (review_id : string) (rating : option Z) (comment : option string)
| DELETE_review (review_id : string).

Definition serve_review (r : ReviewRequest) (db : DB) : DB :=
  match r with
  | POST_review event_id booking_id rating comment new_id now =>
      snd (api_create_review event_id booking_id rating comment new_id now db)
  | PATCH_review review_id rating comment =>
      snd (api_update_review review_id rating comment db)
  | DELETE_review review_id => snd (api_delete_review review_id db)
  end.

Definition serve_reviews (rs : list ReviewRequest) (db : DB) : DB :=
  fold_left (fun d r => serve_review r d) rs db.

(** ** Invariants of the review table *)

(** One call of the review service on a review row of the table (as
    [get_review] returns it) or on any booking. *)
Inductive review_step : DB -> DB -> Prop :=
| step_add_review db booking rating comment new_id now :
    review_step db (snd (add_review booking rating comment new_id now db))
| step_edit_review db review rating comment :
    In review (reviews db) ->
    review_step db (snd (edit_review review rating comment db))
| step_remove_review db review :
    In review (reviews db) ->
    review_step db (snd (remove_review review db)).

Inductive review_steps : DB -> DB -> Prop :=
| review_steps_nil db : review_steps db db
| review_steps_cons db1 db2 db3 :
    review_step db1 db2 -> review_steps db2 db3 -> review_steps db1 db3.

(** Primary key of the [review] table. *)
Definition reviews_pk (db : DB) : Prop :=
  List.NoDup (List.map Review.id (reviews db)).

(** No booking has two reviews. *)
Definition one_review_per_booking (db : DB) : Prop :=
  List.NoDup (List.map Review.booking_id (reviews db)).

(** Every event's denormalised rating agrees with its reviews. *)
Definition ratings_consistent (db : DB) : Prop :=
  forall event_id, rating_consistent db event_id.

(** Every stored rating is a star count. *)
Definition ratings_in_range (db : DB) : Prop :=
  forall r, In r (reviews db) -> 1 <= Review.rating r <= 5.

(** Alice reviews her booking, changes her mind, and withdraws the review. *)
Module SampleReviews.
Definition review1 : Review.t :=
  Review.mk "r-1" "event-1" "b-1" 5 (Some "Great") 900.
Definition review1_edited : Review.t :=
  Review.mk "r-1" "event-1" "b-1" 3 (Some "Great") 900.
Definition db_r1 : DB :=
  snd (add_review Sample.alice 5 (Some "Great") "r-1" 900 Sample.db1).
Definition db_r2 : DB := snd (edit_review review1 (Some 3) None db_r1).
Definition db_r3 : DB := snd (remove_review review1_edited db_r2).
End SampleReviews.

(** Three guests of one slot rate the event 1, 1 and 2. *)
Module SampleRatings.
Definition slot3 : Slot.t := Slot.mk "slot-3" "event-1" 2000 3 0.
Definition db0 : DB := mkDB [Sample.event1] [slot3] [] [] [].
Definition ann : Booking.t :=
  Booking.mk "b-ann" "slot-3" "Ann" "ann@example.com" CONFIRMED 100.
Definition ben : Booking.t :=
  Booking.mk "b-ben" "slot-3" "Ben" "ben@example.com" CONFIRMED 110.
Definition cat : Booking.t :=
  Booking.mk "b-cat" "slot-3" "Cat" "cat@example.com" CONFIRMED 120.
Definition db_booked : DB :=
  snd (make_booking slot3 "Cat" "cat@example.com" "b-cat" 120
    (snd (make_booking slot3 "Ben" "ben@example.com" "b-ben" 110
      (snd (make_booking slot3 "Ann" "ann@example.com" "b-ann" 100 db0))))).
Definition db_11 : DB :=
  snd (add_review ben 1 None "r-ben" 910
    (snd (add_review ann 1 None "r-ann" 900 db_booked))).
Definition db_112 : DB := snd (add_review cat 2 None "r-cat" 920 db_11).
(** The binary64 nearest to 4/3. *)
Definition four_thirds : Q := 6004799503160661 # 4503599627370496.
End SampleRatings.

(** One guest with three bookings made at different times, and one with
    two bookings made at the same instant. *)
Module SamplePages.
Definition dana (id slot_id : string) (at_ : datetime) : Booking.t :=
  Booking.mk id slot_id "Dana" "dana@example.com" CONFIRMED at_.
Definition db : DB :=
  mkDB [] [] [dana "d-1" "s-1" 10; dana "d-2" "s-2" 30; dana "d-3" "s-3" 20] [] [].
Definition page_of (p : Z) : list Booking.t :=
  fst (list_user_bookings db "dana@example.com" p 2).
Definition twin_a : Booking.t :=
  Booking.mk "t-a" "s-1" "Tess" "tess@example.com" CONFIRMED 50.
Definition twin_b : Booking.t :=
  Booking.mk "t-b" "s-2" "Tess" "tess@example.com" CONFIRMED 50.
Definition db_twins : DB := mkDB [] [] [twin_a; twin_b] [] [].
End SamplePages.

(** ** What a filter asks for *)




(** Rated events first, higher average first, ties by later creation. *)
Definition rating_order (e1 e2 : Event.t) : Prop :=
  match Event.rating_avg e1, Event.rating_avg e2 with
  | Some a, Some b =>
      Qlt b a \/ (Qeq a b /\ Event.created_at e2 <= Event.created_at e1)
  | Some _, None => True
  | None, Some _ => False
  | None, None => Event.created_at e2 <= Event.created_at e1
  end.

(** A rated, cheap, older event and an unrated, dearer, newer one. *)
Module SampleSearch.
Definition rated : Event.t :=
  Event.mk "ev-r" "Yoga at dawn" "Stretch" "Rita" "Health" 60 1500 "USD"
           (Some (Qmake 9 2)) 2 "UTC" None 10.
Definition unrated : Event.t :=
  Event.mk "ev-u" "Design Sprint" "Rapid prototyping" "Uma" "Design" 90 4500
           "USD" None 0 "UTC" None 20.
Definition db : DB := mkDB [unrated; rated] [] [] [] [].
Definition only_design : EventFilter :=
  mkEventFilter 1 20 None (Some "Design") (Some 1000) None "price".

(** Stand-ins for the store's string primitives in the examples: ASCII
    lower-casing, and a [LIKE] that knows the pattern [%term%]. *)
Definition lower_char (c : ascii) : ascii :=
  let n := nat_of_ascii c in
  if (65 <=? n)%nat && (n <=? 90)%nat then ascii_of_nat (n + 32) else c.
Fixpoint lower (s : string) : string :=
  match s with
  | EmptyString => EmptyString
  | String c rest => String (lower_char c) (lower rest)
  end.
Definition like (value pattern : string) : bool :=
  match String.index 0 (String.substring 1 (String.length pattern - 2) pattern)
                     value with
  | Some _ => true
  | None => false
  end.
End SampleSearch.

(** ** Rate table ([app/services/fx.py]) *)

(** The table [_fetch_rates_remote] falls back to. *)
Definition fallback_rates : gmap string float := {[ "USD" := 1%float ]}.

(** [_fetch_rates_remote]; [response] is what [resp.json()["rates"]] yields,
    [None] when anything inside the [try] raises. *)
Definition _fetch_rates_remote (response : option (gmap string float))
  : gmap string float :=
  match response with
  | Some rates => rates
  | None => fallback_rates
  end.

(** The Redis side of [get_rates]: whether the connection answers, and the
    table kept under [fx:rates] while its TTL runs. *)
Record Redis : Type := mkRedis {
  redis_up : bool;
  fx_rates : option (gmap string float)
}.

(** [get_rates]: the table returned and the cache afterwards. *)
Definition get_rates (force_refresh : bool)
    (response : option (gmap string float)) (redis : Redis)
  : gmap string float * Redis :=
  let cached :=
    if force_refresh then None
    else if redis_up redis then fx_rates redis else None in
  match cached with
  | Some table => (table, redis)
  | None =>
      let rates := _fetch_rates_remote response in
      (rates, if redis_up redis then mkRedis true (Some rates) else redis)
  end.

(** ** Event creation ([app/crud/events.py]) *)

(** One element of [slots]: a dict with [start_utc] and, optionally,
    [max_bookings]. *)
Record SlotDict : Type := mkSlotDict {
  dict_start_utc : datetime;
  dict_max_bookings : option Z
}.

(** The [Slot(...)] rows built for a new event; [uuid] and [clock] are the
    successive values of [uuid4()] and [datetime.utcnow()], the first of each
    being used for the event itself. *)
Fixpoint new_slots (i : nat) (event_id : string) (uuid : nat -> string)
    (clock : nat -> datetime) (ds : list SlotDict) : list Slot.t :=
  match ds with
  | [] => []
  | d :: ds' =>
      Slot.mk (uuid (S i)) event_id (dict_start_utc d)
              (match dict_max_bookings d with Some m => m | None => 1 end)
              (clock (S i))
      :: new_slots (S i) event_id uuid clock ds'
  end.

Definition slot_key (s : Slot.t) : string * datetime :=
  (Slot.event_id s, Slot.start_utc s).

Definition same_key (s r : Slot.t) : bool :=
  String.eqb (Slot.event_id r) (Slot.event_id s)
  && (Slot.start_utc r =? Slot.start_utc s).

(** Flushing the new slot rows: primary key and
    [UniqueConstraint("event_id", "start_utc", name="uix_event_start")]. *)
Fixpoint insert_slots (new : list Slot.t) (table : list Slot.t)
  : Result (list Slot.t) :=
  match new with
  | [] => Ok table
  | s :: rest =>
      if existsb (fun r => String.eqb (Slot.id r) (Slot.id s)) table
      then Raise (IntegrityError "slot_pkey")
      else if existsb (same_key s) table
      then Raise (IntegrityError "uix_event_start")
      else insert_slots rest (table ++ [s])
  end.

(** [create_event]: the event and its slots go in together or not at all. *)
Definition crud_create_event (title description host_name category : string)
    (duration_min price_minor : Z) (currency timezone : string)
    (image_url : option string) (slots_in : list SlotDict)
    (uuid : nat -> string) (clock : nat -> datetime) : M Event.t :=
  fun db =>
    let event := Event.mk (uuid 0%nat) title description host_name category
                          duration_min price_minor currency None 0
                          timezone image_url (clock 0%nat) in
    if existsb (fun e => String.eqb (Event.id e) (Event.id event)) (events db)
    then (Raise (IntegrityError "event_pkey"), db)
    else
      match insert_slots (new_slots 0 (Event.id event) uuid clock slots_in)
                         (slots db) with
      | Raise e => (Raise e, db)
      | Ok table =>
          (Ok event,
           mkDB (events db ++ [event]) table (bookings db) (reviews db) (outbox db))
      end.

(** [get_event]. *)
Definition get_event (db : DB) (event_id : string) : option Event.t :=
  List.find (fun e => String.eqb (Event.id e) event_id) (events db).

(** [uix_event_start]: no two slots of an event start at the same instant. *)
Definition uix_event_start (db : DB) : Prop :=
  List.NoDup (List.map slot_key (slots db)).

(** Creating an event with two slots, and one with a repeated start. *)
Module SampleCreate.
Definition uuid (i : nat) : string :=
  ("id-" ++ String (Ascii.ascii_of_nat (48 + i)) "")%string.
Definition clock (i : nat) : datetime := 7.
Definition yoga : Event.t :=
  Event.mk "id-0" "Yoga" "Stretch" "Rita" "Health" 60 1500 "USD" None 0
           "UTC" None 7.
Definition create (ds : list SlotDict) : Result Event.t * DB :=
  crud_create_event "Yoga" "Stretch" "Rita" "Health" 60 1500 "USD" "UTC" None
                    ds uuid clock Sample.db0.
Definition two_slots : list SlotDict :=
  [mkSlotDict 100 None; mkSlotDict 200 (Some 5)].
Definition same_start : list SlotDict :=
  [mkSlotDict 100 None; mkSlotDict 100 (Some 5)].
End SampleCreate.

(** ** Properties of the booking layer *)

Lemma select_count_app {A} (p : A -> bool) (l1 l2 : list A) :
  select_count p (l1 ++ l2) = select_count p l1 + select_count p l2.
Proof.
  unfold select_count. rewrite List.filter_app, List.length_app. lia.
Qed.

Lemma select_count_nonneg {A} (p : A -> bool) (l : list A) : 0 <= select_count p l.
Proof. unfold select_count. lia. Qed.

Lemma select_count_cons {A} (p : A -> bool) (x : A) (l : list A) :
  select_count p (x :: l) = (if p x then 1 else 0) + select_count p l.
Proof.
  unfold select_count. simpl. destruct (p x); simpl length; lia.
Qed.

Lemma select_count_snoc {A} (p : A -> bool) (l : list A) (x : A) :
  select_count p (l ++ [x]) = select_count p l + (if p x then 1 else 0).
Proof.
  rewrite select_count_app, select_count_cons. unfold select_count at 2; simpl. lia.
Qed.

Lemma mark_cancelled_slot_id id b :
  Booking.slot_id (mark_cancelled id b) = Booking.slot_id b.
Proof. unfold mark_cancelled. destruct (String.eqb _ _); reflexivity. Qed.

Lemma mark_cancelled_email id b :
  Booking.email (mark_cancelled id b) = Booking.email b.
Proof. unfold mark_cancelled. destruct (String.eqb _ _); reflexivity. Qed.

Lemma mark_cancelled_id id b :
  Booking.id (mark_cancelled id b) = Booking.id b.
Proof. unfold mark_cancelled. destruct (String.eqb _ _); reflexivity. Qed.

(** Cancelling never raises a slot's CONFIRMED count. *)
Lemma count_mark_cancelled_le id slot_id bs :
  select_count (fun b => same_slot slot_id b && is_confirmed b)
               (List.map (mark_cancelled id) bs)
  <= select_count (fun b => same_slot slot_id b && is_confirmed b) bs.
Proof.
  induction bs as [|b bs IH]; simpl; [lia|].
  rewrite !select_count_cons.
  unfold same_slot at 1. rewrite mark_cancelled_slot_id. fold (same_slot slot_id b).
  unfold mark_cancelled at 1.
  destruct (String.eqb (Booking.id b) id); simpl.
  - unfold is_confirmed at 1. simpl. rewrite andb_false_r.
    destruct (same_slot slot_id b && is_confirmed b); lia.
  - destruct (same_slot slot_id b && is_confirmed b); lia.
Qed.

Lemma bookings_emit db e : bookings (emit db e) = bookings db.
Proof. reflexivity. Qed.

Lemma slots_emit db e : slots (emit db e) = slots db.
Proof. reflexivity. Qed.

(** What [make_booking] leaves in the [booking] table. *)
Lemma make_booking_bookings slot name email new_id now db :
  bookings (snd (make_booking slot name email new_id now db)) = bookings db
  \/ (booking_exists db (Slot.id slot) email = false
      /\ booking_count db (Slot.id slot) < Slot.max_bookings slot
      /\ bookings (snd (make_booking slot name email new_id now db))
         = bookings db ++ [Booking.mk new_id (Slot.id slot) name email CONFIRMED now]).
Proof.
  unfold make_booking, bind, get_db.
  destruct (booking_exists db (Slot.id slot) email) eqn:Hex; [now left|].
  destruct (booking_count db (Slot.id slot) >=? Slot.max_bookings slot) eqn:Hfull;
    [now left|].
  unfold crud_create_booking, bind, insert_booking.
  destruct (existsb _ (bookings db)); [now left|].
  destruct (existsb _ (bookings db)); [now left|].
  right. simpl. repeat split; auto. lia.
Qed.

Lemma make_booking_slots slot name email new_id now db :
  slots (snd (make_booking slot name email new_id now db)) = slots db.
Proof.
  unfold make_booking, bind, get_db.
  destruct (booking_exists db (Slot.id slot) email); [reflexivity|].
  destruct (booking_count db (Slot.id slot) >=? Slot.max_bookings slot);
    [reflexivity|].
  unfold crud_create_booking, bind, insert_booking.
  destruct (existsb _ (bookings db)); [reflexivity|].
  destruct (existsb _ (bookings db)); reflexivity.
Qed.

Lemma crud_cancel_booking_bookings booking db :
  bookings (snd (crud_cancel_booking booking db)) = bookings db
  \/ bookings (snd (crud_cancel_booking booking db))
     = List.map (mark_cancelled (Booking.id booking)) (bookings db).
Proof.
  unfold crud_cancel_booking. destruct (Booking.status booking); simpl; auto.
Qed.

Lemma crud_cancel_booking_slots booking db :
  slots (snd (crud_cancel_booking booking db)) = slots db.
Proof.
  unfold crud_cancel_booking. destruct (Booking.status booking); reflexivity.
Qed.

Lemma cancel_booking_bookings booking db :
  bookings (snd (cancel_booking booking db)) = bookings db
  \/ bookings (snd (cancel_booking booking db))
     = List.map (mark_cancelled (Booking.id booking)) (bookings db).
Proof.
  unfold cancel_booking, crud_cancel_booking, bind, get_db, modify.
  destruct (Booking.status booking); simpl; auto.
  destruct (Booking_slot _ _); simpl; auto.
Qed.

Lemma cancel_booking_slots booking db :
  slots (snd (cancel_booking booking db)) = slots db.
Proof.
  unfold cancel_booking, crud_cancel_booking, bind, get_db, modify.
  destruct (Booking.status booking); simpl; auto.
  destruct (Booking_slot _ _); simpl; auto.
Qed.

Lemma booking_step_slots db db' : booking_step db db' -> slots db' = slots db.
Proof.
  intros H; destruct H.
  - apply make_booking_slots.
  - apply cancel_booking_slots.
  - apply crud_cancel_booking_slots.
Qed.

Lemma slot_id_inj db s1 s2 :
  slots_pk db -> In s1 (slots db) -> In s2 (slots db) ->
  Slot.id s1 = Slot.id s2 -> s1 = s2.
Proof.
  unfold slots_pk. induction (slots db) as [|s l IH]; simpl; [tauto|].
  intros Hnd H1 H2 Heq. inversion Hnd as [|? ? Hnotin Hnd']; subst.
  destruct H1 as [->|H1], H2 as [->|H2]; auto.
  - exfalso. apply Hnotin. rewrite Heq. now apply List.in_map.
  - exfalso. apply Hnotin. rewrite <- Heq. now apply List.in_map.
Qed.

Lemma booking_step_capacity db db' :
  slots_pk db -> capacity_ok db -> booking_step db db' -> capacity_ok db'.
Proof.
  intros Hpk Hcap Hstep s Hs.
  pose proof (booking_step_slots _ _ Hstep) as Hslots.
  rewrite Hslots in Hs. specialize (Hcap s Hs).
  unfold booking_count in *. destruct Hstep.
  - destruct (make_booking_bookings slot name email new_id now db)
      as [-> | (_ & Hlt & ->)]; [exact Hcap|].
    rewrite select_count_snoc. unfold same_slot at 2, is_confirmed at 2; simpl.
    rewrite andb_true_r.
    destruct (String.eqb (Slot.id slot) (Slot.id s)) eqn:Heq.
    + apply String.eqb_eq in Heq.
      assert (slot = s) by (eapply slot_id_inj; eauto). subst s.
      unfold booking_count in Hlt. lia.
    + lia.
  - destruct (cancel_booking_bookings booking db) as [-> | ->]; [exact Hcap|].
    etransitivity; [apply count_mark_cancelled_le | exact Hcap].
  - destruct (crud_cancel_booking_bookings booking db) as [-> | ->]; [exact Hcap|].
    etransitivity; [apply count_mark_cancelled_le | exact Hcap].
Qed.

Lemma booking_steps_slots db db' : booking_steps db db' -> slots db' = slots db.
Proof.
  induction 1 as [|db1 db2 db3 H1 _ IH]; [reflexivity|].
  rewrite IH. now apply booking_step_slots.
Qed.

(** C1: from any store within the capacity bound, after any sequence of
    [make_booking], [cancel_booking] (service) and [cancel_booking] (CRUD)
    calls, every slot of capacity N has at most N CONFIRMED bookings. *)
Theorem capacity_never_exceeded (db0 db : DB) (slot : Slot.t) :
  slots_pk db0 -> capacity_ok db0 -> booking_steps db0 db ->
  In slot (slots db) ->
  booking_count db (Slot.id slot) <= Slot.max_bookings slot.
Proof.
  intros Hpk Hcap Hsteps. revert Hpk Hcap.
  induction Hsteps as [|db1 db2 db3 H1 _ IH]; intros Hpk Hcap Hin.
  - now apply Hcap.
  - apply IH; auto.
    + unfold slots_pk in *. now rewrite (booking_step_slots _ _ H1).
    + eapply booking_step_capacity; eauto.
Qed.

Lemma capacity_never_exceeded_witness :
  booking_count Sample.db4 "slot-1" <= 1.
Proof.
  apply (capacity_never_exceeded Sample.db0 Sample.db4 Sample.slot1).
  - repeat constructor. simpl. tauto.
  - intros s [<-|[]]. vm_compute. discriminate.
  - eapply steps_cons; [apply (step_make_booking Sample.db0 Sample.slot1); simpl; auto|].
    eapply steps_cons;
      [apply (step_make_booking Sample.db1 Sample.slot1 "Bob" "bob@example.com" "b-2" 200);
       vm_compute; auto|].
    eapply steps_cons; [apply (step_cancel_booking Sample.db2 Sample.alice)|].
    eapply steps_cons;
      [apply (step_make_booking Sample.db3 Sample.slot1 "Bob" "bob@example.com" "b-3" 300);
       vm_compute; auto|].
    apply steps_nil.
  - vm_compute. auto.
Defined.

(** *** [make_booking], case by case *)

Lemma booking_exists_pair_taken db slot_id email :
  booking_exists db slot_id email = true -> pair_taken db slot_id email = true.
Proof.
  unfold booking_exists, pair_taken, select_count.
  induction (bookings db) as [|b bs IH]; simpl; [discriminate|].
  destruct (same_slot slot_id b && same_email email b) eqn:Hp; simpl; auto.
Qed.

Lemma make_booking_success db slot name email new_id now :
  booking_count db (Slot.id slot) < Slot.max_bookings slot ->
  pair_taken db (Slot.id slot) email = false ->
  booking_id_taken db new_id = false ->
  let booking := Booking.mk new_id (Slot.id slot) name email CONFIRMED now in
  fst (make_booking slot name email new_id now db) = Ok booking
  /\ bookings (snd (make_booking slot name email new_id now db))
     = bookings db ++ [booking].
Proof.
  intros Hcount Hpair Hid booking.
  unfold make_booking, bind, get_db.
  destruct (booking_exists db (Slot.id slot) email) eqn:Hex.
  - apply booking_exists_pair_taken in Hex. congruence.
  - destruct (booking_count db (Slot.id slot) >=? Slot.max_bookings slot) eqn:Hfull;
      [lia|].
    unfold crud_create_booking, bind, insert_booking. simpl.
    unfold booking_id_taken in Hid. unfold pair_taken in Hpair.
    rewrite Hid, Hpair. simpl. auto.
Qed.

(** C2 (as amended): [make_booking] checks, in this order and before any
    write, (1) a CONFIRMED booking for the pair: [DuplicateBooking];
    (2) the CONFIRMED count against [max_bookings]: [SlotFull]; in both cases
    the store is left as it was.  Past both checks, when the table holds no
    row for the pair in any status (and the drawn id is new), it inserts
    and returns a CONFIRMED booking. *)
Theorem make_booking_preconditions (db : DB) (slot : Slot.t)
    (name email new_id : string) (now : datetime) :
  (booking_exists db (Slot.id slot) email = true ->
     make_booking slot name email new_id now db = (Raise DuplicateBooking, db))
  /\ (booking_exists db (Slot.id slot) email = false ->
      booking_count db (Slot.id slot) >= Slot.max_bookings slot ->
      make_booking slot name email new_id now db = (Raise SlotFull, db))
  /\ (booking_exists db (Slot.id slot) email = false ->
      booking_count db (Slot.id slot) < Slot.max_bookings slot ->
      pair_taken db (Slot.id slot) email = false ->
      booking_id_taken db new_id = false ->
      let booking := Booking.mk new_id (Slot.id slot) name email CONFIRMED now in
      fst (make_booking slot name email new_id now db) = Ok booking
      /\ Booking.status booking = CONFIRMED
      /\ bookings (snd (make_booking slot name email new_id now db))
         = bookings db ++ [booking]).
Proof.
  repeat split.
  - intros Hex. unfold make_booking, bind, get_db. now rewrite Hex.
  - intros Hex Hfull. unfold make_booking, bind, get_db. rewrite Hex.
    destruct (booking_count db (Slot.id slot) >=? Slot.max_bookings slot) eqn:E;
      [reflexivity | lia].
  - now apply make_booking_success.
  - now apply make_booking_success.
Qed.

Lemma make_booking_preconditions_witness :
  fst (make_booking Sample.slot1 "Alice" "alice@example.com" "b-1" 100 Sample.db0)
  = Ok Sample.alice.
Proof.
  apply (proj2 (proj2 (make_booking_preconditions Sample.db0 Sample.slot1
                         "Alice" "alice@example.com" "b-1" 100)));
    vm_compute; reflexivity.
Defined.

(** C2, where the claim as written fails: Bob's earlier booking of the slot
    is CANCELLED, so neither precondition fires and the slot has room, yet
    no booking is returned: the insert hits [uix_slot_email]. *)
Lemma make_booking_after_cancel_raises :
  booking_exists Sample.db_bob_cancelled "slot-1" "bob@example.com" = false
  /\ booking_count Sample.db_bob_cancelled "slot-1" < Slot.max_bookings Sample.slot1
  /\ make_booking Sample.slot1 "Bob" "bob@example.com" "b-9" 500
       Sample.db_bob_cancelled
     = (Raise (IntegrityError "uix_slot_email"), Sample.db_bob_cancelled).
Proof. vm_compute. repeat split; reflexivity. Qed.

(** *** Slot properties *)

(** C3, on the code: [Slot.is_full] and [Slot.remaining] go by the length of
    the whole relationship, so a slot of capacity 1 whose only booking is
    CANCELLED reports no seat left, while [booking_count] sees none taken. *)
Lemma slot_props_count_cancelled :
  booking_count Sample.db_bob_cancelled (Slot.id Sample.slot1) = 0
  /\ Slot.max_bookings Sample.slot1 = 1
  /\ Slot_remaining Sample.db_bob_cancelled Sample.slot1 = 0
  /\ Slot_is_full Sample.db_bob_cancelled Sample.slot1 = true.
Proof. vm_compute. repeat split; reflexivity. Qed.

(** *** Cancellation *)

Lemma map_mark_cancelled_absent id bs :
  ~ In id (List.map Booking.id bs) -> List.map (mark_cancelled id) bs = bs.
Proof.
  induction bs as [|b bs IH]; simpl; intros Hnot; [reflexivity|].
  rewrite IH by tauto. unfold mark_cancelled.
  destruct (String.eqb (Booking.id b) id) eqn:E; [|reflexivity].
  apply String.eqb_eq in E. tauto.
Qed.

Lemma find_mark_cancelled b bs :
  List.NoDup (List.map Booking.id bs) -> In b bs ->
  List.find (fun r => String.eqb (Booking.id r) (Booking.id b))
            (List.map (mark_cancelled (Booking.id b)) bs)
  = Some (Booking.with_status b CANCELLED).
Proof.
  induction bs as [|r bs IH]; simpl; intros Hnd Hin; [tauto|].
  inversion Hnd as [|? ? Hnotin Hnd']; subst.
  rewrite mark_cancelled_id.
  destruct Hin as [->|Hin].
  - rewrite String.eqb_refl. unfold mark_cancelled. now rewrite String.eqb_refl.
  - destruct (String.eqb (Booking.id r) (Booking.id b)) eqn:E; [|now apply IH].
    apply String.eqb_eq in E. exfalso. apply Hnotin. rewrite E.
    now apply List.in_map.
Qed.

(** Cancelling a stored CONFIRMED booking lowers its slot's count by one. *)
Lemma count_mark_cancelled_exact b bs :
  List.NoDup (List.map Booking.id bs) -> In b bs -> Booking.status b = CONFIRMED ->
  select_count (fun r => same_slot (Booking.slot_id b) r && is_confirmed r)
               (List.map (mark_cancelled (Booking.id b)) bs)
  = select_count (fun r => same_slot (Booking.slot_id b) r && is_confirmed r) bs - 1.
Proof.
  induction bs as [|r bs IH]; simpl; intros Hnd Hin Hst; [tauto|].
  inversion Hnd as [|? ? Hnotin Hnd']; subst.
  rewrite !select_count_cons.
  destruct Hin as [->|Hin].
  - rewrite map_mark_cancelled_absent by assumption.
    unfold mark_cancelled. rewrite String.eqb_refl.
    unfold same_slot, is_confirmed. simpl. rewrite Hst, String.eqb_refl. simpl.
    lia.
  - rewrite IH by assumption.
    assert (String.eqb (Booking.id r) (Booking.id b) = false) as E.
    { apply String.eqb_neq. intros E. apply Hnotin. rewrite E.
      now apply List.in_map. }
    assert (mark_cancelled (Booking.id b) r = r) as ->
      by (unfold mark_cancelled; now rewrite E).
    lia.
Qed.

Lemma pair_taken_mark_cancelled id slot_id email bs :
  existsb (fun r => same_slot slot_id r && same_email email r)
          (List.map (mark_cancelled id) bs)
  = existsb (fun r => same_slot slot_id r && same_email email r) bs.
Proof.
  induction bs as [|b bs IH]; simpl; [reflexivity|].
  rewrite IH. unfold same_slot, same_email.
  now rewrite mark_cancelled_slot_id, mark_cancelled_email.
Qed.

Lemma id_taken_mark_cancelled id new_id bs :
  existsb (fun r => String.eqb (Booking.id r) new_id)
          (List.map (mark_cancelled id) bs)
  = existsb (fun r => String.eqb (Booking.id r) new_id) bs.
Proof.
  induction bs as [|b bs IH]; simpl; [reflexivity|].
  now rewrite IH, mark_cancelled_id.
Qed.

Lemma Booking_slot_id db b slot :
  Booking_slot db b = Some slot -> Slot.id slot = Booking.slot_id b.
Proof.
  unfold Booking_slot. intros H. apply List.find_some in H.
  now apply String.eqb_eq.
Qed.

Lemma crud_cancel_confirmed db booking :
  Booking.status booking = CONFIRMED ->
  crud_cancel_booking booking db
  = (Ok (Booking.with_status booking CANCELLED),
     set_bookings db (List.map (mark_cancelled (Booking.id booking)) (bookings db))).
Proof. unfold crud_cancel_booking. now intros ->. Qed.

Lemma cancel_confirmed db booking slot :
  Booking.status booking = CONFIRMED ->
  Booking_slot db booking = Some slot ->
  fst (cancel_booking booking db) = Ok (Booking.with_status booking CANCELLED)
  /\ bookings (snd (cancel_booking booking db))
     = List.map (mark_cancelled (Booking.id booking)) (bookings db)
  /\ slots (snd (cancel_booking booking db)) = slots db.
Proof.
  intros Hst Hslot. unfold cancel_booking, bind, get_db. rewrite Hst.
  rewrite crud_cancel_confirmed by assumption.
  unfold Booking_slot in *. simpl. rewrite Hslot. simpl. auto.
Qed.

(** C4 (as amended): an already CANCELLED booking comes back unchanged from
    the CRUD operation, with the store untouched, and is refused with
    [AlreadyCancelled] by the service.  A stored CONFIRMED booking is set to
    CANCELLED by both, which lowers its slot's CONFIRMED count by one; a
    following [make_booking] on that slot, for an e-mail that holds no
    booking row of the slot in any status, then succeeds (the slot being
    within capacity before). *)
Theorem cancel_booking_cases (db : DB) (booking : Booking.t) :
  (Booking.status booking = CANCELLED ->
     crud_cancel_booking booking db = (Ok booking, db)
     /\ cancel_booking booking db = (Raise AlreadyCancelled, db))
  /\ (Booking.status booking = CONFIRMED ->
      bookings_pk db -> In booking (bookings db) ->
      forall slot, Booking_slot db booking = Some slot ->
      let cancelled := Booking.with_status booking CANCELLED in
      let db_crud := snd (crud_cancel_booking booking db) in
      let db_svc := snd (cancel_booking booking db) in
      fst (crud_cancel_booking booking db) = Ok cancelled
      /\ fst (cancel_booking booking db) = Ok cancelled
      /\ get_booking db_crud (Booking.id booking) = Some cancelled
      /\ get_booking db_svc (Booking.id booking) = Some cancelled
      /\ booking_count db_crud (Slot.id slot) = booking_count db (Slot.id slot) - 1
      /\ booking_count db_svc (Slot.id slot) = booking_count db (Slot.id slot) - 1
      /\ (forall name email new_id now,
            booking_count db (Slot.id slot) <= Slot.max_bookings slot ->
            pair_taken db (Slot.id slot) email = false ->
            booking_id_taken db new_id = false ->
            fst (make_booking slot name email new_id now db_crud)
            = Ok (Booking.mk new_id (Slot.id slot) name email CONFIRMED now)
            /\ fst (make_booking slot name email new_id now db_svc)
               = Ok (Booking.mk new_id (Slot.id slot) name email CONFIRMED now))).
Proof.
  split.
  - intros Hst. unfold cancel_booking, crud_cancel_booking. now rewrite Hst.
  - intros Hst Hpk Hin slot Hslot cancelled db_crud db_svc.
    pose proof (Booking_slot_id _ _ _ Hslot) as Hid.
    destruct (cancel_confirmed db booking slot Hst Hslot) as (Hres & Hbs & _).
    assert (bookings db_crud
            = List.map (mark_cancelled (Booking.id booking)) (bookings db)) as Hbc.
    { unfold db_crud. now rewrite crud_cancel_confirmed. }
    assert (booking_count db_crud (Slot.id slot)
            = booking_count db (Slot.id slot) - 1) as Hc1.
    { unfold booking_count. rewrite Hbc, Hid.
      now apply count_mark_cancelled_exact. }
    assert (booking_count db_svc (Slot.id slot)
            = booking_count db (Slot.id slot) - 1) as Hc2.
    { unfold booking_count. fold db_svc in Hbs. rewrite Hbs, Hid.
      now apply count_mark_cancelled_exact. }
    repeat split.
    + now rewrite crud_cancel_confirmed.
    + exact Hres.
    + unfold get_booking. rewrite Hbc. now apply find_mark_cancelled.
    + unfold get_booking. fold db_svc in Hbs. rewrite Hbs.
      now apply find_mark_cancelled.
    + exact Hc1.
    + exact Hc2.
    + apply make_booking_success.
      * lia.
      * unfold pair_taken in *. rewrite Hbc.
        now rewrite pair_taken_mark_cancelled.
      * unfold booking_id_taken in *. rewrite Hbc.
        now rewrite id_taken_mark_cancelled.
    + fold db_svc in Hbs. apply make_booking_success.
      * lia.
      * unfold pair_taken in *. rewrite Hbs.
        now rewrite pair_taken_mark_cancelled.
      * unfold booking_id_taken in *. rewrite Hbs.
        now rewrite id_taken_mark_cancelled.
Qed.

Lemma cancel_booking_cases_witness :
  fst (make_booking Sample.slot1 "Bob" "bob@example.com" "b-3" 300
         (snd (cancel_booking Sample.alice Sample.db1)))
  = Ok (Booking.mk "b-3" "slot-1" "Bob" "bob@example.com" CONFIRMED 300).
Proof.
  destruct (cancel_booking_cases Sample.db1 Sample.alice) as [_ H].
  assert (bookings_pk Sample.db1) as Hpk.
  { unfold bookings_pk. vm_compute. repeat constructor. simpl. tauto. }
  assert (In Sample.alice (bookings Sample.db1)) as Hin.
  { vm_compute. left. reflexivity. }
  specialize (H eq_refl Hpk Hin Sample.slot1 eq_refl).
  destruct H as (_ & _ & _ & _ & _ & _ & H).
  apply (H "Bob" "bob@example.com" "b-3" 300); vm_compute;
    try reflexivity; discriminate.
Defined.

(** C4, where the claim as written fails: Alice's CONFIRMED booking is
    cancelled, and the reservation that follows on the same slot under a
    different e-mail is refused, because Bob holds a CANCELLED row there. *)
Lemma reserve_after_cancel_can_fail :
  fst (cancel_booking Sample.alice Sample.db_alice_after_bob)
  = Ok (Booking.with_status Sample.alice CANCELLED)
  /\ booking_count (snd (cancel_booking Sample.alice Sample.db_alice_after_bob))
                   "slot-1" = 0
  /\ "bob@example.com" <> Booking.email Sample.alice
  /\ fst (make_booking Sample.slot1 "Bob" "bob@example.com" "b-9" 500
            (snd (cancel_booking Sample.alice Sample.db_alice_after_bob)))
     = Raise (IntegrityError "uix_slot_email").
Proof. vm_compute. repeat split; try reflexivity. discriminate. Qed.

(** *** One row per slot and e-mail *)

Lemma pair_taken_false_not_in slot_id email bs :
  existsb (fun r => same_slot slot_id r && same_email email r) bs = false ->
  ~ In (slot_id, email) (List.map slot_email bs).
Proof.
  induction bs as [|b bs IH]; simpl; [tauto|].
  intros H. apply orb_false_elim in H as [Hb Hbs].
  intros [E|Hin]; [|now apply IH].
  unfold slot_email in E. inversion E; subst.
  unfold same_slot, same_email in Hb. now rewrite !String.eqb_refl in Hb.
Qed.

Lemma pair_taken_true_in row bs :
  In row bs ->
  existsb (fun r => same_slot (Booking.slot_id row) r
                    && same_email (Booking.email row) r) bs = true.
Proof.
  intros Hin. apply List.existsb_exists. exists row. split; [assumption|].
  unfold same_slot, same_email. now rewrite !String.eqb_refl.
Qed.

Lemma NoDup_snoc {A} (l : list A) (x : A) :
  List.NoDup l -> ~ In x l -> List.NoDup (l ++ [x]).
Proof.
  intros Hnd Hnot. apply List.NoDup_app; [assumption | repeat constructor; simpl; tauto |].
  intros a Ha [<-|[]]. tauto.
Qed.

Lemma map_slot_email_mark_cancelled id bs :
  List.map slot_email (List.map (mark_cancelled id) bs) = List.map slot_email bs.
Proof.
  rewrite List.map_map. apply List.map_ext. intros b. unfold slot_email.
  now rewrite mark_cancelled_slot_id, mark_cancelled_email.
Qed.

(** [make_booking] adds a row only for a pair the table does not hold. *)
Lemma make_booking_appends_fresh slot name email new_id now db :
  make_booking slot name email new_id now db
  = (fst (make_booking slot name email new_id now db), db)
    /\ (forall b, fst (make_booking slot name email new_id now db) <> Ok b)
  \/ (pair_taken db (Slot.id slot) email = false
      /\ bookings (snd (make_booking slot name email new_id now db))
         = bookings db ++ [Booking.mk new_id (Slot.id slot) name email CONFIRMED now]).
Proof.
  unfold make_booking, bind, get_db, pair_taken.
  destruct (booking_exists db (Slot.id slot) email); [left; split; easy|].
  destruct (booking_count db (Slot.id slot) >=? Slot.max_bookings slot);
    [left; split; easy|].
  unfold crud_create_booking, bind, insert_booking. simpl.
  destruct (existsb _ (bookings db)); [left; split; easy|].
  destruct (existsb _ (bookings db)); [left; split; easy|].
  right. simpl. auto.
Qed.

Lemma booking_step_uix db db' :
  uix_slot_email db -> booking_step db db' -> uix_slot_email db'.
Proof.
  unfold uix_slot_email. intros Hu Hstep. destruct Hstep.
  - destruct (make_booking_appends_fresh slot name email new_id now db)
      as [[-> _] | [Hfree ->]]; [exact Hu|].
    rewrite List.map_app. apply NoDup_snoc; [exact Hu|].
    now apply pair_taken_false_not_in.
  - destruct (cancel_booking_bookings booking db) as [-> | ->]; [exact Hu|].
    now rewrite map_slot_email_mark_cancelled.
  - destruct (crud_cancel_booking_bookings booking db) as [-> | ->]; [exact Hu|].
    now rewrite map_slot_email_mark_cancelled.
Qed.

Lemma NoDup_map_count_le_1 bs slot_id email :
  List.NoDup (List.map slot_email bs) ->
  select_count (fun r => same_slot slot_id r && same_email email r) bs <= 1.
Proof.
  induction bs as [|b bs IH]; intros Hnd; [unfold select_count; simpl; lia|].
  simpl in Hnd. inversion Hnd as [|? ? Hnotin Hnd']; subst.
  rewrite select_count_cons. specialize (IH Hnd').
  destruct (same_slot slot_id b && same_email email b) eqn:E; [|lia].
  apply andb_prop in E as [E1 E2].
  apply String.eqb_eq in E1, E2.
  assert (select_count (fun r => same_slot slot_id r && same_email email r) bs = 0);
    [|lia].
  unfold select_count.
  destruct (List.filter _ bs) as [|r rs] eqn:F; [reflexivity|].
  exfalso. apply Hnotin.
  assert (In r (List.filter
                  (fun r => same_slot slot_id r && same_email email r) bs)) as Hr
    by (rewrite F; now left).
  apply List.filter_In in Hr as [Hr Hp]. apply andb_prop in Hp as [P1 P2].
  apply String.eqb_eq in P1, P2.
  replace (slot_email b) with (slot_email r);
    [now apply List.in_map | unfold slot_email; congruence].
Qed.

(** C5: the [booking] table never holds two rows with the same slot and
    e-mail, whatever their status; and [make_booking] for a pair that
    already has a row (a CANCELLED one included) returns no booking and adds
    no row. *)
Theorem one_row_per_slot_email (db0 db : DB) :
  uix_slot_email db0 -> booking_steps db0 db ->
  (forall slot_id email,
      select_count (fun r => same_slot slot_id r && same_email email r)
                   (bookings db) <= 1)
  /\ (forall row slot name new_id now,
        In row (bookings db) -> Booking.slot_id row = Slot.id slot ->
        (forall b, fst (make_booking slot name (Booking.email row) new_id now db)
                   <> Ok b)
        /\ bookings (snd (make_booking slot name (Booking.email row) new_id now db))
           = bookings db).
Proof.
  intros Hu Hsteps.
  assert (uix_slot_email db) as Hdb.
  { induction Hsteps as [|db1 db2 db3 H1 _ IH]; [assumption|].
    apply IH. eapply booking_step_uix; eauto. }
  split.
  - intros slot_id email. now apply NoDup_map_count_le_1.
  - intros row slot name new_id now Hin Hslot.
    destruct (make_booking_appends_fresh slot name (Booking.email row) new_id now db)
      as [[Heq Hno] | [Hfree _]].
    + split; [exact Hno | now rewrite Heq].
    + exfalso. unfold pair_taken in Hfree. rewrite <- Hslot in Hfree.
      rewrite pair_taken_true_in in Hfree by assumption. discriminate.
Qed.

Lemma one_row_per_slot_email_witness :
  (forall b, fst (make_booking Sample.slot1 "Alice" "alice@example.com" "b-7" 700
                    Sample.db3) <> Ok b)
  /\ select_count (fun r => same_slot "slot-1" r && same_email "alice@example.com" r)
                  (bookings Sample.db3) <= 1.
Proof.
  assert (uix_slot_email Sample.db0) as H0 by (vm_compute; constructor).
  assert (booking_steps Sample.db0 Sample.db3) as Hsteps.
  { eapply steps_cons;
      [apply (step_make_booking Sample.db0 Sample.slot1 "Alice" "alice@example.com"
                                "b-1" 100); simpl; auto|].
    eapply steps_cons;
      [apply (step_make_booking Sample.db1 Sample.slot1 "Bob" "bob@example.com"
                                "b-2" 200); vm_compute; auto|].
    eapply steps_cons; [apply (step_cancel_booking Sample.db2 Sample.alice)|].
    apply steps_nil. }
  destruct (one_row_per_slot_email Sample.db0 Sample.db3 H0 Hsteps) as [Hcount Hre].
  split.
  - apply (Hre (Booking.with_status Sample.alice CANCELLED) Sample.slot1 "Alice" "b-7" 700).
    + vm_compute. left. reflexivity.
    + reflexivity.
  - apply Hcount.
Defined.

(** ** Properties of the rating aggregate *)

Lemma Zpos_of_nat_pos n : (0 < n)%nat -> Z.pos (Pos.of_nat n) = Z.of_nat n.
Proof.
  intros Hn. rewrite <- (positive_nat_Z (Pos.of_nat n)).
  rewrite Nat2Pos.id by lia. reflexivity.
Qed.

(** *** Rounding to binary64 *)

Section Binary64.
Local Open Scope Q_scope.

Lemma Qround_half_even_nearest (y : Q) (k : Z) :
  Qabs (inject_Z (Qround_half_even y) - y) <= Qabs (inject_Z k - y).
Proof.
  pose proof (Qfloor_le y) as Hlo. pose proof (Qlt_floor y) as Hhi.
  set (f := Qfloor y) in *.
  assert (inject_Z (f + 1) == inject_Z f + 1) as Hf1 by (rewrite inject_Z_plus; reflexivity).
  rewrite Hf1 in Hhi.
  assert (inject_Z k <= inject_Z f \/ inject_Z f + 1 <= inject_Z k) as Hk.
  { destruct (Z_le_gt_dec k f) as [H|H].
    - left. rewrite <- Zle_Qle. exact H.
    - right. rewrite <- Hf1, <- Zle_Qle. lia. }
  unfold Qround_half_even. fold f.
  destruct (Qcompare (y - inject_Z f) (1 # 2)) eqn:C;
    [apply Qeq_alt in C; destruct (Z.even f) | apply Qlt_alt in C | apply Qgt_alt in C];
    rewrite ?Hf1; clear Hf1;
    generalize dependent (inject_Z f); generalize (inject_Z k); intros qk qf; intros;
    apply Qabs_case; intros; apply Qabs_case; intros; destruct Hk; lra.
Qed.

Lemma Qpower2_pos (e : Z) : 0 < 2 ^ e.
Proof. apply Qpower_0_lt. reflexivity. Qed.

Lemma Qpower2_succ (e : Z) : 2 ^ (e + 1) == 2 * 2 ^ e.
Proof. rewrite Qpower_plus by discriminate. simpl (2 ^ 1). ring. Qed.

Lemma Qpower2_inv (e : Z) : 2 ^ e * 2 ^ (- e) == 1.
Proof.
  rewrite <- Qpower_plus by discriminate. now rewrite Z.add_opp_diag_r.
Qed.

Lemma inject_Z_pow2 (n : Z) : (0 <= n)%Z -> inject_Z (2 ^ n) == 2 ^ n.
Proof. intros H. now rewrite Zpower_Qpower. Qed.

Lemma Qfloor_log2_spec (x : Q) :
  0 < x -> 2 ^ Qfloor_log2 x <= x /\ x < 2 ^ (Qfloor_log2 x + 1).
Proof.
  intros Hx. destruct x as [n d].
  assert (0 < n)%Z as Hn by (unfold Qlt in Hx; simpl in Hx; lia).
  unfold Qfloor_log2. cbn [Qnum Qden].
  pose proof (Z.log2_spec n Hn) as [Hn1 Hn2].
  pose proof (Z.log2_spec (Z.pos d) eq_refl) as [Hd1 Hd2].
  pose proof (Z.log2_nonneg n) as Hla. pose proof (Z.log2_nonneg (Z.pos d)) as Hld.
  set (la := Z.log2 n) in *. set (ld := Z.log2 (Z.pos d)) in *.
  rewrite Zle_Qle in Hn1, Hd1. rewrite Zlt_Qlt in Hn2, Hd2.
  replace (Z.succ la) with (la + 1)%Z in Hn2 by lia.
  replace (Z.succ ld) with (ld + 1)%Z in Hd2 by lia.
  rewrite inject_Z_pow2 in Hn1, Hn2, Hd1, Hd2 by lia.
  rewrite Qpower2_succ in Hn2, Hd2.
  assert (2 ^ (la - ld) * 2 ^ ld == 2 ^ la) as HK.
  { rewrite <- Qpower_plus by discriminate. now replace (la - ld + ld)%Z with la by lia. }
  assert ((n # d) * inject_Z (Z.pos d) == inject_Z n) as Hxd.
  { rewrite (Qmake_Qdiv n d). field. discriminate. }
  pose proof (Qpower2_pos (la - ld)) as HKpos.
  pose proof (Qpower2_pos ld) as HRpos.
  destruct (Qle_bool (2 ^ (la - ld)) (n # d)) eqn:T.
  - apply Qle_bool_iff in T. split; [exact T|].
    rewrite Qpower2_succ.
    revert Hn1 Hn2 Hd1 Hd2 HK Hxd HKpos HRpos T Hx.
    generalize (2 ^ (la - ld)) (2 ^ ld) (2 ^ la) (inject_Z n) (inject_Z (Z.pos d)) (n # d).
    intros K R P qn qd x. intros. nra.
  - assert (n # d < 2 ^ (la - ld)) as T'.
    { apply Qnot_le_lt. intros H. apply Qle_bool_iff in H. congruence. }
    replace (la - ld - 1 + 1)%Z with (la - ld)%Z by lia. split; [|exact T'].
    assert (2 * 2 ^ (la - ld - 1) == 2 ^ (la - ld)) as HK2.
    { rewrite <- Qpower2_succ. now replace (la - ld - 1 + 1)%Z with (la - ld)%Z by lia. }
    pose proof (Qpower2_pos (la - ld - 1)) as HK2pos.
    revert Hn1 Hn2 Hd1 Hd2 HK Hxd HKpos HRpos T' Hx HK2 HK2pos.
    generalize (2 ^ (la - ld - 1)) (2 ^ (la - ld)) (2 ^ ld) (2 ^ la) (inject_Z n) (inject_Z (Z.pos d)) (n # d).
    intros K2 K R P qn qd x. intros. nra.
Qed.

Lemma binary64_value_wd (q q' : Q) : q == q' -> binary64_value q -> binary64_value q'.
Proof. intros E (m & e & Hm & Hq). exists m, e. split; [exact Hm|]. now rewrite <- E. Qed.

Lemma binary64_value_opp (q : Q) : binary64_value q -> binary64_value (- q).
Proof.
  intros (m & e & Hm & Hq). exists (- m)%Z, e. split; [lia|].
  rewrite Hq, inject_Z_opp. ring.
Qed.

Lemma binary64_value_Z (n : Z) : (Z.abs n <= 2 ^ 53)%Z -> binary64_value (inject_Z n).
Proof. intros H. exists n, 0%Z. split; [exact H|]. simpl. ring. Qed.

Lemma nearest_binary64_wd (x x' q q' : Q) :
  x == x' -> q == q' -> nearest_binary64 x q -> nearest_binary64 x' q'.
Proof.
  intros Ex Eq [Hv Hn]. split; [now apply (binary64_value_wd q)|].
  intros f Hf. rewrite <- Ex, <- Eq. now apply Hn.
Qed.

Lemma nearest_binary64_opp (x q : Q) :
  nearest_binary64 x q -> nearest_binary64 (- x) (- q).
Proof.
  intros [Hv Hn]. split; [now apply binary64_value_opp|].
  intros f Hf. specialize (Hn (- f) (binary64_value_opp f Hf)).
  assert (- q - - x == - (q - x)) as -> by ring.
  assert (f - - x == - (- f - x)) as -> by ring.
  now rewrite !Qabs_opp.
Qed.

(** The scaled value lies in [2^52, 2^53). *)
Lemma scaled_range (x : Q) :
  0 < x ->
  let e := (Qfloor_log2 x - 52)%Z in
  inject_Z (2 ^ 52) <= x * 2 ^ (- e) /\ x * 2 ^ (- e) < inject_Z (2 ^ 53).
Proof.
  intros Hx e. destruct (Qfloor_log2_spec x Hx) as [Hlo Hhi].
  assert (2 ^ Qfloor_log2 x == inject_Z (2 ^ 52) * 2 ^ e) as E1.
  { rewrite inject_Z_pow2 by lia. rewrite <- Qpower_plus by discriminate.
    unfold e. now replace (52 + (Qfloor_log2 x - 52))%Z with (Qfloor_log2 x) by lia. }
  assert (2 ^ (Qfloor_log2 x + 1) == inject_Z (2 ^ 53) * 2 ^ e) as E2.
  { rewrite inject_Z_pow2 by lia. rewrite <- Qpower_plus by discriminate.
    unfold e. now replace (53 + (Qfloor_log2 x - 52))%Z with (Qfloor_log2 x + 1)%Z by lia. }
  rewrite E1 in Hlo. rewrite E2 in Hhi.
  pose proof (Qpower2_inv e) as Hinv. pose proof (Qpower2_pos e) as HE.
  pose proof (Qpower2_pos (- e)) as HEi.
  revert Hlo Hhi Hinv HE HEi.
  generalize (inject_Z (2 ^ 52)) (inject_Z (2 ^ 53)) (2 ^ e) (2 ^ (- e)).
  intros a b E Ei. intros. split; nra.
Qed.

Lemma binary64_round_pos_nearest (x : Q) :
  0 < x -> nearest_binary64 x (binary64_round_pos x).
Proof.
  intros Hx. unfold binary64_round_pos.
  destruct (scaled_range x Hx) as [Hlo Hhi].
  set (e := (Qfloor_log2 x - 52)%Z) in *.
  set (X := x * 2 ^ (- e)) in *.
  set (m := Qround_half_even X).
  pose proof (Qround_half_even_nearest X (2 ^ 52)) as N52. fold m in N52.
  pose proof (Qround_half_even_nearest X (2 ^ 53)) as N53. fold m in N53.
  pose proof (Qpower2_inv e) as Hinv. pose proof (Qpower2_pos e) as HE.
  pose proof (Qpower2_pos (- e)) as HEi.
  assert (x == X * 2 ^ e) as HxX.
  { unfold X. rewrite <- Qmult_assoc, (Qmult_comm (2 ^ (- e))), Hinv. ring. }
  assert (inject_Z (2 ^ 52) <= inject_Z m /\ inject_Z m <= inject_Z (2 ^ 53)) as [Hm1 Hm2].
  { revert N52 N53 Hlo Hhi. generalize (inject_Z m) (inject_Z (2 ^ 52)) (inject_Z (2 ^ 53)).
    intros qm a b. repeat (apply Qabs_case; intros ?); intros; split; lra. }
  split.
  - exists m, e. split; [|reflexivity].
    rewrite <- Zle_Qle in Hm1, Hm2. lia.
  - intros f (m' & e' & Hm' & Hf).
    assert (forall F, f == F * 2 ^ e ->
            Qabs (inject_Z m - X) <= Qabs (F - X) ->
            Qabs (inject_Z m * 2 ^ e - x) <= Qabs (f - x)) as Hscale.
    { intros F HF H. rewrite HF, HxX.
      assert (inject_Z m * 2 ^ e - X * 2 ^ e == (inject_Z m - X) * 2 ^ e) as -> by ring.
      assert (F * 2 ^ e - X * 2 ^ e == (F - X) * 2 ^ e) as -> by ring.
      rewrite !Qabs_Qmult. rewrite (Qabs_pos (2 ^ e)) by lra.
      apply Qmult_le_compat_r; [exact H | lra]. }
    destruct (Z_le_gt_dec e e') as [Hee|Hee].
    + apply (Hscale (inject_Z (m' * 2 ^ (e' - e)))).
      * rewrite Hf, inject_Z_mult, inject_Z_pow2 by lia.
        rewrite <- Qmult_assoc, <- Qpower_plus by discriminate.
        now replace (e' - e + e)%Z with e' by lia.
      * apply Qround_half_even_nearest.
    + apply (Hscale (f * 2 ^ (- e))).
      * rewrite <- Qmult_assoc, (Qmult_comm (2 ^ (- e))), Hinv. ring.
      * assert (f * 2 ^ (- e) <= inject_Z (2 ^ 52)) as HF.
        { rewrite Hf, <- Qmult_assoc, <- Qpower_plus by discriminate.
          assert (2 ^ (e' + - e) <= 1 # 2) as Hhalf.
          { change (1 # 2) with (2 ^ (-1)).
            apply Qpower_le_compat_l; [lia | discriminate]. }
          pose proof (Qpower2_pos (e' + - e)) as Hp.
          assert (inject_Z m' <= inject_Z (2 ^ 53)) as Hm'' by (rewrite <- Zle_Qle; lia).
          assert (inject_Z (2 ^ 53) == 2 * inject_Z (2 ^ 52)) as E53 by reflexivity.
          assert (0 <= inject_Z (2 ^ 52)) as H52 by discriminate.
          revert Hhalf Hp Hm'' E53 H52.
          generalize (inject_Z m') (inject_Z (2 ^ 53)) (inject_Z (2 ^ 52)) (2 ^ (e' + - e)).
          intros a b c P. intros.
          destruct (Qlt_le_dec a 0); nra. }
        revert N52 HF Hlo. generalize (inject_Z m) (inject_Z (2 ^ 52)) (f * 2 ^ (- e)).
        intros qm a F. repeat (apply Qabs_case; intros ?); intros; lra.
Qed.

Lemma binary64_round_nearest (x : Q) : nearest_binary64 x (binary64_round x).
Proof.
  unfold binary64_round. destruct x as [n d]. cbn [Qnum].
  destruct n as [|p|p].
  - apply (nearest_binary64_wd 0 _ 0); [reflexivity | now rewrite Qred_correct |].
    split; [now apply (binary64_value_Z 0)|].
    intros f _. assert (0 - 0 == 0) as -> by ring. apply Qabs_nonneg.
  - apply (nearest_binary64_wd (Z.pos p # d) _ (binary64_round_pos (Z.pos p # d)));
      [reflexivity | now rewrite Qred_correct |].
    now apply binary64_round_pos_nearest.
  - apply (nearest_binary64_wd (- - (Z.neg p # d)) _
             (- binary64_round_pos (- (Z.neg p # d))));
      [apply Qopp_involutive | now rewrite Qred_correct |].
    apply nearest_binary64_opp. now apply binary64_round_pos_nearest.
Qed.

(** A mean that is itself a binary64 value is stored exactly. *)
Lemma nearest_binary64_exact (x q : Q) :
  binary64_value x -> nearest_binary64 x q -> q == x.
Proof.
  intros Hx [_ Hn]. specialize (Hn x Hx).
  assert (x - x == 0) as E by ring. rewrite E in Hn.
  revert Hn. apply Qabs_case; intros; change (Qabs 0) with 0 in *; lra.
Qed.

(** Rounding keeps a value between two binary64 bounds. *)
Lemma nearest_binary64_between (lo hi x q : Q) :
  binary64_value lo -> binary64_value hi -> lo <= x <= hi ->
  nearest_binary64 x q -> lo <= q <= hi.
Proof.
  intros Hlo Hhi [H1 H2] [_ Hn].
  pose proof (Hn lo Hlo) as A. pose proof (Hn hi Hhi) as B.
  revert A B. repeat (apply Qabs_case; intros ?); intros; split; lra.
Qed.

End Binary64.

(** [func.avg] is the arithmetic mean, as a float holds it. *)
Lemma sql_avg_is_rounded_mean xs : is_rounded_mean (sql_avg xs) xs.
Proof.
  destruct xs as [|x xs]; [reflexivity|].
  split; [discriminate | apply binary64_round_nearest].
Qed.

Lemma recompute_reviews event_id db :
  reviews (snd (recompute_event_rating event_id db)) = reviews db.
Proof. reflexivity. Qed.

Lemma recompute_events event_id db :
  events (snd (recompute_event_rating event_id db))
  = List.map (fun e => if String.eqb (Event.id e) event_id
                       then Event.with_rating e
                              (sql_avg (current_ratings db event_id))
                              (Z.of_nat (length (current_ratings db event_id)))
                       else e)
             (events db).
Proof.
  unfold recompute_event_rating, modify, rating_stats, current_ratings. simpl.
  now rewrite List.length_map.
Qed.

(** After [recompute_event_rating] the event's columns are the mean and the
    number of its current reviews. *)
Lemma recompute_consistent event_id db :
  rating_consistent (snd (recompute_event_rating event_id db)) event_id.
Proof.
  intros e Hin Hid. rewrite recompute_events in Hin.
  unfold current_ratings. rewrite recompute_reviews. fold (current_ratings db event_id).
  apply List.in_map_iff in Hin as (e0 & He & _).
  destruct (String.eqb (Event.id e0) event_id) eqn:E.
  - subst e. simpl. split; [apply sql_avg_is_rounded_mean | reflexivity].
  - subst e0. apply String.eqb_neq in E. contradiction.
Qed.

Lemma set_rating_twice event_id avg cnt (es : list Event.t) :
  let f := fun e => if String.eqb (Event.id e) event_id
                    then Event.with_rating e avg cnt else e in
  List.map f (List.map f es) = List.map f es.
Proof.
  intros f. rewrite List.map_map. apply List.map_ext. intros e. unfold f.
  destruct (String.eqb (Event.id e) event_id) eqn:E; simpl; now rewrite E.
Qed.

Lemma recompute_idempotent event_id db :
  snd (recompute_event_rating event_id (snd (recompute_event_rating event_id db)))
  = snd (recompute_event_rating event_id db).
Proof.
  unfold recompute_event_rating, modify, rating_stats, set_events. simpl.
  f_equal. apply set_rating_twice.
Qed.

Lemma crud_update_review_state review data db :
  snd (crud_update_review review data db)
  = snd (recompute_event_rating (Review.event_id review)
           (set_reviews db
              (List.map (fun r => if String.eqb (Review.id r) (Review.id review)
                                  then setattrs data r else r)
                        (reviews db)))).
Proof. reflexivity. Qed.

Lemma crud_delete_review_state review db :
  snd (crud_delete_review review db)
  = snd (recompute_event_rating (Review.event_id review)
           (set_reviews db
              (List.filter
                 (fun r => negb (String.eqb (Review.id r) (Review.id review)))
                 (reviews db)))).
Proof. reflexivity. Qed.

Lemma crud_create_review_ok event_id booking_id rating comment new_id now db :
  review_exists db booking_id = false ->
  review_id_taken db new_id = false ->
  let review := Review.mk new_id event_id booking_id rating comment now in
  crud_create_review event_id booking_id rating comment new_id now db
  = (Ok review,
     snd (recompute_event_rating event_id
            (set_reviews db (reviews db ++ [review])))).
Proof.
  intros Hex Hid review. unfold crud_create_review, bind, get_db.
  rewrite Hex. unfold insert_review. unfold review_id_taken in Hid.
  simpl. rewrite Hid. reflexivity.
Qed.

Lemma crud_create_review_inv event_id booking_id rating comment new_id now db r :
  fst (crud_create_review event_id booking_id rating comment new_id now db) = Ok r ->
  r = Review.mk new_id event_id booking_id rating comment now
  /\ snd (crud_create_review event_id booking_id rating comment new_id now db)
     = snd (recompute_event_rating event_id
              (set_reviews db (reviews db ++ [r]))).
Proof.
  unfold crud_create_review, bind, get_db.
  destruct (review_exists db booking_id); [discriminate|].
  unfold insert_review. simpl.
  destruct (existsb _ (reviews db)); [discriminate|].
  simpl. intros [= <-]. auto.
Qed.

Lemma filter_swap {A} (p q : A -> bool) (l : list A) :
  List.filter p (List.filter q l) = List.filter q (List.filter p l).
Proof.
  induction l as [|x l IH]; simpl; [reflexivity|].
  destruct (q x) eqn:Q, (p x) eqn:P; simpl; rewrite ?Q, ?P, IH; reflexivity.
Qed.

Lemma recompute_no_reviews event_id db e :
  In e (events (snd (recompute_event_rating event_id db))) ->
  Event.id e = event_id ->
  current_ratings db event_id = [] ->
  Event.rating_avg e = None /\ Event.rating_count e = 0.
Proof.
  intros Hin Hid Hnone.
  destruct (recompute_consistent event_id db e Hin Hid) as [Hmean Hcnt].
  unfold current_ratings in Hmean, Hcnt. rewrite recompute_reviews in Hmean, Hcnt.
  fold (current_ratings db event_id) in Hmean, Hcnt. rewrite Hnone in Hmean, Hcnt.
  split; [|exact Hcnt].
  destruct (Event.rating_avg e); [|reflexivity].
  destruct Hmean as [Hne _]. now contradiction Hne.
Qed.

Lemma delete_only_review event_id db review e :
  List.filter (of_event event_id) (reviews db) = [review] ->
  In e (events (snd (crud_delete_review review db))) ->
  Event.id e = event_id ->
  Event.rating_avg e = None /\ Event.rating_count e = 0.
Proof.
  intros Honly Hin Hid.
  assert (Review.event_id review = event_id) as Hev.
  { assert (In review (List.filter (of_event event_id) (reviews db))) as Hr
      by (rewrite Honly; now left).
    apply List.filter_In in Hr as [_ Hr]. now apply String.eqb_eq. }
  rewrite crud_delete_review_state, Hev in Hin.
  eapply recompute_no_reviews; eauto.
  unfold current_ratings. simpl. rewrite filter_swap, Honly. simpl.
  now rewrite String.eqb_refl.
Qed.

(** On the means of up to forty star ratings (and of as many ratings of
    the opposite sign) the rounding of [sql_avg] is the binary64 division of
    the kernel's floats. *)
Lemma binary64_round_is_float_division :
  forallb (fun n =>
    forallb (fun k => division_agrees (Z.of_nat n + Z.of_nat k) (Z.of_nat n)
                      && division_agrees (- (Z.of_nat n + Z.of_nat k)) (Z.of_nat n))
            (List.seq 0 (4 * n + 1)))
    (List.seq 1 40) = true.
Proof. vm_compute. reflexivity. Qed.

Lemma recompute_exact event_id db e q :
  In e (events (snd (recompute_event_rating event_id db))) ->
  Event.id e = event_id ->
  Event.rating_avg e = Some q ->
  binary64_value (mean (current_ratings db event_id)) ->
  Qeq q (mean (current_ratings db event_id)).
Proof.
  intros Hin Hid Hq Hrep.
  destruct (recompute_consistent event_id db e Hin Hid) as [Hmean _].
  unfold current_ratings in Hmean. rewrite recompute_reviews in Hmean.
  fold (current_ratings db event_id) in Hmean. rewrite Hq in Hmean.
  destruct Hmean as [_ Hnear]. now apply nearest_binary64_exact.
Qed.

(** C6 (as amended): [recompute_event_rating] leaves [rating_avg] the
    arithmetic mean of the event's current ratings as a float holds it, a
    binary64 value nearest to the mean, and [rating_count] the number of
    those reviews, without touching the reviews; this is the state after
    every [create_review], [update_review] and [delete_review]; a mean that
    is itself a binary64 value is stored exactly; with no review left (as
    after deleting the only one) the average is NULL and the count 0; and
    running it again changes nothing. *)
Theorem rating_aggregate_recomputed (db : DB) (event_id : string) :
  (reviews (snd (recompute_event_rating event_id db)) = reviews db
   /\ rating_consistent (snd (recompute_event_rating event_id db)) event_id)
  /\ (forall booking_id rating comment new_id now r,
        fst (crud_create_review event_id booking_id rating comment new_id now db)
        = Ok r ->
        rating_consistent
          (snd (crud_create_review event_id booking_id rating comment new_id now db))
          event_id)
  /\ (forall review data,
        rating_consistent (snd (crud_update_review review data db))
                          (Review.event_id review))
  /\ (forall review,
        rating_consistent (snd (crud_delete_review review db))
                          (Review.event_id review))
  /\ (forall e q,
        In e (events (snd (recompute_event_rating event_id db))) ->
        Event.id e = event_id ->
        Event.rating_avg e = Some q ->
        binary64_value (mean (current_ratings db event_id)) ->
        Qeq q (mean (current_ratings db event_id)))
  /\ (forall e,
        In e (events (snd (recompute_event_rating event_id db))) ->
        Event.id e = event_id ->
        current_ratings db event_id = [] ->
        Event.rating_avg e = None /\ Event.rating_count e = 0)
  /\ (forall review e,
        List.filter (of_event event_id) (reviews db) = [review] ->
        In e (events (snd (crud_delete_review review db))) ->
        Event.id e = event_id ->
        Event.rating_avg e = None /\ Event.rating_count e = 0)
  /\ snd (recompute_event_rating event_id
            (snd (recompute_event_rating event_id db)))
     = snd (recompute_event_rating event_id db).
Proof.
  split; [split; [reflexivity | apply recompute_consistent]|].
  split.
  { intros booking_id rating comment new_id now r Hok.
    apply crud_create_review_inv in Hok as [_ ->]. apply recompute_consistent. }
  split.
  { intros review data. rewrite crud_update_review_state. apply recompute_consistent. }
  split.
  { intros review. rewrite crud_delete_review_state. apply recompute_consistent. }
  split.
  { intros e q. apply recompute_exact. }
  split.
  { intros e. apply recompute_no_reviews. }
  split.
  { intros review e. apply delete_only_review. }
  apply recompute_idempotent.
Qed.

Lemma rating_aggregate_recomputed_witness :
  rating_consistent
    (snd (crud_create_review "event-1" "b-1" 4 None "r-1" 900 Sample.db1))
    "event-1"
  /\ List.map Event.rating_avg
       (events (snd (crud_create_review "event-1" "b-1" 4 None "r-1" 900 Sample.db1)))
     = [Some (Qmake 4 1)]
  /\ rating_consistent
       (snd (crud_create_review "event-1" "b-cat" 2 None "r-cat" 920
               SampleRatings.db_11))
       "event-1"
  /\ List.map Event.rating_avg
       (events (snd (crud_create_review "event-1" "b-cat" 2 None "r-cat" 920
                       SampleRatings.db_11)))
     = [Some SampleRatings.four_thirds].
Proof.
  split; [|split; [vm_compute; reflexivity | split; [|vm_compute; reflexivity]]].
  - destruct (rating_aggregate_recomputed Sample.db1 "event-1") as (_ & H & _).
    apply (H "b-1" 4 None "r-1" 900
             (Review.mk "r-1" "event-1" "b-1" 4 None 900)).
    vm_compute. reflexivity.
  - destruct (rating_aggregate_recomputed SampleRatings.db_11 "event-1")
      as (_ & H & _).
    apply (H "b-cat" 2 None "r-cat" 920
             (Review.mk "r-cat" "event-1" "b-cat" 2 None 920)).
    vm_compute. reflexivity.
Defined.

(** After the ratings 1, 1 and 2 the column holds the binary64 nearest to
    4/3, which is not 4/3: three times it is not 4. *)
Lemma rating_avg_not_exact_mean :
  current_ratings SampleRatings.db_112 "event-1" = [1; 1; 2]
  /\ List.map (fun e => (Event.rating_avg e, Event.rating_count e))
       (events SampleRatings.db_112)
     = [(Some SampleRatings.four_thirds, 3)]
  /\ ~ is_mean (Some SampleRatings.four_thirds) [1; 1; 2].
Proof.
  split; [vm_compute; reflexivity|].
  split; [vm_compute; reflexivity|].
  intros [_ H]. vm_compute in H. discriminate H.
Qed.

(** ** Properties of the review service *)

(** C7: [add_review] refuses a booking that is not CONFIRMED with
    [BookingNotConfirmed], refuses a CONFIRMED booking that already has a
    review with [ReviewAlreadyExists], both without touching the store; and
    otherwise appends exactly one review row and returns it, the store it
    leaves being the one [recompute_event_rating] produces for the parent
    event from the table with the new row. *)
Theorem add_review_cases (db : DB) (booking : Booking.t) (rating : Z)
    (comment : option string) (new_id : string) (now : datetime) :
  (Booking.status booking <> CONFIRMED ->
     add_review booking rating comment new_id now db
     = (Raise BookingNotConfirmed, db))
  /\ (Booking.status booking = CONFIRMED ->
      review_exists db (Booking.id booking) = true ->
      add_review booking rating comment new_id now db
      = (Raise ReviewAlreadyExists, db))
  /\ (Booking.status booking = CONFIRMED ->
      review_exists db (Booking.id booking) = false ->
      forall slot, Booking_slot db booking = Some slot ->
      review_id_taken db new_id = false ->
      let review := Review.mk new_id (Slot.event_id slot) (Booking.id booking)
                              rating comment now in
      let db' := snd (add_review booking rating comment new_id now db) in
      fst (add_review booking rating comment new_id now db) = Ok review
      /\ reviews db' = reviews db ++ [review]
      /\ db' = snd (recompute_event_rating (Slot.event_id slot)
                      (set_reviews db (reviews db ++ [review])))
      /\ rating_consistent db' (Slot.event_id slot)).
Proof.
  split; [|split].
  - intros Hst. unfold add_review.
    destruct (Booking.status booking); [congruence | reflexivity].
  - intros Hst Hex. unfold add_review, bind, get_db. rewrite Hst. simpl.
    now rewrite Hex.
  - intros Hst Hex slot Hslot Hid review db'.
    assert (add_review booking rating comment new_id now db
            = (Ok review,
               snd (recompute_event_rating (Slot.event_id slot)
                      (set_reviews db (reviews db ++ [review]))))) as Heq.
    { unfold add_review, bind, get_db. rewrite Hst. simpl. rewrite Hex, Hslot.
      now apply crud_create_review_ok. }
    unfold db'. rewrite Heq. cbn [fst snd].
    refine (conj eq_refl (conj eq_refl (conj eq_refl _))).
    apply recompute_consistent.
Qed.

Lemma add_review_cases_witness :
  fst (add_review Sample.alice 5 (Some "Great") "r-1" 900 Sample.db1)
  = Ok (Review.mk "r-1" "event-1" "b-1" 5 (Some "Great") 900)
  /\ List.map (fun e => (Event.rating_avg e, Event.rating_count e))
       (events (snd (add_review Sample.alice 5 (Some "Great") "r-1" 900 Sample.db1)))
     = [(Some (Qmake 5 1), 1)].
Proof.
  split; [|vm_compute; reflexivity].
  destruct (add_review_cases Sample.db1 Sample.alice 5 (Some "Great") "r-1" 900)
    as (_ & _ & H).
  apply (H eq_refl eq_refl Sample.slot1 eq_refl eq_refl).
Defined.

(** ** Properties of the event sort *)

Section SortBy.
Context {A : Type} (leb : A -> A -> bool).
Hypothesis leb_total : forall a b, leb a b = false -> leb b a = true.
Hypothesis leb_trans : forall a b c, leb a b = true -> leb b c = true -> leb a c = true.

Lemma insert_sorted_perm x l : Permutation (insert_sorted leb x l) (x :: l).
Proof.
  induction l as [|y t IH]; simpl; [reflexivity|].
  destruct (leb x y); [reflexivity|].
  rewrite IH. apply perm_swap.
Qed.

Lemma sort_by_perm l : Permutation (sort_by leb l) l.
Proof.
  induction l as [|x l IH]; simpl; [reflexivity|].
  rewrite insert_sorted_perm. now constructor.
Qed.

Lemma insert_sorted_sorted x l :
  StronglySorted (fun a b => leb a b = true) l ->
  StronglySorted (fun a b => leb a b = true) (insert_sorted leb x l).
Proof.
  induction 1 as [|y t Hs IH Hall]; simpl; [repeat constructor|].
  destruct (leb x y) eqn:E.
  - constructor; [now constructor|].
    constructor; [assumption|].
    eapply List.Forall_impl; [|exact Hall]. intros z Hz. eauto.
  - constructor; [assumption|].
    assert (Forall (fun b => leb y b = true) (x :: t)) as Hxt
      by (constructor; auto).
    eapply Permutation_Forall; [|exact Hxt].
    symmetry. apply insert_sorted_perm.
Qed.

Lemma sort_by_sorted l : StronglySorted (fun a b => leb a b = true) (sort_by leb l).
Proof.
  induction l as [|x l IH]; simpl; [constructor | now apply insert_sorted_sorted].
Qed.
End SortBy.

Lemma StronglySorted_map_fst {A B} (R : A * B -> A * B -> Prop) (g : A -> B)
    (l : list (A * B)) :
  StronglySorted R l -> (forall r, In r l -> snd r = g (fst r)) ->
  StronglySorted (fun a b => R (a, g a) (b, g b)) (List.map fst l).
Proof.
  induction 1 as [|r t Hs IH Hall]; intros Hg; simpl; [constructor|].
  constructor; [apply IH; intros; apply Hg; now right|].
  apply List.Forall_map. rewrite List.Forall_forall in *.
  intros x Hx.
  assert (r = (fst r, g (fst r))) as Er
    by (rewrite <- (Hg r) by (now left); now destruct r).
  assert (x = (fst x, g (fst x))) as Ex
    by (rewrite <- (Hg x) by (now right); now destruct x).
  rewrite <- Er, <- Ex. now apply Hall.
Qed.

Lemma StronglySorted_ranks_above {A} (R : A -> A -> Prop) (l : list A) (a b : A) :
  StronglySorted R l -> In a l -> In b l -> ~ R b a -> a <> b ->
  ranks_above l a b.
Proof.
  induction 1 as [|x t Hs IH Hall]; intros Ha Hb HR Hne; [destruct Ha|].
  rewrite List.Forall_forall in Hall.
  destruct Ha as [->|Ha].
  - destruct Hb as [->|Hb]; [congruence|].
    apply List.in_split in Hb as (l2 & l3 & ->).
    now exists [], l2, l3.
  - destruct Hb as [->|Hb]; [exfalso; apply HR; now apply Hall|].
    destruct (IH Ha Hb HR Hne) as (l1 & l2 & l3 & ->).
    now exists (x :: l1), l2, l3.
Qed.

(** *** The popularity subquery and the outer join *)

Lemma count_occ_map_filter {A} (f : A -> string) (l : list A) (k : string) :
  count_occ string_dec (List.map f l) k
  = length (List.filter (fun x => String.eqb (f x) k) l).
Proof.
  induction l as [|x l IH]; simpl; [reflexivity|].
  destruct (string_dec (f x) k) as [E|E].
  - apply String.eqb_eq in E. rewrite E. simpl. now rewrite IH.
  - apply String.eqb_neq in E. now rewrite E.
Qed.

Lemma filter_eqb_absent (x : string) (ks : list string) :
  ~ In x ks -> List.filter (String.eqb x) ks = [].
Proof.
  induction ks as [|k ks IH]; simpl; intros Hnot; [reflexivity|].
  destruct (String.eqb x k) eqn:E.
  - apply String.eqb_eq in E. exfalso. apply Hnot. left. now symmetry.
  - apply IH. tauto.
Qed.

Lemma filter_eqb_nodup (x : string) (ks : list string) :
  List.NoDup ks -> In x ks -> List.filter (String.eqb x) ks = [x].
Proof.
  induction ks as [|k ks IH]; simpl; intros Hnd Hin; [tauto|].
  inversion Hnd as [|? ? Hnotin Hnd']; subst.
  destruct (String.eqb x k) eqn:E.
  - apply String.eqb_eq in E. subst k. now rewrite filter_eqb_absent.
  - apply String.eqb_neq in E. destruct Hin as [->|Hin]; [congruence|].
    now apply IH.
Qed.

(** The subquery holds at most one group per event, and exactly the events
    with a non-zero count. *)
Lemma group_count_lookup (keys : list string) (x : string) :
  List.filter (fun g => String.eqb x (fst g)) (group_count keys)
  = if Z.of_nat (count_occ string_dec keys x) =? 0 then []
    else [(x, Z.of_nat (count_occ string_dec keys x))].
Proof.
  unfold group_count.
  assert (forall ks,
             List.filter (fun g : string * Z => String.eqb x (fst g))
               (List.map (fun k => (k, Z.of_nat (count_occ string_dec keys k))) ks)
             = List.map (fun k => (k, Z.of_nat (count_occ string_dec keys k)))
                 (List.filter (String.eqb x) ks)) as Hmap.
  { induction ks as [|k ks IH]; simpl; [reflexivity|].
    destruct (String.eqb x k); simpl; now rewrite IH. }
  rewrite Hmap.
  destruct (in_dec string_dec x keys) as [Hin|Hnot].
  - rewrite filter_eqb_nodup;
      [| apply List.NoDup_nodup | now apply List.nodup_In].
    apply (count_occ_In string_dec) in Hin.
    destruct (Z.of_nat (count_occ string_dec keys x) =? 0) eqn:E; [lia|reflexivity].
  - rewrite filter_eqb_absent by (now rewrite List.nodup_In).
    apply (count_occ_not_In string_dec) in Hnot. now rewrite Hnot.
Qed.

(** With the outer join every matching event yields exactly one row, which
    carries its [pop_count]. *)
Lemma joined_rows_popularity db stmt cutoff :
  popularity_join stmt = Some cutoff ->
  joined_rows db stmt
  = List.map (fun e => (e, pop_count_of db cutoff e))
             (List.filter (matches stmt) (events db)).
Proof.
  intros Hj. unfold joined_rows. rewrite Hj. unfold left_outer_join.
  match goal with |- context [List.flat_map ?g _] => set (f := g) end.
  induction (List.filter (matches stmt) (events db)) as [|e es IH];
    [reflexivity|].
  change (List.flat_map f (e :: es)) with (f e ++ List.flat_map f es).
  rewrite List.map_app, IH. unfold f at 1. unfold popularity_sub.
  rewrite group_count_lookup. unfold pop_count_of, joined_count.
  destruct (Z.of_nat _ =? 0) eqn:E; simpl; rewrite E; reflexivity.
Qed.

(** *** The joined count is the count of the event's recent CONFIRMED
    bookings *)

Section JoinedCount.
Variables (bs : list Booking.t) (event_id : string) (cutoff : datetime).

Let recent (b : Booking.t) : bool :=
  is_confirmed b && (cutoff <=? Booking.booked_at b).
Let on (s : Slot.t) (b : Booking.t) : bool :=
  String.eqb (Booking.slot_id b) (Slot.id s).
Let of_ev (s : Slot.t) : bool := String.eqb (Slot.event_id s) event_id.

Lemma pairs_of_slot (s : Slot.t) :
  select_count (fun sb : Slot.t * Booking.t => String.eqb (Slot.event_id (fst sb)) event_id)
    (List.filter (fun sb => recent (snd sb))
       (List.map (pair s) (List.filter (on s) bs)))
  = if of_ev s then select_count (fun b => recent b && on s b) bs else 0.
Proof.
  induction bs as [|b l IH]; simpl.
  - unfold select_count; simpl. now destruct (of_ev s).
  - rewrite select_count_cons.
    destruct (on s b) eqn:On; simpl.
    + destruct (recent b) eqn:Rc; simpl.
      * rewrite select_count_cons. simpl. fold (of_ev s). rewrite IH.
        destruct (of_ev s); lia.
      * rewrite IH. destruct (of_ev s); lia.
    + rewrite andb_false_r. rewrite IH. destruct (of_ev s); lia.
Qed.

Lemma joined_pairs_cons (s : Slot.t) (ss : list Slot.t) :
  select_count (fun sb : Slot.t * Booking.t => String.eqb (Slot.event_id (fst sb)) event_id)
    (List.filter (fun sb => recent (snd sb)) (inner_join on (s :: ss) bs))
  = (if of_ev s then select_count (fun b => recent b && on s b) bs else 0)
    + select_count (fun sb : Slot.t * Booking.t => String.eqb (Slot.event_id (fst sb)) event_id)
        (List.filter (fun sb => recent (snd sb)) (inner_join on ss bs)).
Proof.
  unfold inner_join. simpl. rewrite List.filter_app, select_count_app.
  now rewrite pairs_of_slot.
Qed.

Lemma no_slot_for (b : Booking.t) (ss : list Slot.t) :
  ~ In (Booking.slot_id b) (List.map Slot.id ss) ->
  existsb (fun s => String.eqb (Slot.id s) (Booking.slot_id b) && of_ev s) ss = false.
Proof.
  induction ss as [|s ss IH]; simpl; intros Hnot; [reflexivity|].
  rewrite IH by tauto.
  destruct (String.eqb (Slot.id s) (Booking.slot_id b)) eqn:E; [|reflexivity].
  apply String.eqb_eq in E. tauto.
Qed.

Lemma bookings_of_event_cons (s : Slot.t) (ss : list Slot.t) :
  ~ In (Slot.id s) (List.map Slot.id ss) ->
  select_count
    (fun b => recent b
              && existsb (fun s' => String.eqb (Slot.id s') (Booking.slot_id b)
                                    && of_ev s') (s :: ss)) bs
  = (if of_ev s then select_count (fun b => recent b && on s b) bs else 0)
    + select_count
        (fun b => recent b
                  && existsb (fun s' => String.eqb (Slot.id s') (Booking.slot_id b)
                                        && of_ev s') ss) bs.
Proof.
  intros Hnot. induction bs as [|b l IH].
  - unfold select_count; simpl. now destruct (of_ev s).
  - assert (on s b = String.eqb (Slot.id s) (Booking.slot_id b)) as Hon
      by (unfold on; apply String.eqb_sym).
    rewrite !select_count_cons, IH. simpl existsb. cbv beta. rewrite Hon.
    destruct (String.eqb (Slot.id s) (Booking.slot_id b)) eqn:E; simpl.
    + apply String.eqb_eq in E. rewrite no_slot_for by (now rewrite <- E).
      destruct (of_ev s), (recent b); simpl; lia.
    + destruct (of_ev s), (recent b); simpl; lia.
Qed.

Lemma joined_pairs_are_bookings (ss : list Slot.t) :
  List.NoDup (List.map Slot.id ss) ->
  select_count (fun sb : Slot.t * Booking.t => String.eqb (Slot.event_id (fst sb)) event_id)
    (List.filter (fun sb => recent (snd sb)) (inner_join on ss bs))
  = select_count
      (fun b => recent b
                && existsb (fun s' => String.eqb (Slot.id s') (Booking.slot_id b)
                                      && of_ev s') ss) bs.
Proof.
  induction ss as [|s ss IH]; intros Hnd.
  - unfold inner_join, select_count. simpl.
    induction bs as [|b l IHl]; simpl; [reflexivity|].
    now rewrite andb_false_r.
  - inversion Hnd as [|? ? Hnotin Hnd']; subst.
    rewrite joined_pairs_cons, bookings_of_event_cons, IH by assumption.
    reflexivity.
Qed.
End JoinedCount.

(** The count the subquery attaches is the count the design document
    words, as long as slot ids are unique. *)
Lemma joined_count_spec db now e :
  slots_pk db ->
  joined_count db (now - timedelta_days 30) (Event.id e)
  = recent_confirmed_count db now e.
Proof.
  intros Hpk. unfold joined_count, recent_confirmed_count, recent_confirmed.
  rewrite count_occ_map_filter.
  pose proof (joined_pairs_are_bookings (bookings db) (Event.id e)
                (now - timedelta_days 30) (slots db) Hpk) as H.
  unfold select_count in *. rewrite H. reflexivity.
Qed.

(** *** The order of the rows *)

Lemma filter_none {A} (p : A -> bool) (l : list A) :
  (forall x, In x l -> p x = false) -> List.filter p l = [].
Proof.
  induction l as [|x l IH]; simpl; intros H; [reflexivity|].
  rewrite (H x) by now left. apply IH. intros y Hy. apply H. now right.
Qed.

Lemma rows_leb_pop_le r1 r2 :
  rows_leb popularity_keys r1 r2 = true <-> pop_le r1 r2.
Proof.
  unfold rows_leb, popularity_keys, pop_le. simpl.
  destruct (snd r1) as [a|], (snd r2) as [b|]; simpl.
  - destruct (Z.compare_spec b a);
      destruct (Z.compare_spec (Event.created_at (fst r2))
                               (Event.created_at (fst r1)));
      split; intros; try reflexivity; try discriminate; lia.
  - tauto.
  - split; [discriminate | tauto].
  - destruct (Z.compare_spec (Event.created_at (fst r2))
                             (Event.created_at (fst r1)));
      split; intros; try reflexivity; try discriminate; lia.
Qed.

Lemma rows_leb_pop_total r1 r2 :
  rows_leb popularity_keys r1 r2 = false -> rows_leb popularity_keys r2 r1 = true.
Proof.
  intros H. apply rows_leb_pop_le.
  assert (~ pop_le r1 r2) as Hn
    by (intros Hle; apply rows_leb_pop_le in Hle; congruence).
  unfold pop_le in *.
  destruct (snd r1), (snd r2); try tauto; lia.
Qed.

Lemma rows_leb_pop_trans r1 r2 r3 :
  rows_leb popularity_keys r1 r2 = true -> rows_leb popularity_keys r2 r3 = true ->
  rows_leb popularity_keys r1 r3 = true.
Proof.
  rewrite !rows_leb_pop_le. unfold pop_le.
  destruct (snd r1), (snd r2), (snd r3); try tauto; lia.
Qed.

Lemma recent_confirmed_count_nonneg db now e : 0 <= recent_confirmed_count db now e.
Proof. apply select_count_nonneg. Qed.

(** On the rows of the outer join, the row order is the popularity order. *)
Lemma pop_le_popularity_order db now e1 e2 :
  slots_pk db ->
  pop_le (e1, pop_count_of db (now - timedelta_days 30) e1)
         (e2, pop_count_of db (now - timedelta_days 30) e2) ->
  popularity_order db now e1 e2.
Proof.
  intros Hpk. unfold pop_le, pop_count_of, popularity_order. simpl.
  rewrite !joined_count_spec by assumption.
  pose proof (recent_confirmed_count_nonneg db now e1).
  pose proof (recent_confirmed_count_nonneg db now e2).
  destruct (recent_confirmed_count db now e1 =? 0) eqn:E1;
    destruct (recent_confirmed_count db now e2 =? 0) eqn:E2; lia.
Qed.

Lemma apply_sort_popularity stmt now :
  _apply_sort stmt "popularity" now
  = mkSelect (where_ stmt) (Some (now - timedelta_days 30))
             ((order_by stmt ++ [pop_count_desc_nullslast]) ++ [created_at_desc]).
Proof. reflexivity. Qed.

(** [build_event_query] hands [_apply_sort] a statement that carries only
    [WHERE] conjuncts. *)
Lemma build_event_query_sorts_last lower like ilike dialect filters now :
  exists stmt,
    order_by stmt = [] /\ popularity_join stmt = None
    /\ fst (build_event_query lower like ilike dialect filters now)
       = _apply_sort stmt (sort filters) now.
Proof.
  unfold build_event_query. eexists. split; [|split; [|reflexivity]].
  - destruct (truthy (search filters)), (truthy (category filters)),
      (price_min filters), (price_max filters),
      (String.eqb dialect "postgresql"); reflexivity.
  - destruct (truthy (search filters)), (truthy (category filters)),
      (price_min filters), (price_max filters),
      (String.eqb dialect "postgresql"); reflexivity.
Qed.

(** C8: with [sort = popularity] the query returns every event that matches
    the filters exactly once (the join is an outer one), ordered by the
    number of CONFIRMED bookings of its slots booked within the 30 days
    before the evaluation instant, descending, ties by creation time
    descending; so an event with more such bookings ranks above one with
    fewer, and an event whose bookings are all older counts zero. *)
Theorem popularity_sort_order (db : DB) (stmt : Select) (now : datetime) :
  slots_pk db -> order_by stmt = [] ->
  let result := exec_select db (_apply_sort stmt "popularity" now) in
  Permutation result (List.filter (matches stmt) (events db))
  /\ StronglySorted (popularity_order db now) result
  /\ (forall e1 e2,
        In e1 (events db) -> matches stmt e1 = true ->
        In e2 (events db) -> matches stmt e2 = true ->
        recent_confirmed_count db now e1 > recent_confirmed_count db now e2 ->
        ranks_above result e1 e2)
  /\ (forall e,
        (forall b, In b (bookings db) -> is_confirmed b = true ->
                   slot_of_event db (Event.id e) b = true ->
                   Booking.booked_at b < now - timedelta_days 30) ->
        recent_confirmed_count db now e = 0).
Proof.
  intros Hpk Hord result.
  set (cutoff := now - timedelta_days 30).
  set (base := List.filter (matches stmt) (events db)).
  set (g := pop_count_of db cutoff).
  assert (exec_rows db (_apply_sort stmt "popularity" now)
          = sort_by (rows_leb popularity_keys)
                    (List.map (fun e => (e, g e)) base)) as Hrows.
  { unfold exec_rows. rewrite apply_sort_popularity, Hord.
    rewrite (joined_rows_popularity db _ cutoff) by reflexivity. reflexivity. }
  assert (Permutation result base) as Hperm.
  { unfold result, exec_select. rewrite Hrows.
    transitivity (List.map fst (List.map (fun e => (e, g e)) base)).
    - apply Permutation_map, sort_by_perm.
    - rewrite List.map_map. simpl. now rewrite List.map_id. }
  assert (StronglySorted (popularity_order db now) result) as Hsorted.
  { unfold result, exec_select. rewrite Hrows.
    pose proof (sort_by_sorted (rows_leb popularity_keys)
                  rows_leb_pop_total rows_leb_pop_trans
                  (List.map (fun e => (e, g e)) base)) as Hs.
    apply (StronglySorted_map_fst _ g) in Hs.
    - eapply (Sorted.StronglySorted_ind
                (fun l => StronglySorted (popularity_order db now) l));
        [constructor | | exact Hs].
      intros a l _ IH Hall. constructor; [exact IH|].
      eapply List.Forall_impl; [|exact Hall]. intros b Hb.
      apply pop_le_popularity_order; [assumption|].
      now apply rows_leb_pop_le.
    - intros r Hr.
      apply (Permutation_in _ (sort_by_perm _ _)) in Hr.
      apply List.in_map_iff in Hr as (e & <- & _). reflexivity. }
  split; [exact Hperm|]. split; [exact Hsorted|]. split.
  - intros e1 e2 H1 M1 H2 M2 Hgt.
    apply (StronglySorted_ranks_above (popularity_order db now)); auto.
    + apply (Permutation_in _ (Permutation_sym Hperm)).
      apply List.filter_In. auto.
    + apply (Permutation_in _ (Permutation_sym Hperm)).
      apply List.filter_In. auto.
    + unfold popularity_order. lia.
    + intros ->. lia.
  - intros e Hold. unfold recent_confirmed_count, select_count.
    rewrite filter_none; [reflexivity|].
    intros b Hb.
    destruct (is_confirmed b) eqn:Hc; [|reflexivity].
    destruct (slot_of_event db (Event.id e) b) eqn:Hs;
      [|now rewrite andb_false_r].
    specialize (Hold b Hb Hc Hs). simpl. rewrite andb_true_r. lia.
Qed.

Lemma popularity_sort_order_witness :
  ranks_above
    (exec_select Sample.db_pop (_apply_sort select_Event "popularity" Sample.today))
    Sample.ev_a Sample.ev_b
  /\ ranks_above
       (exec_select Sample.db_pop (_apply_sort select_Event "popularity" Sample.today))
       Sample.ev_a Sample.ev_c
  /\ List.map Event.id
       (exec_select Sample.db_pop (_apply_sort select_Event "popularity" Sample.today))
     = ["ev-a"; "ev-b"; "ev-c"].
Proof.
  assert (slots_pk Sample.db_pop) as Hpk.
  { unfold slots_pk. vm_compute. repeat constructor; simpl; intuition discriminate. }
  destruct (popularity_sort_order Sample.db_pop select_Event Sample.today
              Hpk eq_refl) as (_ & _ & Hrank & _).
  split; [|split].
  - apply Hrank; vm_compute; auto.
  - apply Hrank; vm_compute; auto.
  - vm_compute. reflexivity.
Defined.

(** ** Properties of the currency conversion *)

(** [round_half_even] picks an integer at distance at most one half. *)
Lemma round_half_even_nearest (m e : Z) :
  0 <= m -> e < 0 ->
  2 * Z.abs (round_half_even m e * 2 ^ (- e) - m) <= 2 ^ (- e).
Proof.
  intros Hm He. unfold round_half_even.
  destruct (0 <=? e) eqn:E; [lia|].
  assert (0 < 2 ^ (- e)) as Hd by (apply Z.pow_pos_nonneg; lia).
  set (d := 2 ^ (- e)) in *.
  pose proof (Z.div_mod m d ltac:(lia)) as Hdm.
  pose proof (Z.mod_pos_bound m d Hd) as Hr.
  set (q := m / d) in *. set (r := m mod d) in *.
  destruct (2 * r <? d) eqn:C1; [lia|].
  destruct (d <? 2 * r) eqn:C2; [lia|].
  destruct (Z.even q); lia.
Qed.

(** [round] returns, for every finite float, an integer nearest to its
    exact value. *)
Lemma py_round_nearest (x : float) (num den : Z) :
  float_fraction x = Some (num, den) ->
  exists n, py_round x = Ok n /\ 0 < den /\ 2 * Z.abs (n * den - num) <= den.
Proof.
  unfold float_fraction, py_round.
  destruct (Prim2SF x) as [s| s | | s m e]; try discriminate.
  - intros [= <- <-]. exists 0. repeat split; lia.
  - destruct (0 <=? e) eqn:E; intros [= <- <-].
    + exists (if s then - round_half_even (Z.pos m) e
              else round_half_even (Z.pos m) e).
      split; [reflexivity|]. split; [lia|].
      unfold round_half_even. rewrite E. destruct s; lia.
    + exists (if s then - round_half_even (Z.pos m) e
              else round_half_even (Z.pos m) e).
      split; [reflexivity|].
      assert (0 < 2 ^ (- e)) as Hd by (apply Z.pow_pos_nonneg; lia).
      split; [exact Hd|].
      pose proof (round_half_even_nearest (Z.pos m) e ltac:(lia) ltac:(lia)) as H.
      destruct s; lia.
Qed.

(** C9 (as amended): [convert_minor] returns the amount unchanged when the
    two currencies are equal, whatever the table.  For distinct currencies it
    raises the missing-rate [ValueError] when either is absent from the
    table; when both are present, the source rate is not zero and the float
    product [amount * (rates[to] / rates[from])] is finite, it returns an
    integer nearest to that product; on the docstring's table, 4500 USD
    are 4050 EUR. *)
Theorem convert_minor_cases (amount_minor : Z) (from_currency to_currency : string)
    (rates : gmap string float) :
  (from_currency = to_currency ->
     convert_minor amount_minor from_currency to_currency rates = Ok amount_minor)
  /\ (from_currency <> to_currency -> rates !! to_currency = None ->
      convert_minor amount_minor from_currency to_currency rates
      = Raise (MissingRate to_currency))
  /\ (from_currency <> to_currency -> rates !! from_currency = None ->
      exists c, (c = from_currency \/ c = to_currency) /\ rates !! c = None
        /\ convert_minor amount_minor from_currency to_currency rates
           = Raise (MissingRate c))
  /\ (from_currency <> to_currency ->
      forall rate_from rate_to amount num den,
        rates !! from_currency = Some rate_from ->
        rates !! to_currency = Some rate_to ->
        float_is_zero rate_from = false ->
        float_of_int amount_minor = Ok amount ->
        float_fraction (PrimFloat.mul amount (PrimFloat.div rate_to rate_from))
        = Some (num, den) ->
        exists n,
          convert_minor amount_minor from_currency to_currency rates = Ok n
          /\ 0 < den /\ 2 * Z.abs (n * den - num) <= den)
  /\ convert_minor 4500 "USD" "EUR" Sample.rates_example = Ok 4050.
Proof.
  split; [|split; [|split; [|split]]].
  - intros ->. unfold convert_minor. now rewrite String.eqb_refl.
  - intros Hne Hto. unfold convert_minor.
    apply String.eqb_neq in Hne. now rewrite Hne, Hto.
  - intros Hne Hfrom. unfold convert_minor.
    apply String.eqb_neq in Hne. rewrite Hne, Hfrom.
    destruct (rates !! to_currency) eqn:Hto.
    + exists from_currency. auto.
    + exists to_currency. auto.
  - intros Hne rate_from rate_to amount num den Hfrom Hto Hz Hamt Hfrac.
    unfold convert_minor. apply String.eqb_neq in Hne.
    rewrite Hne, Hto, Hfrom, Hz, Hamt.
    now apply py_round_nearest.
  - vm_compute. reflexivity.
Qed.

Lemma convert_minor_cases_witness :
  exists n, convert_minor 1999 "EUR" "USD" Sample.rates_example = Ok n
            /\ 2 * Z.abs (n * 2199023255552 - 4884274986498276) <= 2199023255552.
Proof.
  destruct (convert_minor_cases 1999 "EUR" "USD" Sample.rates_example)
    as (_ & _ & _ & H & _).
  assert ("EUR" <> "USD") as Hne by discriminate.
  destruct (H Hne 0x1.ccccccccccccdp-1%float 1%float 1999%float
              4884274986498276 2199023255552)
    as (n & Hn & _ & Hnear).
  - vm_compute. reflexivity.
  - vm_compute. reflexivity.
  - vm_compute. reflexivity.
  - vm_compute. reflexivity.
  - vm_compute. reflexivity.
  - exists n. split; [exact Hn | exact Hnear].
Defined.

(** C9, where the claim as written fails: both currencies are in the table
    and differ, yet nothing is returned, because the source rate is zero. *)
Lemma convert_minor_zero_rate_raises :
  Sample.rates_zero !! "USD" = Some 0%float
  /\ Sample.rates_zero !! "EUR" = Some 0x1.ccccccccccccdp-1%float
  /\ convert_minor 100 "USD" "EUR" Sample.rates_zero = Raise ZeroDivisionError.
Proof. vm_compute. repeat split; reflexivity. Qed.

(** ** Properties of [crud.events.list_events] *)

Section Imports.
Import PyNames.











End Imports.




(** ** Further properties of the booking layer *)

Lemma make_booking_inv slot name email new_id now db b :
  fst (make_booking slot name email new_id now db) = Ok b ->
  b = Booking.mk new_id (Slot.id slot) name email CONFIRMED now
  /\ booking_id_taken db new_id = false
  /\ pair_taken db (Slot.id slot) email = false
  /\ booking_count db (Slot.id slot) < Slot.max_bookings slot
  /\ snd (make_booking slot name email new_id now db)
     = emit (emit (set_bookings db (bookings db ++ [b]))
                  (SendBookingEmail new_id))
            (RedisPublish ("event:" ++ Slot.event_id slot) (Slot.id slot)
               (Slot_remaining (set_bookings db (bookings db ++ [b])) slot)
               (Slot_is_full (set_bookings db (bookings db ++ [b])) slot)).
Proof.
  unfold make_booking, bind, get_db, booking_id_taken, pair_taken.
  destruct (booking_exists db (Slot.id slot) email); [discriminate|].
  destruct (booking_count db (Slot.id slot) >=? Slot.max_bookings slot) eqn:Hfull;
    [discriminate|].
  unfold crud_create_booking, bind, insert_booking. simpl.
  destruct (existsb _ (bookings db)); [discriminate|].
  destruct (existsb _ (bookings db)); [discriminate|].
  simpl. intros [= <-]. repeat split. lia.
Qed.

Lemma make_booking_raise slot name email new_id now db e :
  fst (make_booking slot name email new_id now db) = Raise e ->
  snd (make_booking slot name email new_id now db) = db.
Proof.
  unfold make_booking, bind, get_db.
  destruct (booking_exists db (Slot.id slot) email); [reflexivity|].
  destruct (booking_count db (Slot.id slot) >=? Slot.max_bookings slot);
    [reflexivity|].
  unfold crud_create_booking, bind, insert_booking. simpl.
  destruct (existsb _ (bookings db)); [reflexivity|].
  destruct (existsb _ (bookings db)); [reflexivity|].
  discriminate.
Qed.

Lemma find_snoc_fresh {A} (p : A -> bool) (l : list A) (x : A) :
  existsb p l = false -> p x = true -> List.find p (l ++ [x]) = Some x.
Proof.
  induction l as [|y l IH]; simpl; intros Hl Hx; [now rewrite Hx|].
  apply orb_false_elim in Hl as [Hy Hl]. rewrite Hy. now apply IH.
Qed.

(** X1: a booking that [make_booking] returns can be read back by its id and
    makes [booking_exists] true; booking the same slot again under the same
    e-mail is then refused with [DuplicateBooking], whatever name and id are
    used, and leaves the store as it is. *)
Theorem make_booking_then_lookup (db : DB) (slot : Slot.t)
    (name email new_id : string) (now : datetime) (b : Booking.t) :
  fst (make_booking slot name email new_id now db) = Ok b ->
  let db' := snd (make_booking slot name email new_id now db) in
  get_booking db' (Booking.id b) = Some b
  /\ booking_exists db' (Slot.id slot) email = true
  /\ forall name2 id2 now2,
       make_booking slot name2 email id2 now2 db' = (Raise DuplicateBooking, db').
Proof.
  intros Hok db'.
  destruct (make_booking_inv _ _ _ _ _ _ _ Hok) as (Hb & Hid & _ & _ & Hdb).
  assert (bookings db' = bookings db ++ [b]) as Hbs
    by (unfold db'; now rewrite Hdb).
  assert (booking_exists db' (Slot.id slot) email = true) as Hex.
  { unfold booking_exists. rewrite Hbs, select_count_snoc.
    subst b. unfold same_slot, same_email, is_confirmed. simpl.
    rewrite !String.eqb_refl. simpl.
    pose proof (select_count_nonneg
                  (fun b => (Booking.slot_id b =? Slot.id slot)%string
                            && (Booking.email b =? email)%string
                            && BookingStatus_eqb (Booking.status b) CONFIRMED)
                  (bookings db)).
    lia. }
  split; [|split].
  - unfold get_booking. rewrite Hbs. apply find_snoc_fresh.
    + subst b. exact Hid.
    + apply String.eqb_refl.
  - exact Hex.
  - intros name2 id2 now2. unfold make_booking, bind, get_db. now rewrite Hex.
Qed.

Lemma make_booking_then_lookup_witness :
  make_booking Sample.slot1 "Al" "alice@example.com" "b-8" 800 Sample.db1
  = (Raise DuplicateBooking, Sample.db1).
Proof.
  destruct (make_booking_then_lookup Sample.db0 Sample.slot1 "Alice"
              "alice@example.com" "b-1" 100 Sample.alice eq_refl) as (_ & _ & H).
  apply H.
Defined.

(** X2: a refused [make_booking] queues no e-mail and publishes nothing; an
    accepted one adds to the outbox exactly the confirmation e-mail task for
    the new booking followed by one slot update on the event's channel, whose
    figures are read after the insert. *)
Theorem make_booking_side_effects (db : DB) (slot : Slot.t)
    (name email new_id : string) (now : datetime) :
  (forall e, fst (make_booking slot name email new_id now db) = Raise e ->
     outbox (snd (make_booking slot name email new_id now db)) = outbox db)
  /\ (forall b, fst (make_booking slot name email new_id now db) = Ok b ->
        let db' := snd (make_booking slot name email new_id now db) in
        outbox db'
        = outbox db ++
          [SendBookingEmail (Booking.id b);
           RedisPublish ("event:" ++ Slot.event_id slot) (Slot.id slot)
                        (Slot_remaining db' slot) (Slot_is_full db' slot)]).
Proof.
  split.
  - intros e He. now rewrite (make_booking_raise _ _ _ _ _ _ _ He).
  - intros b Hok db'.
    destruct (make_booking_inv _ _ _ _ _ _ _ Hok) as (Hb & _ & _ & _ & Hdb).
    unfold db'. rewrite Hdb. subst b. simpl.
    rewrite <- List.app_assoc. reflexivity.
Qed.

Lemma make_booking_side_effects_witness :
  outbox Sample.db1
  = [SendBookingEmail "b-1"; RedisPublish "event:event-1" "slot-1" 0 true]
  /\ outbox Sample.db2 = outbox Sample.db1.
Proof.
  split.
  - apply (proj2 (make_booking_side_effects Sample.db0 Sample.slot1 "Alice"
                    "alice@example.com" "b-1" 100) Sample.alice eq_refl).
  - apply (proj1 (make_booking_side_effects Sample.db1 Sample.slot1 "Bob"
                    "bob@example.com" "b-2" 200) SlotFull eq_refl).
Defined.

(** *** The life of a booking row *)

Lemma booking_evolves_refl b : booking_evolves b b.
Proof. unfold booking_evolves. tauto. Qed.

Lemma booking_evolves_trans a b c :
  booking_evolves a b -> booking_evolves b c -> booking_evolves a c.
Proof.
  unfold booking_evolves.
  intros (A1 & A2 & A3 & A4 & A5 & A6) (B1 & B2 & B3 & B4 & B5 & B6).
  repeat split; try congruence. auto.
Qed.

Lemma booking_evolves_mark_cancelled id b : booking_evolves b (mark_cancelled id b).
Proof.
  unfold booking_evolves, mark_cancelled.
  destruct (String.eqb (Booking.id b) id); simpl; tauto.
Qed.

Lemma Forall2_evolves_refl l : Forall2 booking_evolves l l.
Proof. induction l; constructor; auto using booking_evolves_refl. Qed.

Lemma Forall2_evolves_map id l :
  Forall2 booking_evolves l (List.map (mark_cancelled id) l).
Proof. induction l; simpl; constructor; auto using booking_evolves_mark_cancelled. Qed.

Lemma Forall2_evolves_trans l1 l2 l3 :
  Forall2 booking_evolves l1 l2 -> Forall2 booking_evolves l2 l3 ->
  Forall2 booking_evolves l1 l3.
Proof.
  intros H12. revert l3. induction H12 as [|a b l1 l2 Hab _ IH]; intros l3 H23.
  - inversion H23. constructor.
  - inversion H23 as [|? c ? l3' Hbc H23']; subst. constructor.
    + eapply booking_evolves_trans; eauto.
    + now apply IH.
Qed.

Lemma evolved_from_refl l : evolved_from l l.
Proof.
  exists l, []. split; [now rewrite List.app_nil_r | apply Forall2_evolves_refl].
Qed.

Lemma evolved_from_trans l1 l2 l3 :
  evolved_from l1 l2 -> evolved_from l2 l3 -> evolved_from l1 l3.
Proof.
  intros (k2 & a2 & -> & H12) (k3 & a3 & -> & H23).
  apply List.Forall2_app_inv_l in H23 as (k31 & k32 & Hk & Ha & ->).
  exists k31, (k32 ++ a3). split; [now rewrite List.app_assoc|].
  eapply Forall2_evolves_trans; eauto.
Qed.

Lemma booking_step_evolved db db' :
  booking_step db db' -> evolved_from (bookings db) (bookings db').
Proof.
  intros H; destruct H.
  - destruct (make_booking_bookings slot name email new_id now db)
      as [-> | (_ & _ & ->)]; [apply evolved_from_refl|].
    eexists _, _. split; [reflexivity | apply Forall2_evolves_refl].
  - destruct (cancel_booking_bookings booking db) as [-> | ->];
      [apply evolved_from_refl|].
    eexists _, []. split; [now rewrite List.app_nil_r | apply Forall2_evolves_map].
  - destruct (crud_cancel_booking_bookings booking db) as [-> | ->];
      [apply evolved_from_refl|].
    eexists _, []. split; [now rewrite List.app_nil_r | apply Forall2_evolves_map].
Qed.

Lemma map_id_mark_cancelled id bs :
  List.map Booking.id (List.map (mark_cancelled id) bs) = List.map Booking.id bs.
Proof.
  rewrite List.map_map. apply List.map_ext. intros b. apply mark_cancelled_id.
Qed.

Lemma id_taken_false_not_in id bs :
  existsb (fun r => String.eqb (Booking.id r) id) bs = false ->
  ~ In id (List.map Booking.id bs).
Proof.
  induction bs as [|b bs IH]; simpl; [tauto|].
  intros H. apply orb_false_elim in H as [Hb Hbs].
  intros [E|Hin]; [|now apply IH].
  rewrite E, String.eqb_refl in Hb. discriminate.
Qed.

Lemma booking_step_pk db db' :
  bookings_pk db -> booking_step db db' -> bookings_pk db'.
Proof.
  unfold bookings_pk. intros Hpk Hstep. destruct Hstep.
  - destruct (fst (make_booking slot name email new_id now db)) as [b|e] eqn:Hres.
    + destruct (make_booking_inv _ _ _ _ _ _ _ Hres) as (Hb & Hid & _ & _ & ->).
      simpl. rewrite List.map_app. apply NoDup_snoc; [exact Hpk|].
      subst b. simpl. now apply id_taken_false_not_in.
    + now rewrite (make_booking_raise _ _ _ _ _ _ _ Hres).
  - destruct (cancel_booking_bookings booking db) as [-> | ->]; [exact Hpk|].
    now rewrite map_id_mark_cancelled.
  - destruct (crud_cancel_booking_bookings booking db) as [-> | ->]; [exact Hpk|].
    now rewrite map_id_mark_cancelled.
Qed.

(** X3: over any sequence of booking calls no booking row is ever removed or
    moved, a row's id, slot, name, e-mail and booking time never change,
    a CANCELLED row stays CANCELLED, new rows are only added after the old
    ones, and primary keys stay unique. *)
Theorem booking_rows_only_evolve (db0 db : DB) :
  bookings_pk db0 -> booking_steps db0 db ->
  bookings_pk db
  /\ evolved_from (bookings db0) (bookings db)
  /\ (forall b, In b (bookings db0) ->
        exists b', get_booking db (Booking.id b) = Some b' /\ booking_evolves b b').
Proof.
  intros Hpk Hsteps.
  assert (bookings_pk db /\ evolved_from (bookings db0) (bookings db)) as [Hpk' Hev].
  { induction Hsteps as [db|db1 db2 db3 H1 _ IH].
    - split; [assumption | apply evolved_from_refl].
    - destruct IH as [IH1 IH2]; [eapply booking_step_pk; eauto|].
      split; [assumption|].
      eapply evolved_from_trans; [|exact IH2]. now apply booking_step_evolved. }
  split; [exact Hpk'|]. split; [exact Hev|].
  intros b Hin. destruct Hev as (kept & added & Hnew & Hall).
  assert (exists b', In b' kept /\ booking_evolves b b') as (b' & Hin' & Hevb).
  { clear -Hin Hall. induction Hall as [|x y l l' Hxy _ IH]; [destruct Hin|].
    destruct Hin as [->|Hin].
    - exists y. split; [now left | assumption].
    - destruct (IH Hin) as (b' & ? & ?). exists b'. split; [now right | assumption]. }
  exists b'. split; [|exact Hevb].
  assert (In b' (bookings db)) as Hdb by (rewrite Hnew; apply List.in_or_app; now left).
  unfold get_booking.
  destruct (List.find (fun r => String.eqb (Booking.id r) (Booking.id b))
                      (bookings db)) as [r|] eqn:Hf.
  - apply List.find_some in Hf as [Hr Hid]. apply String.eqb_eq in Hid.
    f_equal. unfold bookings_pk in Hpk'.
    assert (Booking.id r = Booking.id b') as E
      by (destruct Hevb as (E & _); congruence).
    clear -Hpk' Hr Hdb E.
    induction (bookings db) as [|x l IH]; [destruct Hr|].
    simpl in Hpk'. inversion Hpk' as [|? ? Hnotin Hnd]; subst.
    destruct Hr as [->|Hr], Hdb as [->|Hdb]; auto.
    + exfalso. apply Hnotin. rewrite E. now apply List.in_map.
    + exfalso. apply Hnotin. rewrite <- E. now apply List.in_map.
  - exfalso. apply (List.find_none _ _ Hf) in Hdb.
    destruct Hevb as (E & _). rewrite E, String.eqb_refl in Hdb. discriminate.
Qed.

Lemma booking_rows_only_evolve_witness :
  exists b', get_booking Sample.db4 "b-1" = Some b'
             /\ booking_evolves Sample.alice b'.
Proof.
  assert (bookings_pk Sample.db1) as Hpk.
  { unfold bookings_pk. vm_compute. repeat constructor. simpl. tauto. }
  assert (booking_steps Sample.db1 Sample.db4) as Hsteps.
  { eapply steps_cons;
      [apply (step_make_booking Sample.db1 Sample.slot1 "Bob" "bob@example.com"
                                "b-2" 200); vm_compute; auto|].
    eapply steps_cons; [apply (step_cancel_booking Sample.db2 Sample.alice)|].
    eapply steps_cons;
      [apply (step_make_booking Sample.db3 Sample.slot1 "Bob" "bob@example.com"
                                "b-3" 300); vm_compute; auto|].
    apply steps_nil. }
  destruct (booking_rows_only_evolve Sample.db1 Sample.db4 Hpk Hsteps)
    as (_ & _ & H).
  apply (H Sample.alice). vm_compute. left. reflexivity.
Defined.

(** ** Properties of the booking routes *)

Lemma get_slot_some db slot_id slot :
  get_slot db slot_id = Some slot -> In slot (slots db) /\ Slot.id slot = slot_id.
Proof.
  unfold get_slot. intros H. apply List.find_some in H as [Hin Hid].
  split; [assumption | now apply String.eqb_eq].
Qed.

(** X4: the booking route answers 422, without touching the store, to a
    body whose name is empty or longer than 80 characters or whose e-mail
    the validator rejects; to a valid body it answers 400, again without
    touching the store, when the slot id is unknown or belongs to another
    event than the one in the path; a booking it creates is for a stored
    slot of the path's event and carries the body's name, of 1 to 80
    characters, and the normalised e-mail. *)
Theorem api_create_booking_guards (EmailStr : string -> option string) (db : DB)
    (event_id slot_id name email new_id : string) (now : datetime) :
  (valid_name name = false \/ EmailStr email = None ->
     api_create_booking EmailStr event_id slot_id name email new_id now db
     = (Raise (HTTPException 422 "request validation failed"), db))
  /\ (forall payload_email,
        valid_name name = true -> EmailStr email = Some payload_email ->
        (get_slot db slot_id = None ->
           api_create_booking EmailStr event_id slot_id name email new_id now db
           = (Raise (HTTPException 400 "Invalid slot for event"), db))
        /\ (forall slot, get_slot db slot_id = Some slot ->
              Slot.event_id slot <> event_id ->
              api_create_booking EmailStr event_id slot_id name email new_id now db
              = (Raise (HTTPException 400 "Invalid slot for event"), db))
        /\ (forall slot, get_slot db slot_id = Some slot ->
              Slot.event_id slot = event_id ->
              api_create_booking EmailStr event_id slot_id name email new_id now db
              = make_booking slot name payload_email new_id now db))
  /\ (forall b,
        fst (api_create_booking EmailStr event_id slot_id name email new_id now db)
        = Ok b ->
        Booking.slot_id b = slot_id
        /\ Booking.status b = CONFIRMED
        /\ Booking.name b = name
        /\ 1 <= Z.of_nat (String.length name) <= 80
        /\ EmailStr email = Some (Booking.email b)
        /\ exists slot, In slot (slots db) /\ Slot.id slot = slot_id
                        /\ Slot.event_id slot = event_id).
Proof.
  unfold api_create_booking. split; [|split].
  - intros [Hn | He].
    + now rewrite Hn.
    + destruct (valid_name name); [|reflexivity]. now rewrite He.
  - intros payload_email Hn He. rewrite Hn, He. unfold bind, get_db. simpl.
    split; [|split].
    + now intros ->.
    + intros slot -> Hne. apply String.eqb_neq in Hne. now rewrite Hne.
    + intros slot -> Heq. apply String.eqb_eq in Heq. now rewrite Heq.
  - intros b. destruct (valid_name name) eqn:Hn; [|discriminate].
    destruct (EmailStr email) as [payload_email|] eqn:He; [|discriminate].
    unfold bind, get_db. simpl.
    destruct (get_slot db slot_id) as [slot|] eqn:Hs; [|discriminate].
    destruct (String.eqb (Slot.event_id slot) event_id) eqn:Hev; [|discriminate].
    simpl. intros Hok.
    destruct (make_booking_inv _ _ _ _ _ _ _ Hok) as (-> & _).
    destruct (get_slot_some _ _ _ Hs) as [Hin Hid].
    apply String.eqb_eq in Hev. unfold valid_name in Hn. simpl.
    repeat split; auto; try lia.
    exists slot. auto.
Qed.

Lemma api_create_booking_guards_witness :
  api_create_booking Sample.simple_email "event-1" "slot-1" "Alice" "alice.example.com"
    "b-1" 100 Sample.db0
  = (Raise (HTTPException 422 "request validation failed"), Sample.db0)
  /\ api_create_booking Sample.simple_email "event-2" "slot-1" "Alice"
       "alice@example.com" "b-1" 100 Sample.db0
     = (Raise (HTTPException 400 "Invalid slot for event"), Sample.db0).
Proof.
  split.
  - apply (proj1 (api_create_booking_guards Sample.simple_email Sample.db0
                    "event-1" "slot-1" "Alice" "alice.example.com" "b-1" 100)).
    right. reflexivity.
  - destruct (api_create_booking_guards Sample.simple_email Sample.db0
                "event-2" "slot-1" "Alice" "alice@example.com" "b-1" 100)
      as (_ & H & _).
    destruct (H "alice@example.com" eq_refl eq_refl) as (_ & H2 & _).
    apply (H2 Sample.slot1); [reflexivity | discriminate].
Defined.

Lemma find_unique_id b bs :
  List.NoDup (List.map Booking.id bs) -> In b bs ->
  List.find (fun r => String.eqb (Booking.id r) (Booking.id b)) bs = Some b.
Proof.
  induction bs as [|r bs IH]; simpl; intros Hnd Hin; [tauto|].
  inversion Hnd as [|? ? Hnotin Hnd']; subst.
  destruct Hin as [->|Hin]; [now rewrite String.eqb_refl|].
  destruct (String.eqb (Booking.id r) (Booking.id b)) eqn:E; [|now apply IH].
  apply String.eqb_eq in E. exfalso. apply Hnotin. rewrite E.
  now apply List.in_map.
Qed.

(** X5: the cancel route answers 422 to a status that is no member of
    [BookingStatus], 400 to the status CONFIRMED and 404 to an unknown
    booking id, each time leaving the store alone; it cancels a stored
    CONFIRMED booking, and the same request sent a second time is refused
    with [AlreadyCancelled] and changes nothing. *)
Theorem cancel_booking_endpoint_cases (db : DB) (booking_id : string) :
  (forall status, status <> "CONFIRMED" -> status <> "CANCELLED" ->
     cancel_booking_endpoint booking_id status db
     = (Raise (HTTPException 422 "request validation failed"), db))
  /\ cancel_booking_endpoint booking_id "CONFIRMED" db
     = (Raise (HTTPException 400 "Only cancellation supported"), db)
  /\ (get_booking db booking_id = None ->
      cancel_booking_endpoint booking_id "CANCELLED" db
      = (Raise (HTTPException 404 "Booking not found"), db))
  /\ (forall booking slot,
        bookings_pk db -> In booking (bookings db) ->
        Booking.id booking = booking_id ->
        Booking.status booking = CONFIRMED ->
        Booking_slot db booking = Some slot ->
        let db' := snd (cancel_booking_endpoint booking_id "CANCELLED" db) in
        fst (cancel_booking_endpoint booking_id "CANCELLED" db)
        = Ok (Booking.with_status booking CANCELLED)
        /\ cancel_booking_endpoint booking_id "CANCELLED" db'
           = (Raise AlreadyCancelled, db')).
Proof.
  split; [|split; [|split]].
  - intros status H1 H2. unfold cancel_booking_endpoint, parse_BookingStatus.
    apply String.eqb_neq in H1, H2. now rewrite H1, H2.
  - reflexivity.
  - intros Hnone. unfold cancel_booking_endpoint, bind, get_db. simpl.
    now rewrite Hnone.
  - intros booking slot Hpk Hin Hid Hst Hslot db'.
    assert (get_booking db booking_id = Some booking) as Hget
      by (subst booking_id; now apply find_unique_id).
    assert (cancel_booking_endpoint booking_id "CANCELLED" db
            = cancel_booking booking db) as Heq
      by (unfold cancel_booking_endpoint, bind, get_db; simpl; now rewrite Hget).
    destruct (cancel_confirmed db booking slot Hst Hslot) as (Hres & Hbs & _).
    unfold db'. rewrite Heq. split; [exact Hres|].
    unfold cancel_booking_endpoint, bind, get_db. simpl.
    unfold get_booking. rewrite Hbs. subst booking_id.
    rewrite find_mark_cancelled by assumption. reflexivity.
Qed.

Lemma cancel_booking_endpoint_cases_witness :
  cancel_booking_endpoint "b-1" "cancelled" Sample.db1
  = (Raise (HTTPException 422 "request validation failed"), Sample.db1)
  /\ cancel_booking_endpoint "b-1" "CANCELLED"
       (snd (cancel_booking_endpoint "b-1" "CANCELLED" Sample.db1))
     = (Raise AlreadyCancelled,
        snd (cancel_booking_endpoint "b-1" "CANCELLED" Sample.db1)).
Proof.
  destruct (cancel_booking_endpoint_cases Sample.db1 "b-1") as (H422 & _ & _ & H).
  split; [apply H422; discriminate|].
  assert (bookings_pk Sample.db1) as Hpk.
  { unfold bookings_pk. vm_compute. repeat constructor. simpl. tauto. }
  assert (In Sample.alice (bookings Sample.db1)) as Hin
    by (vm_compute; left; reflexivity).
  apply (H Sample.alice Sample.slot1 Hpk Hin eq_refl eq_refl eq_refl).
Defined.

Lemma serve_is_step EmailStr r db :
  serve EmailStr r db = db \/ booking_step db (serve EmailStr r db).
Proof.
  destruct r as [event_id slot_id name email new_id now | booking_id status];
    simpl.
  - unfold api_create_booking.
    destruct (valid_name name); [|now left].
    destruct (EmailStr email) as [payload_email|]; [|now left].
    unfold bind, get_db. simpl.
    destruct (get_slot db slot_id) as [slot|] eqn:Hs; [|now left].
    destruct (String.eqb (Slot.event_id slot) event_id); [|now left].
    simpl. right. constructor. now apply (get_slot_some _ _ _ Hs).
  - unfold cancel_booking_endpoint.
    destruct (parse_BookingStatus status) as [[|]|]; [now left| |now left].
    unfold bind, get_db. simpl. destruct (get_booking db booking_id); [|now left].
    right. constructor.
Qed.

(** X6: whatever requests the two booking routes serve, in whatever order,
    no slot ends up with more CONFIRMED bookings than its capacity, the slot
    table is untouched, and no two booking rows share slot and e-mail. *)
Theorem routes_keep_capacity (EmailStr : string -> option string)
    (rs : list BookingRequest) (db : DB) :
  slots_pk db -> capacity_ok db -> uix_slot_email db ->
  capacity_ok (serve_all EmailStr rs db)
  /\ slots (serve_all EmailStr rs db) = slots db
  /\ uix_slot_email (serve_all EmailStr rs db).
Proof.
  revert db. induction rs as [|r rs IH]; intros db Hpk Hcap Hu; [simpl; auto|].
  simpl. destruct (serve_is_step EmailStr r db) as [-> | Hstep]; [now apply IH|].
  pose proof (booking_step_slots _ _ Hstep) as Hslots.
  destruct (IH (serve EmailStr r db)) as (H1 & H2 & H3).
  - unfold slots_pk. now rewrite Hslots.
  - eapply booking_step_capacity; eauto.
  - eapply booking_step_uix; eauto.
  - repeat split; auto. congruence.
Qed.

Lemma routes_keep_capacity_witness :
  booking_count
    (serve_all Sample.simple_email
       [POST_booking "event-1" "slot-1" "Alice" "alice@example.com" "b-1" 100;
        POST_booking "event-1" "slot-1" "Bob" "bob@example.com" "b-2" 200;
        PATCH_booking "b-1" "CANCELLED";
        POST_booking "event-1" "slot-1" "Bob" "bob@example.com" "b-3" 300;
        POST_booking "event-1" "slot-1" "Carol" "carol@example.com" "b-4" 400]
       Sample.db0) "slot-1" <= 1.
Proof.
  assert (slots_pk Sample.db0) as Hpk by (repeat constructor; simpl; tauto).
  assert (capacity_ok Sample.db0) as Hcap
    by (intros s [<-|[]]; vm_compute; discriminate).
  assert (uix_slot_email Sample.db0) as Hu by (vm_compute; constructor).
  match goal with
  | |- booking_count (serve_all _ ?rs _) _ <= _ =>
      destruct (routes_keep_capacity Sample.simple_email rs Sample.db0 Hpk Hcap Hu)
        as (H & _ & _)
  end.
  apply (H Sample.slot1). vm_compute. auto.
Defined.

(** ** Properties of the paginated listings *)

Section Paging.
Context {A : Type} (key : A -> Z).

Lemma order_by_desc_perm (l : list A) : Permutation (order_by_desc key l) l.
Proof. apply sort_by_perm. Qed.

Lemma order_by_desc_sorted (l : list A) :
  StronglySorted (fun a b => key b <= key a) (order_by_desc key l).
Proof.
  pose proof (sort_by_sorted (fun a b => key b <=? key a)) as H.
  assert (StronglySorted (fun a b => (key b <=? key a) = true)
                         (order_by_desc key l)) as Hs.
  { apply H; intros; lia. }
  clear H. induction Hs as [|x t _ IH Hall]; constructor; [exact IH|].
  eapply List.Forall_impl; [|exact Hall]. simpl. intros; lia.
Qed.

Lemma In_firstn_list (n : nat) (l : list A) (x : A) :
  In x (List.firstn n l) -> In x l.
Proof.
  intros H. rewrite <- (List.firstn_skipn n l). apply List.in_or_app. now left.
Qed.

Lemma In_skipn_list (n : nat) (l : list A) (x : A) :
  In x (List.skipn n l) -> In x l.
Proof.
  intros H. rewrite <- (List.firstn_skipn n l). apply List.in_or_app. now right.
Qed.

Lemma StronglySorted_skipn (R : A -> A -> Prop) (n : nat) (l : list A) :
  StronglySorted R l -> StronglySorted R (List.skipn n l).
Proof.
  revert l. induction n as [|n IH]; intros l Hs; [exact Hs|].
  destruct l as [|x l]; [constructor|].
  simpl. apply IH. now inversion Hs.
Qed.

Lemma StronglySorted_firstn (R : A -> A -> Prop) (n : nat) (l : list A) :
  StronglySorted R l -> StronglySorted R (List.firstn n l).
Proof.
  revert l. induction n as [|n IH]; intros l Hs; [constructor|].
  destruct l as [|x l]; [constructor|].
  inversion Hs as [|? ? Hs' Hall]; subst. simpl. constructor; [now apply IH|].
  rewrite List.Forall_forall in *. intros y Hy. apply Hall.
  eapply In_firstn_list; eauto.
Qed.

Lemma In_offset_limit (o n : Z) (l : list A) (x : A) :
  In x (offset_limit o n l) -> In x l.
Proof.
  unfold offset_limit. intros H. apply In_firstn_list in H.
  eapply In_skipn_list; eauto.
Qed.

Lemma length_offset_limit (o n : Z) (l : list A) :
  0 <= n -> Z.of_nat (length (offset_limit o n l)) <= n.
Proof.
  intros Hn. unfold offset_limit. rewrite List.length_firstn. lia.
Qed.

Lemma offset_limit_past_end (o n : Z) (l : list A) :
  Z.of_nat (length l) <= o -> offset_limit o n l = [].
Proof.
  intros Ho. unfold offset_limit. rewrite List.skipn_all2 by lia.
  apply List.firstn_nil.
Qed.

Lemma firstn_plus (a b : nat) (l : list A) :
  List.firstn (a + b) l = List.firstn a l ++ List.firstn b (List.skipn a l).
Proof.
  revert l. induction a as [|a IH]; intros l; [reflexivity|].
  destruct l as [|x l]; simpl; [now rewrite List.firstn_nil|].
  now rewrite IH.
Qed.

(** Pages of [size] rows tile the statement's rows in order. *)
Lemma pages_tile (size : nat) (l : list A) (n : nat) :
  pages_upto (fun p => offset_limit ((p - 1) * Z.of_nat size) (Z.of_nat size) l) n
  = List.firstn (n * size) l.
Proof.
  unfold pages_upto. induction n as [|n IH]; [reflexivity|].
  rewrite List.seq_S, List.flat_map_app, IH. simpl. rewrite List.app_nil_r.
  unfold offset_limit.
  replace ((Z.of_nat (S n) - 1) * Z.of_nat size) with (Z.of_nat (n * size)) by lia.
  rewrite !Nat2Z.id.
  replace (size + n * size)%nat with (n * size + size)%nat by lia.
  now rewrite firstn_plus.
Qed.
End Paging.

(** X7: [list_user_bookings] (and the service's [user_bookings]) reports as
    total the number of the user's bookings, whatever page is asked for;
    the page holds at most [size] rows, all of them bookings of that e-mail,
    newest first; and a page that starts at or past the total is empty. *)
Theorem list_user_bookings_page (db : DB) (email : string) (page size : Z) :
  1 <= page -> 0 <= size ->
  let result := user_bookings db email page size in
  snd result = select_count (same_email email) (bookings db)
  /\ Z.of_nat (length (fst result)) <= size
  /\ (forall b, In b (fst result) ->
        In b (bookings db) /\ Booking.email b = email)
  /\ StronglySorted (fun a b => Booking.booked_at b <= Booking.booked_at a)
                    (fst result)
  /\ (snd result <= (page - 1) * size -> fst result = []).
Proof.
  intros Hpage Hsize result. unfold result, user_bookings, list_user_bookings.
  cbn [fst snd]. split; [|split; [|split; [|split]]].
  - unfold user_bookings_stmt, select_count.
    now rewrite (Permutation_length (order_by_desc_perm _ _)).
  - now apply length_offset_limit.
  - intros b Hb. apply In_offset_limit in Hb.
    apply (Permutation_in _ (order_by_desc_perm _ _)) in Hb.
    apply List.filter_In in Hb as [Hin He]. split; [assumption|].
    now apply String.eqb_eq.
  - unfold offset_limit. apply StronglySorted_firstn, StronglySorted_skipn.
    apply order_by_desc_sorted.
  - intros Hpast. now apply offset_limit_past_end.
Qed.

Lemma list_user_bookings_page_witness :
  fst (user_bookings Sample.db4 "bob@example.com" 2 10) = []
  /\ snd (user_bookings Sample.db4 "bob@example.com" 2 10) = 1.
Proof.
  destruct (list_user_bookings_page Sample.db4 "bob@example.com" 2 10
              ltac:(lia) ltac:(lia)) as (Ht & _ & _ & _ & Hpast).
  split.
  - apply Hpast. vm_compute. discriminate.
  - rewrite Ht. vm_compute. reflexivity.
Defined.

(** With pairwise different keys, [ORDER BY key DESC] leaves the engine no
    choice. *)
Lemma ordered_by_desc_unique {A} (key : A -> Z) (l1 l2 : list A) :
  Permutation l1 l2 ->
  StronglySorted (fun a b => key b <= key a) l1 ->
  StronglySorted (fun a b => key b <= key a) l2 ->
  List.NoDup (List.map key l1) ->
  l1 = l2.
Proof.
  revert l2. induction l1 as [|x l1 IH]; intros l2 Hp Hs1 Hs2 Hnd.
  - now apply Permutation_nil in Hp.
  - destruct l2 as [|y l2].
    { apply Permutation_sym, Permutation_nil in Hp. discriminate. }
    inversion Hs1 as [|? ? Hs1' Hall1]; subst.
    inversion Hs2 as [|? ? Hs2' Hall2]; subst.
    inversion Hnd as [|? ? Hnotin Hnd']; subst.
    assert (x = y) as ->.
    { assert (In y (x :: l1)) as Hy
        by (apply (Permutation_in _ (Permutation_sym Hp)); now left).
      assert (In x (y :: l2)) as Hx by (apply (Permutation_in _ Hp); now left).
      destruct Hy as [Hy|Hy]; [assumption|].
      destruct Hx as [Hx|Hx]; [now symmetry|].
      rewrite List.Forall_forall in Hall1, Hall2.
      pose proof (Hall1 y Hy) as H1. pose proof (Hall2 x Hx) as H2.
      exfalso. apply Hnotin. replace (key x) with (key y) by lia.
      now apply List.in_map. }
    f_equal. apply IH; auto. eapply Permutation_cons_inv; eauto.
Qed.

Lemma order_by_desc_admissible {A} (key : A -> Z) (l : list A) :
  ordered_by_desc key l (order_by_desc key l).
Proof.
  split; [apply Permutation_sym, order_by_desc_perm | apply order_by_desc_sorted].
Qed.

(** [list_user_bookings] returns a page that a run of its query may
    return. *)
Lemma list_user_bookings_admissible db email page size :
  user_bookings_page db email page size
    (fst (list_user_bookings db email page size)).
Proof.
  exists (user_bookings_stmt db email). split; [|reflexivity].
  apply order_by_desc_admissible.
Qed.

Lemma flat_map_ext_in_list {A B} (f g : A -> list B) (l : list A) :
  (forall a, In a l -> f a = g a) -> List.flat_map f l = List.flat_map g l.
Proof.
  induction l as [|a l IH]; intros H; [reflexivity|].
  simpl. rewrite (H a) by now left. f_equal. apply IH. intros; apply H. now right.
Qed.

Lemma NoDup_map_perm {A B} (f : A -> B) (l1 l2 : list A) :
  Permutation l1 l2 -> List.NoDup (List.map f l1) -> List.NoDup (List.map f l2).
Proof.
  intros Hp. apply Permutation_NoDup. now apply Permutation_map.
Qed.

Lemma NoDup_firstn_list {A} (n : nat) (l : list A) :
  List.NoDup l -> List.NoDup (List.firstn n l).
Proof.
  intros H. rewrite <- (List.firstn_skipn n l) in H.
  now apply List.NoDup_app_remove_r in H.
Qed.

(** X8: when the user's bookings were made at pairwise different times, the
    pages read one after the other with a fixed positive [size], each by a
    run of its own of the query, are consecutive stretches of the one
    newest-first list: no booking is skipped or repeated, and once the pages
    cover the total they contain exactly the user's bookings. *)
Theorem list_user_bookings_pages_tile (db : DB) (email : string) (size n : nat)
    (page_of : Z -> list Booking.t) :
  (0 < size)%nat ->
  List.NoDup (List.map Booking.booked_at
                       (List.filter (same_email email) (bookings db))) ->
  (forall p, 1 <= p -> user_bookings_page db email p (Z.of_nat size) (page_of p)) ->
  let pages := pages_upto page_of n in
  pages = List.firstn (n * size) (user_bookings_stmt db email)
  /\ List.NoDup (List.map Booking.booked_at pages)
  /\ (snd (list_user_bookings db email 1 (Z.of_nat size)) <= Z.of_nat (n * size) ->
      Permutation pages (List.filter (same_email email) (bookings db))).
Proof.
  intros Hsize Hnd Hrun pages.
  assert (pages = List.firstn (n * size) (user_bookings_stmt db email)) as Hp.
  { unfold pages. rewrite <- (pages_tile size (user_bookings_stmt db email) n).
    unfold pages_upto. apply flat_map_ext_in_list. intros p Hin.
    apply List.in_seq in Hin.
    destruct (Hrun (Z.of_nat p) ltac:(lia)) as (stmt & [Hperm Hsorted] & ->).
    f_equal. symmetry. apply (ordered_by_desc_unique Booking.booked_at).
    - eapply Permutation_trans; [apply order_by_desc_perm | exact Hperm].
    - apply order_by_desc_sorted.
    - exact Hsorted.
    - apply (NoDup_map_perm _ (List.filter (same_email email) (bookings db)));
        [apply Permutation_sym, order_by_desc_perm | exact Hnd]. }
  split; [exact Hp|]. split.
  - rewrite Hp, <- List.firstn_map. apply NoDup_firstn_list.
    apply (NoDup_map_perm _ (List.filter (same_email email) (bookings db)));
      [apply Permutation_sym, order_by_desc_perm | exact Hnd].
  - unfold list_user_bookings. cbn [snd]. intros Hcover.
    rewrite Hp, List.firstn_all2 by lia. apply order_by_desc_perm.
Qed.

Lemma list_user_bookings_pages_tile_witness :
  pages_upto SamplePages.page_of 2
  = [SamplePages.dana "d-2" "s-2" 30; SamplePages.dana "d-3" "s-3" 20;
     SamplePages.dana "d-1" "s-1" 10].
Proof.
  destruct (list_user_bookings_pages_tile SamplePages.db "dana@example.com" 2 2
              SamplePages.page_of) as (H & _ & _).
  - lia.
  - vm_compute. repeat constructor; simpl; intuition discriminate.
  - intros p _. apply list_user_bookings_admissible.
  - rewrite H. vm_compute. reflexivity.
Defined.

(** Without that, two runs may disagree on rows made at the same instant:
    page 1 of one run and page 2 of another can both hold the same booking,
    and the other booking is never listed. *)
Lemma pages_may_repeat_on_ties :
  user_bookings_page SamplePages.db_twins "tess@example.com" 1 1
                     [SamplePages.twin_a]
  /\ user_bookings_page SamplePages.db_twins "tess@example.com" 2 1
                        [SamplePages.twin_a].
Proof.
  split.
  - exists [SamplePages.twin_a; SamplePages.twin_b]. split; [|reflexivity].
    split; [apply Permutation_refl|].
    repeat constructor; simpl; lia.
  - exists [SamplePages.twin_b; SamplePages.twin_a]. split; [|reflexivity].
    split; [apply perm_swap|].
    repeat constructor; simpl; lia.
Qed.

(** ** Further properties of the review layer *)

Lemma add_review_inv booking rating comment new_id now db r :
  fst (add_review booking rating comment new_id now db) = Ok r ->
  exists slot,
    Booking_slot db booking = Some slot
    /\ Booking.status booking = CONFIRMED
    /\ review_exists db (Booking.id booking) = false
    /\ review_id_taken db new_id = false
    /\ r = Review.mk new_id (Slot.event_id slot) (Booking.id booking)
                     rating comment now
    /\ snd (add_review booking rating comment new_id now db)
       = snd (recompute_event_rating (Slot.event_id slot)
                (set_reviews db (reviews db ++ [r]))).
Proof.
  unfold add_review, bind, get_db.
  destruct (Booking.status booking) eqn:Hst; simpl; [|discriminate].
  destruct (review_exists db (Booking.id booking)) eqn:Hex; [discriminate|].
  destruct (Booking_slot db booking) as [slot|] eqn:Hslot; [|discriminate].
  intros Hok. exists slot.
  destruct (crud_create_review_inv _ _ _ _ _ _ _ _ Hok) as [-> Hdb].
  unfold crud_create_review, bind, get_db in Hok. rewrite Hex in Hok.
  unfold insert_review in Hok. simpl in Hok.
  destruct (existsb _ (reviews db)) eqn:Hid; [discriminate|].
  repeat split; auto.
Qed.

Lemma add_review_raise booking rating comment new_id now db e :
  fst (add_review booking rating comment new_id now db) = Raise e ->
  snd (add_review booking rating comment new_id now db) = db.
Proof.
  unfold add_review, bind, get_db.
  destruct (Booking.status booking); simpl; [|reflexivity].
  destruct (review_exists db (Booking.id booking)) eqn:Hex; [reflexivity|].
  destruct (Booking_slot db booking) as [slot|]; [|reflexivity].
  unfold crud_create_review, bind, get_db. rewrite Hex.
  unfold insert_review. simpl.
  destruct (existsb _ (reviews db)); [reflexivity | discriminate].
Qed.

Lemma edit_review_state review rating comment db :
  edit_review review rating comment db
  = (Raise (HTTPException 400 "No changes supplied."), db)
  \/ snd (edit_review review rating comment db)
     = snd (crud_update_review review (mkReviewData rating comment) db).
Proof. unfold edit_review. destruct rating, comment; auto. Qed.

Lemma rating_consistent_ext d d' event_id :
  events d' = events d ->
  current_ratings d' event_id = current_ratings d event_id ->
  rating_consistent d event_id -> rating_consistent d' event_id.
Proof.
  intros He Hr H e Hin Hid. rewrite He in Hin. rewrite Hr. now apply H.
Qed.

Lemma recompute_other event_id other d :
  other <> event_id -> rating_consistent d other ->
  rating_consistent (snd (recompute_event_rating event_id d)) other.
Proof.
  intros Hne H e Hin Hid. rewrite recompute_events in Hin.
  unfold current_ratings. rewrite recompute_reviews. fold (current_ratings d other).
  apply List.in_map_iff in Hin as (e0 & He & Hin0).
  destruct (String.eqb (Event.id e0) event_id) eqn:E.
  - apply String.eqb_eq in E. subst e. simpl in Hid. congruence.
  - subst e0. now apply H.
Qed.

(** Recomputing one event after a change that left every other event's
    reviews alone restores consistency everywhere. *)
Lemma recompute_restores event_id db rows :
  ratings_consistent db ->
  (forall other, other <> event_id ->
     List.map Review.rating (List.filter (of_event other) rows)
     = current_ratings db other) ->
  ratings_consistent (snd (recompute_event_rating event_id (set_reviews db rows))).
Proof.
  intros Hall Hrows other.
  destruct (string_dec other event_id) as [->|Hne]; [apply recompute_consistent|].
  apply recompute_other; [assumption|].
  apply (rating_consistent_ext db); [reflexivity | | apply Hall].
  unfold current_ratings at 1. simpl. now apply Hrows.
Qed.

Lemma review_row_unique db review x :
  reviews_pk db -> In review (reviews db) -> In x (reviews db) ->
  Review.id x = Review.id review -> x = review.
Proof.
  unfold reviews_pk. induction (reviews db) as [|r l IH]; simpl; [tauto|].
  intros Hnd H1 H2 Heq. inversion Hnd as [|? ? Hnotin Hnd']; subst.
  destruct H1 as [->|H1], H2 as [->|H2]; auto.
  - exfalso. apply Hnotin. rewrite <- Heq. now apply List.in_map.
  - exfalso. apply Hnotin. rewrite Heq. now apply List.in_map.
Qed.

Lemma ratings_after_update review data other rows :
  (forall x, In x rows -> Review.id x = Review.id review ->
             Review.event_id x = Review.event_id review) ->
  other <> Review.event_id review ->
  List.map Review.rating
    (List.filter (of_event other)
       (List.map (fun r => if String.eqb (Review.id r) (Review.id review)
                           then setattrs data r else r) rows))
  = List.map Review.rating (List.filter (of_event other) rows).
Proof.
  intros Hrows Hne. induction rows as [|x rows IH]; [reflexivity|].
  assert (IH' := IH (fun y Hy => Hrows y (or_intror Hy))). clear IH.
  cbn [List.map List.filter].
  destruct (String.eqb (Review.id x) (Review.id review)) eqn:E.
  - apply String.eqb_eq in E.
    assert (Review.event_id x = Review.event_id review) as Hev
      by (apply Hrows; auto; now left).
    assert (of_event other x = false) as Hx
      by (unfold of_event; apply String.eqb_neq; congruence).
    assert (of_event other (setattrs data x) = false) as Hx'
      by (unfold of_event; simpl; apply String.eqb_neq; congruence).
    rewrite Hx, Hx'. exact IH'.
  - destruct (of_event other x); cbn [List.map]; now rewrite IH'.
Qed.

Lemma ratings_after_delete review other rows :
  (forall x, In x rows -> Review.id x = Review.id review ->
             Review.event_id x = Review.event_id review) ->
  other <> Review.event_id review ->
  List.filter (of_event other)
    (List.filter (fun r => negb (String.eqb (Review.id r) (Review.id review))) rows)
  = List.filter (of_event other) rows.
Proof.
  intros Hrows Hne. induction rows as [|x rows IH]; [reflexivity|].
  assert (IH' := IH (fun y Hy => Hrows y (or_intror Hy))). clear IH.
  cbn [List.filter].
  destruct (String.eqb (Review.id x) (Review.id review)) eqn:E; cbn [negb List.filter].
  - apply String.eqb_eq in E.
    assert (Review.event_id x = Review.event_id review) as Hev
      by (apply Hrows; auto; now left).
    assert (of_event other x = false) as Hx
      by (unfold of_event; apply String.eqb_neq; congruence).
    rewrite Hx. exact IH'.
  - destruct (of_event other x); now rewrite IH'.
Qed.

Lemma NoDup_map_filter {A B} (f : A -> B) (p : A -> bool) (l : list A) :
  List.NoDup (List.map f l) -> List.NoDup (List.map f (List.filter p l)).
Proof.
  induction l as [|x l IH]; simpl; intros Hnd; [constructor|].
  inversion Hnd as [|? ? Hnotin Hnd']; subst.
  destruct (p x); simpl; [|now apply IH].
  constructor; [|now apply IH].
  intros Hin. apply Hnotin. apply List.in_map_iff in Hin as (y & Hy & Hin).
  apply List.filter_In in Hin as [Hin _]. rewrite <- Hy. now apply List.in_map.
Qed.

Lemma review_id_not_in id rows :
  existsb (fun x => String.eqb (Review.id x) id) rows = false ->
  ~ In id (List.map Review.id rows).
Proof.
  induction rows as [|r rows IH]; simpl; [tauto|].
  intros H. apply orb_false_elim in H as [Hr Hrows].
  intros [E|Hin]; [|now apply IH].
  rewrite E, String.eqb_refl in Hr. discriminate.
Qed.

Lemma review_exists_false_not_in db booking_id :
  review_exists db booking_id = false ->
  ~ In booking_id (List.map Review.booking_id (reviews db)).
Proof.
  unfold review_exists, select_count.
  induction (reviews db) as [|r rows IH]; simpl; [tauto|].
  destruct (String.eqb (Review.booking_id r) booking_id) eqn:E; simpl.
  - intros H. exfalso. first [discriminate | lia].
  - intros H [Heq|Hin]; [|now apply IH].
    rewrite Heq, String.eqb_refl in E. discriminate.
Qed.

Lemma map_id_update review data rows :
  List.map Review.id
    (List.map (fun r => if String.eqb (Review.id r) (Review.id review)
                        then setattrs data r else r) rows)
  = List.map Review.id rows.
Proof.
  rewrite List.map_map. apply List.map_ext. intros r.
  destruct (String.eqb _ _); reflexivity.
Qed.

Lemma map_booking_id_update review data rows :
  List.map Review.booking_id
    (List.map (fun r => if String.eqb (Review.id r) (Review.id review)
                        then setattrs data r else r) rows)
  = List.map Review.booking_id rows.
Proof.
  rewrite List.map_map. apply List.map_ext. intros r.
  destruct (String.eqb _ _); reflexivity.
Qed.

Lemma review_step_pk db db' : reviews_pk db -> review_step db db' -> reviews_pk db'.
Proof.
  unfold reviews_pk. intros Hpk Hstep. destruct Hstep.
  - destruct (fst (add_review booking rating comment new_id now db)) as [r|e] eqn:Hres.
    + destruct (add_review_inv _ _ _ _ _ _ _ Hres)
        as (slot & _ & _ & _ & Hid & Hr & ->).
      rewrite recompute_reviews. simpl. rewrite List.map_app.
      apply NoDup_snoc; [exact Hpk|]. subst r. simpl.
      now apply review_id_not_in.
    + now rewrite (add_review_raise _ _ _ _ _ _ _ Hres).
  - destruct (edit_review_state review rating comment db) as [-> | ->];
      [exact Hpk|].
    rewrite crud_update_review_state, recompute_reviews. simpl.
    now rewrite map_id_update.
  - unfold remove_review. rewrite crud_delete_review_state, recompute_reviews.
    simpl. now apply NoDup_map_filter.
Qed.

Lemma review_step_one_per_booking db db' :
  one_review_per_booking db -> review_step db db' -> one_review_per_booking db'.
Proof.
  unfold one_review_per_booking. intros H1 Hstep. destruct Hstep.
  - destruct (fst (add_review booking rating comment new_id now db)) as [r|e] eqn:Hres.
    + destruct (add_review_inv _ _ _ _ _ _ _ Hres)
        as (slot & _ & _ & Hex & _ & Hr & ->).
      rewrite recompute_reviews. simpl. rewrite List.map_app.
      apply NoDup_snoc; [exact H1|]. subst r. simpl.
      now apply review_exists_false_not_in.
    + now rewrite (add_review_raise _ _ _ _ _ _ _ Hres).
  - destruct (edit_review_state review rating comment db) as [-> | ->];
      [exact H1|].
    rewrite crud_update_review_state, recompute_reviews. simpl.
    now rewrite map_booking_id_update.
  - unfold remove_review. rewrite crud_delete_review_state, recompute_reviews.
    simpl. now apply NoDup_map_filter.
Qed.

Lemma review_step_consistent db db' :
  reviews_pk db -> ratings_consistent db -> review_step db db' ->
  ratings_consistent db'.
Proof.
  intros Hpk Hall Hstep. destruct Hstep.
  - destruct (fst (add_review booking rating comment new_id now db)) as [r|e] eqn:Hres.
    + destruct (add_review_inv _ _ _ _ _ _ _ Hres)
        as (slot & _ & _ & _ & _ & Hr & ->).
      apply recompute_restores; [assumption|].
      intros other Hne. rewrite List.filter_app. simpl.
      assert (of_event other r = false) as Hx
        by (subst r; unfold of_event; simpl; apply String.eqb_neq; congruence).
      rewrite Hx, List.app_nil_r. reflexivity.
    + now rewrite (add_review_raise _ _ _ _ _ _ _ Hres).
  - destruct (edit_review_state review rating comment db) as [-> | ->];
      [exact Hall|].
    rewrite crud_update_review_state.
    apply recompute_restores; [assumption|].
    intros other Hne. apply ratings_after_update; [|assumption].
    intros x Hx Hid. now rewrite (review_row_unique db review x).
  - unfold remove_review. rewrite crud_delete_review_state.
    apply recompute_restores; [assumption|].
    intros other Hne. unfold current_ratings. f_equal.
    apply ratings_after_delete; [|assumption].
    intros x Hx Hid. now rewrite (review_row_unique db review x).
Qed.

(** X9: no sequence of [add_review], [edit_review] and [remove_review] calls
    gives a booking a second review, nor two reviews the same id. *)
Theorem one_review_per_booking_kept (db0 db : DB) :
  one_review_per_booking db0 -> reviews_pk db0 -> review_steps db0 db ->
  one_review_per_booking db /\ reviews_pk db.
Proof.
  intros H1 Hpk Hsteps. induction Hsteps as [db|db1 db2 db3 Hs _ IH]; [auto|].
  apply IH.
  - eapply review_step_one_per_booking; eauto.
  - eapply review_step_pk; eauto.
Qed.

(** X10: if every event's [rating_avg] and [rating_count] agree with its
    reviews ([rating_avg] a binary64 value nearest to the mean of the
    ratings, [rating_count] their number), they still do after any sequence
    of [add_review], [edit_review] and [remove_review] calls on stored
    reviews: the recomputation after each change never leaves another
    event's aggregate stale. *)
Theorem ratings_stay_consistent (db0 db : DB) :
  reviews_pk db0 -> ratings_consistent db0 -> review_steps db0 db ->
  ratings_consistent db.
Proof.
  intros Hpk Hall Hsteps. induction Hsteps as [db|db1 db2 db3 Hs _ IH]; [auto|].
  apply IH.
  - eapply review_step_pk; eauto.
  - eapply review_step_consistent; eauto.
Qed.

Lemma sample_review_steps :
  review_steps Sample.db1 SampleReviews.db_r1
  /\ review_steps Sample.db1 SampleReviews.db_r2
  /\ review_steps Sample.db1 SampleReviews.db_r3.
Proof.
  assert (review_step Sample.db1 SampleReviews.db_r1) as S1
    by apply step_add_review.
  assert (review_step SampleReviews.db_r1 SampleReviews.db_r2) as S2
    by (apply step_edit_review; vm_compute; auto).
  assert (review_step SampleReviews.db_r2 SampleReviews.db_r3) as S3
    by (apply step_remove_review; vm_compute; auto).
  repeat split.
  - eapply review_steps_cons; [exact S1 | apply review_steps_nil].
  - eapply review_steps_cons; [exact S1|].
    eapply review_steps_cons; [exact S2 | apply review_steps_nil].
  - eapply review_steps_cons; [exact S1|].
    eapply review_steps_cons; [exact S2|].
    eapply review_steps_cons; [exact S3 | apply review_steps_nil].
Defined.

Lemma one_review_per_booking_kept_witness :
  one_review_per_booking SampleReviews.db_r2 /\ reviews_pk SampleReviews.db_r2.
Proof.
  apply (one_review_per_booking_kept Sample.db1 SampleReviews.db_r2).
  - vm_compute. constructor.
  - vm_compute. constructor.
  - apply sample_review_steps.
Defined.

Lemma ratings_stay_consistent_witness :
  rating_consistent SampleReviews.db_r2 "event-1"
  /\ List.map (fun e => (Event.rating_avg e, Event.rating_count e))
              (events SampleReviews.db_r2) = [(Some (Qmake 3 1), 1)]
  /\ List.map (fun e => (Event.rating_avg e, Event.rating_count e))
              (events SampleReviews.db_r3) = [(None, 0)].
Proof.
  split; [|split; vm_compute; reflexivity].
  apply (ratings_stay_consistent Sample.db1 SampleReviews.db_r2).
  - vm_compute. constructor.
  - intros event_id e [<-|[]] _. vm_compute. split; reflexivity.
  - apply sample_review_steps.
Defined.

Lemma find_review_snoc_fresh (rows : list Review.t) (r : Review.t) :
  existsb (fun x => String.eqb (Review.id x) (Review.id r)) rows = false ->
  List.find (fun x => String.eqb (Review.id x) (Review.id r)) (rows ++ [r]) = Some r.
Proof. intros H. apply find_snoc_fresh; [exact H | apply String.eqb_refl]. Qed.

(** X11: a review that [add_review] returns can be read back by its id, and
    a second [add_review] for the same booking is refused with
    [ReviewAlreadyExists], whatever rating, comment and id it carries,
    leaving the store as it is. *)
Theorem add_review_then_lookup (db : DB) (booking : Booking.t) (rating : Z)
    (comment : option string) (new_id : string) (now : datetime) (r : Review.t) :
  fst (add_review booking rating comment new_id now db) = Ok r ->
  let db' := snd (add_review booking rating comment new_id now db) in
  get_review db' (Review.id r) = Some r
  /\ Review.booking_id r = Booking.id booking
  /\ forall rating2 comment2 id2 now2,
       add_review booking rating2 comment2 id2 now2 db'
       = (Raise ReviewAlreadyExists, db').
Proof.
  intros Hok db'.
  destruct (add_review_inv _ _ _ _ _ _ _ Hok)
    as (slot & Hslot & Hst & Hex & Hid & Hr & Hdb).
  assert (reviews db' = reviews db ++ [r]) as Hrows
    by (unfold db'; rewrite Hdb; apply recompute_reviews).
  split; [|split].
  - unfold get_review. rewrite Hrows. apply find_review_snoc_fresh.
    subst r. exact Hid.
  - now subst r.
  - intros rating2 comment2 id2 now2.
    unfold add_review, bind, get_db. rewrite Hst. simpl.
    assert (review_exists db' (Booking.id booking) = true) as Hex'.
    { unfold review_exists. rewrite Hrows, select_count_snoc.
      subst r. simpl. rewrite String.eqb_refl.
      pose proof (select_count_nonneg
                    (fun r => (Review.booking_id r =? Booking.id booking)%string)
                    (reviews db)).
      lia. }
    now rewrite Hex'.
Qed.

Lemma add_review_then_lookup_witness :
  add_review Sample.alice 1 None "r-2" 950 SampleReviews.db_r1
  = (Raise ReviewAlreadyExists, SampleReviews.db_r1).
Proof.
  destruct (add_review_then_lookup Sample.db1 Sample.alice 5 (Some "Great")
              "r-1" 900 SampleReviews.review1 eq_refl) as (_ & _ & H).
  apply H.
Defined.

Lemma booking_id_unique db review x :
  one_review_per_booking db -> In review (reviews db) -> In x (reviews db) ->
  Review.booking_id x = Review.booking_id review -> x = review.
Proof.
  unfold one_review_per_booking. induction (reviews db) as [|r l IH]; simpl; [tauto|].
  intros Hnd H1 H2 Heq. inversion Hnd as [|? ? Hnotin Hnd']; subst.
  destruct H1 as [->|H1], H2 as [->|H2]; auto.
  - exfalso. apply Hnotin. rewrite <- Heq. now apply List.in_map.
  - exfalso. apply Hnotin. rewrite Heq. now apply List.in_map.
Qed.

Lemma add_review_ok booking rating comment new_id now db slot :
  Booking.status booking = CONFIRMED ->
  review_exists db (Booking.id booking) = false ->
  Booking_slot db booking = Some slot ->
  review_id_taken db new_id = false ->
  fst (add_review booking rating comment new_id now db)
  = Ok (Review.mk new_id (Slot.event_id slot) (Booking.id booking)
                  rating comment now).
Proof.
  intros Hst Hex Hslot Hid. unfold add_review, bind, get_db.
  rewrite Hst. simpl. rewrite Hex, Hslot.
  now rewrite crud_create_review_ok.
Qed.

Lemma remove_review_rows review db :
  reviews (snd (remove_review review db))
  = List.filter (fun r => negb (String.eqb (Review.id r) (Review.id review)))
                (reviews db).
Proof. reflexivity. Qed.

(** X12: removing a stored review frees its booking: [review_exists] is
    false afterwards, bookings and slots are untouched, and a CONFIRMED
    booking can then be reviewed anew. *)
Theorem remove_review_frees_booking (db : DB) (review : Review.t) :
  one_review_per_booking db -> In review (reviews db) ->
  let db' := snd (remove_review review db) in
  review_exists db' (Review.booking_id review) = false
  /\ bookings db' = bookings db /\ slots db' = slots db
  /\ (forall booking slot rating comment new_id now,
        Booking.id booking = Review.booking_id review ->
        Booking.status booking = CONFIRMED ->
        Booking_slot db booking = Some slot ->
        review_id_taken db new_id = false ->
        fst (add_review booking rating comment new_id now db')
        = Ok (Review.mk new_id (Slot.event_id slot) (Booking.id booking)
                        rating comment now)).
Proof.
  intros H1 Hin db'.
  assert (review_exists db' (Review.booking_id review) = false) as Hex.
  { unfold review_exists, select_count, db'. rewrite remove_review_rows.
    rewrite filter_none; [reflexivity|].
    intros x Hx. apply List.filter_In in Hx as [Hx Hid].
    destruct (String.eqb (Review.booking_id x) (Review.booking_id review)) eqn:E;
      [|reflexivity].
    apply String.eqb_eq in E.
    rewrite (booking_id_unique db review x H1 Hin Hx E), String.eqb_refl in Hid.
    discriminate. }
  split; [exact Hex|]. split; [reflexivity|]. split; [reflexivity|].
  intros booking slot rating comment new_id now Hb Hst Hslot Hid.
  apply add_review_ok; [exact Hst | now rewrite Hb | exact Hslot |].
  unfold review_id_taken, db' in *. rewrite remove_review_rows.
  destruct (existsb _ (List.filter _ (reviews db))) eqn:E; [|reflexivity].
  apply List.existsb_exists in E as (x & Hx & Hxid).
  apply List.filter_In in Hx as [Hx _].
  assert (existsb (fun r => String.eqb (Review.id r) new_id) (reviews db) = true)
    by (apply List.existsb_exists; eauto).
  congruence.
Qed.

Lemma remove_review_frees_booking_witness :
  review_exists SampleReviews.db_r3 "b-1" = false
  /\ fst (add_review Sample.alice 4 None "r-2" 990 SampleReviews.db_r3)
     = Ok (Review.mk "r-2" "event-1" "b-1" 4 None 990).
Proof.
  assert (one_review_per_booking SampleReviews.db_r2) as H1
    by (vm_compute; repeat constructor; simpl; tauto).
  assert (In SampleReviews.review1_edited (reviews SampleReviews.db_r2)) as Hin
    by (vm_compute; auto).
  destruct (remove_review_frees_booking SampleReviews.db_r2
              SampleReviews.review1_edited H1 Hin) as (Hex & _ & _ & Hadd).
  split; [exact Hex|].
  apply (Hadd Sample.alice Sample.slot1 4 None "r-2" 990); reflexivity.
Defined.

(** X13: [edit_review] with neither a rating nor a comment is refused with
    400 and changes nothing; any other edit succeeds and never adds,
    removes or re-links a review: ids, bookings, events and creation times of
    all rows stay as they were, and only rows with the edited review's id
    can change. *)
Theorem edit_review_cases (db : DB) (review : Review.t) (rating : option Z)
    (comment : option string) :
  (rating = None -> comment = None ->
     edit_review review rating comment db
     = (Raise (HTTPException 400 "No changes supplied."), db))
  /\ (rating <> None \/ comment <> None ->
      let db' := snd (edit_review review rating comment db) in
      fst (edit_review review rating comment db)
      = Ok (setattrs (mkReviewData rating comment) review)
      /\ List.map Review.id (reviews db') = List.map Review.id (reviews db)
      /\ List.map Review.booking_id (reviews db')
         = List.map Review.booking_id (reviews db)
      /\ List.map Review.event_id (reviews db')
         = List.map Review.event_id (reviews db)
      /\ List.map Review.created_at (reviews db')
         = List.map Review.created_at (reviews db)
      /\ (forall r, In r (reviews db) -> Review.id r <> Review.id review ->
                    In r (reviews db'))
      /\ bookings db' = bookings db).
Proof.
  split.
  - intros -> ->. reflexivity.
  - intros Hsome db'.
    assert (edit_review review rating comment db
            = crud_update_review review (mkReviewData rating comment) db) as Heq.
    { unfold edit_review. destruct rating, comment; try reflexivity.
      destruct Hsome; congruence. }
    unfold db'. rewrite Heq. rewrite crud_update_review_state, recompute_reviews.
    cbn [reviews set_reviews].
    split; [reflexivity|].
    split; [apply map_id_update|].
    split; [apply map_booking_id_update|].
    split; [|split; [|split; [|reflexivity]]].
    + rewrite List.map_map. apply List.map_ext. intros r.
      destruct (String.eqb _ _); reflexivity.
    + rewrite List.map_map. apply List.map_ext. intros r.
      destruct (String.eqb _ _); reflexivity.
    + intros r Hin Hne. apply List.in_map_iff. exists r. split; [|assumption].
      apply String.eqb_neq in Hne. now rewrite Hne.
Qed.

Lemma edit_review_cases_witness :
  fst (edit_review SampleReviews.review1 (Some 3) None SampleReviews.db_r1)
  = Ok SampleReviews.review1_edited.
Proof.
  destruct (edit_review_cases SampleReviews.db_r1 SampleReviews.review1
              (Some 3) None) as [_ H].
  destruct H as (H & _); [left; discriminate|]. exact H.
Defined.

(** X14: [list_reviews] (and the service's [event_reviews]) returns at most
    [size] reviews, all of the requested event, newest first; its total is
    the number of the event's reviews, which is what a consistent event row
    stores in [rating_count]. *)
Theorem list_reviews_page (db : DB) (event_id : string) (page size : Z) :
  1 <= page -> 0 <= size ->
  let result := event_reviews db event_id page size in
  Z.of_nat (length (fst result)) <= size
  /\ (forall r, In r (fst result) ->
        In r (reviews db) /\ Review.event_id r = event_id)
  /\ StronglySorted (fun a b => Review.created_at b <= Review.created_at a)
                    (fst result)
  /\ snd result = select_count (of_event event_id) (reviews db)
  /\ (rating_consistent db event_id ->
      forall e, In e (events db) -> Event.id e = event_id ->
                Event.rating_count e = snd result).
Proof.
  intros Hpage Hsize result. unfold result, event_reviews, list_reviews.
  cbn [fst snd].
  assert (Z.of_nat (length (reviews_stmt db event_id))
          = select_count (of_event event_id) (reviews db)) as Htotal.
  { unfold reviews_stmt, select_count.
    now rewrite (Permutation_length (order_by_desc_perm _ _)). }
  split; [|split; [|split; [|split]]].
  - now apply length_offset_limit.
  - intros r Hr. apply In_offset_limit in Hr.
    apply (Permutation_in _ (order_by_desc_perm _ _)) in Hr.
    apply List.filter_In in Hr as [Hin He]. split; [assumption|].
    now apply String.eqb_eq.
  - unfold offset_limit. apply StronglySorted_firstn, StronglySorted_skipn.
    apply order_by_desc_sorted.
  - exact Htotal.
  - intros Hcons e Hin Hid. destruct (Hcons e Hin Hid) as [_ Hcnt].
    rewrite Hcnt, Htotal. unfold current_ratings, select_count.
    now rewrite List.length_map.
Qed.

Lemma list_reviews_page_witness :
  snd (event_reviews SampleReviews.db_r1 "event-1" 1 20) = 1
  /\ List.map Event.rating_count (events SampleReviews.db_r1) = [1].
Proof.
  destruct (list_reviews_page SampleReviews.db_r1 "event-1" 1 20
              ltac:(lia) ltac:(lia)) as (_ & _ & _ & Ht & _).
  split; [rewrite Ht|]; vm_compute; reflexivity.
Defined.

(** ** Properties of the review routes *)

(** X15: the review route answers 422 to a rating outside 1..5 and 400 to a
    booking id that is unknown or whose slot belongs to another event than
    the one in the path, each time leaving the store alone; a review it
    creates is linked to the path's event and to a stored CONFIRMED booking,
    with a rating between 1 and 5. *)
Theorem api_create_review_guards (db : DB) (event_id booking_id : string)
    (rating : Z) (comment : option string) (new_id : string) (now : datetime) :
  (valid_rating rating = false ->
     api_create_review event_id booking_id rating comment new_id now db
     = (Raise RequestValidationError, db))
  /\ (valid_rating rating = true -> valid_comment comment = true ->
      get_booking db booking_id = None ->
      api_create_review event_id booking_id rating comment new_id now db
      = (Raise (HTTPException 400 "Invalid booking for event"), db))
  /\ (forall booking slot,
        valid_rating rating = true -> valid_comment comment = true ->
        get_booking db booking_id = Some booking ->
        Booking_slot db booking = Some slot ->
        Slot.event_id slot <> event_id ->
        api_create_review event_id booking_id rating comment new_id now db
        = (Raise (HTTPException 400 "Invalid booking for event"), db))
  /\ (forall r,
        fst (api_create_review event_id booking_id rating comment new_id now db)
        = Ok r ->
        Review.event_id r = event_id /\ Review.booking_id r = booking_id
        /\ 1 <= Review.rating r <= 5
        /\ exists booking, In booking (bookings db)
                           /\ Booking.id booking = booking_id
                           /\ Booking.status booking = CONFIRMED).
Proof.
  unfold api_create_review, bind, get_db. split; [|split; [|split]].
  - now intros ->.
  - intros -> -> Hb. simpl. now rewrite Hb.
  - intros booking slot -> -> Hb Hs Hne. simpl. rewrite Hb, Hs.
    apply String.eqb_neq in Hne. now rewrite Hne.
  - intros r. destruct (valid_rating rating) eqn:Hv; [|discriminate].
    destruct (valid_comment comment); [|discriminate]. simpl.
    destruct (get_booking db booking_id) as [booking|] eqn:Hb; [|discriminate].
    destruct (Booking_slot db booking) as [slot|] eqn:Hs; [|discriminate].
    destruct (String.eqb (Slot.event_id slot) event_id) eqn:He; [|discriminate].
    simpl. intros Hok.
    destruct (add_review_inv _ _ _ _ _ _ _ Hok)
      as (slot' & Hslot' & Hst & _ & _ & -> & _).
    assert (slot' = slot) by congruence. subst slot'.
    apply String.eqb_eq in He. unfold get_booking in Hb.
    apply List.find_some in Hb as [Hin Hid]. apply String.eqb_eq in Hid.
    unfold valid_rating in Hv. simpl.
    repeat split; auto; try lia.
    exists booking. auto.
Qed.

Lemma api_create_review_guards_witness :
  api_create_review "event-2" "b-1" 5 None "r-1" 900 Sample.db1
  = (Raise (HTTPException 400 "Invalid booking for event"), Sample.db1).
Proof.
  destruct (api_create_review_guards Sample.db1 "event-2" "b-1" 5 None "r-1" 900)
    as (_ & _ & H & _).
  apply (H Sample.alice Sample.slot1); try reflexivity. discriminate.
Defined.

Lemma get_review_some db review_id review :
  get_review db review_id = Some review ->
  In review (reviews db) /\ Review.id review = review_id.
Proof.
  unfold get_review. intros H. apply List.find_some in H as [Hin Hid].
  split; [assumption | now apply String.eqb_eq].
Qed.

Lemma serve_review_is_step r db :
  serve_review r db = db \/ review_step db (serve_review r db).
Proof.
  destruct r as [event_id booking_id rating comment new_id now
                | review_id rating comment | review_id]; simpl.
  - unfold api_create_review, bind, get_db.
    destruct (negb _); [now left|].
    destruct (get_booking db booking_id) as [booking|]; [|now left].
    destruct (Booking_slot db booking) as [slot|]; [|now left].
    destruct (negb _); [now left|]. right. constructor.
  - unfold api_update_review, bind, get_db.
    destruct (negb _); [now left|].
    destruct (get_review db review_id) as [review|] eqn:Hr; [|now left].
    right. constructor. now apply (get_review_some _ _ _ Hr).
  - unfold api_delete_review, bind, get_db.
    destruct (get_review db review_id) as [review|] eqn:Hr; [|now left].
    right. constructor. now apply (get_review_some _ _ _ Hr).
Qed.

Lemma serve_review_range r db :
  ratings_in_range db -> ratings_in_range (serve_review r db).
Proof.
  intros Hrange.
  destruct r as [event_id booking_id rating comment new_id now
                | review_id rating comment | review_id]; simpl.
  - unfold api_create_review, bind, get_db.
    destruct (valid_rating rating) eqn:Hv; [|exact Hrange].
    destruct (valid_comment comment); [|exact Hrange]. simpl.
    destruct (get_booking db booking_id) as [booking|]; [|exact Hrange].
    destruct (Booking_slot db booking) as [slot|]; [|exact Hrange].
    destruct (negb _); [exact Hrange|].
    destruct (fst (add_review booking rating comment new_id now db))
      as [r|e] eqn:Hres.
    + destruct (add_review_inv _ _ _ _ _ _ _ Hres)
        as (slot' & _ & _ & _ & _ & -> & ->).
      intros x Hx. rewrite recompute_reviews in Hx. simpl in Hx.
      apply List.in_app_or in Hx as [Hx | [<- | []]]; [now apply Hrange|].
      unfold valid_rating in Hv. simpl. lia.
    + now rewrite (add_review_raise _ _ _ _ _ _ _ Hres).
  - unfold api_update_review, bind, get_db.
    destruct rating as [v|].
    + destruct (valid_rating v) eqn:Hv; [|exact Hrange].
      destruct (valid_comment comment); [|exact Hrange]. simpl.
      destruct (get_review db review_id) as [review|]; [|exact Hrange].
      intros x Hx. simpl in Hx. apply List.in_map_iff in Hx as (y & <- & Hy).
      destruct (String.eqb _ _); [|now apply Hrange].
      unfold valid_rating in Hv. simpl. lia.
    + destruct (valid_comment comment); [|exact Hrange]. simpl.
      destruct (get_review db review_id) as [review|]; [|exact Hrange].
      destruct comment as [c|]; [|exact Hrange].
      intros x Hx. simpl in Hx. apply List.in_map_iff in Hx as (y & <- & Hy).
      destruct (String.eqb _ _); simpl; now apply Hrange.
  - unfold api_delete_review, bind, get_db.
    destruct (get_review db review_id) as [review|]; [|exact Hrange].
    intros x Hx. simpl in Hx. apply List.filter_In in Hx as [Hx _].
    now apply Hrange.
Qed.

Lemma sum_Z_bounds (xs : list Z) :
  (forall x, In x xs -> 1 <= x <= 5) ->
  Z.of_nat (length xs) <= sum_Z xs <= 5 * Z.of_nat (length xs).
Proof.
  induction xs as [|x xs IH]; intros H; [simpl; lia|].
  assert (1 <= x <= 5) by (apply H; now left).
  assert (Z.of_nat (length xs) <= sum_Z xs <= 5 * Z.of_nat (length xs))
    by (apply IH; intros; apply H; now right).
  simpl sum_Z. simpl length. lia.
Qed.

(** The mean of star ratings, rounded, is still between 1 and 5. *)
Lemma mean_in_range (q : Q) (xs : list Z) :
  is_rounded_mean (Some q) xs -> (forall x, In x xs -> 1 <= x <= 5) ->
  Qle 1 q /\ Qle q 5.
Proof.
  intros [Hne Hmean] Hrange. pose proof (sum_Z_bounds xs Hrange) as Hsum.
  assert (0 < length xs)%nat as Hn by (destruct xs; [congruence | simpl; lia]).
  apply (nearest_binary64_between 1 5 (mean xs) q);
    [now apply (binary64_value_Z 1) | now apply (binary64_value_Z 5) | | exact Hmean].
  unfold mean, Qle. cbn [Qnum Qden]. rewrite Zpos_of_nat_pos by exact Hn. lia.
Qed.

(** X16: whatever requests the three review routes serve, every stored
    rating stays between 1 and 5, every event's [rating_avg] and
    [rating_count] stay in agreement with its reviews ([rating_avg] a
    binary64 value nearest to the mean of the ratings), and a defined
    [rating_avg] is itself between 1 and 5: the rounding does not leave the
    range. *)
Theorem review_routes_keep_ratings (rs : list ReviewRequest) (db : DB) :
  reviews_pk db -> ratings_consistent db -> ratings_in_range db ->
  let db' := serve_reviews rs db in
  ratings_in_range db' /\ ratings_consistent db'
  /\ (forall e q, In e (events db') -> Event.rating_avg e = Some q ->
        Qle 1 q /\ Qle q 5).
Proof.
  intros Hpk Hcons Hrange db'.
  assert (reviews_pk db' /\ ratings_consistent db' /\ ratings_in_range db')
    as (_ & Hc & Hr).
  { unfold db'. clear db'. revert db Hpk Hcons Hrange.
    induction rs as [|r rs IH]; intros db Hpk Hcons Hrange; [simpl; auto|].
    simpl. apply IH.
    - destruct (serve_review_is_step r db) as [-> | Hs]; [assumption|].
      eapply review_step_pk; eauto.
    - destruct (serve_review_is_step r db) as [-> | Hs]; [assumption|].
      eapply review_step_consistent; eauto.
    - now apply serve_review_range. }
  split; [exact Hr|]. split; [exact Hc|].
  intros e q Hin Hq. destruct (Hc (Event.id e) e Hin eq_refl) as [Hmean _].
  rewrite Hq in Hmean. apply (mean_in_range q _ Hmean).
  intros x Hx. unfold current_ratings in Hx.
  apply List.in_map_iff in Hx as (r & <- & Hrin).
  apply List.filter_In in Hrin as [Hrin _]. now apply Hr.
Qed.

Lemma review_routes_keep_ratings_witness :
  ratings_in_range
    (serve_reviews
       [POST_review "event-1" "b-1" 5 None "r-1" 900;
        POST_review "event-1" "b-1" 9 None "r-2" 910;
        PATCH_review "r-1" (Some 2) (Some "so-so");
        PATCH_review "r-1" (Some 0) None]
       Sample.db1)
  /\ List.map Event.rating_avg
       (events (serve_reviews
                  [POST_review "event-1" "b-1" 5 None "r-1" 900;
                   POST_review "event-1" "b-1" 9 None "r-2" 910;
                   PATCH_review "r-1" (Some 2) (Some "so-so");
                   PATCH_review "r-1" (Some 0) None]
                  Sample.db1))
     = [Some (Qmake 2 1)].
Proof.
  split; [|vm_compute; reflexivity].
  match goal with
  | |- ratings_in_range (serve_reviews ?rs _) =>
      apply (review_routes_keep_ratings rs Sample.db1)
  end.
  - vm_compute. constructor.
  - intros event_id e [<-|[]] _. vm_compute. split; reflexivity.
  - intros r [].
Defined.

(** ** Further properties of the event queries *)

(** Executing a statement returns each matching event once, whatever its
    join and order. *)
Lemma exec_select_perm db stmt :
  Permutation (exec_select db stmt) (List.filter (matches stmt) (events db)).
Proof.
  unfold exec_select, exec_rows.
  transitivity (List.map fst (joined_rows db stmt)).
  - apply Permutation_map, sort_by_perm.
  - destruct (popularity_join stmt) as [cutoff|] eqn:Hj.
    + rewrite (joined_rows_popularity db stmt cutoff Hj).
      rewrite List.map_map. simpl. now rewrite List.map_id.
    + unfold joined_rows. rewrite Hj.
      rewrite List.map_map. simpl. now rewrite List.map_id.
Qed.

Lemma apply_sort_where stmt sort now :
  where_ (_apply_sort stmt sort now) = where_ stmt.
Proof.
  unfold _apply_sort.
  destruct (String.eqb sort "price"); [reflexivity|].
  destruct (String.eqb sort "rating"); [reflexivity|].
  destruct (String.eqb sort "popularity"); reflexivity.
Qed.

Lemma apply_sort_keeps_rows_helper db stmt sort now :
  Permutation (exec_select db (_apply_sort stmt sort now))
              (List.filter (matches stmt) (events db)).
Proof.
  rewrite exec_select_perm. unfold matches. now rewrite apply_sort_where.
Qed.

(** X17: whichever sort option is given, known or not, [_apply_sort] only
    reorders: the query returns exactly the events that match the
    statement's filters, each once. *)
Theorem apply_sort_keeps_rows (db : DB) (stmt : Select) (sort : string)
    (now : datetime) :
  Permutation (exec_select db (_apply_sort stmt sort now))
              (List.filter (matches stmt) (events db))
  /\ length (exec_select db (_apply_sort stmt sort now))
     = length (exec_select db stmt).
Proof.
  pose proof (apply_sort_keeps_rows_helper db stmt sort now) as H.
  split; [exact H|].
  rewrite (Permutation_length H).
  symmetry. apply Permutation_length, exec_select_perm.
Qed.

Lemma StronglySorted_map {A B} (R : B -> B -> Prop) (f : A -> B) (l : list A) :
  StronglySorted (fun a b => R (f a) (f b)) l -> StronglySorted R (List.map f l).
Proof.
  induction 1 as [|x t _ IH Hall]; simpl; constructor; [exact IH|].
  now apply List.Forall_map.
Qed.

Lemma StronglySorted_impl {A} (R1 R2 : A -> A -> Prop) (l : list A) :
  (forall a b, R1 a b -> R2 a b) -> StronglySorted R1 l -> StronglySorted R2 l.
Proof.
  intros Himp. induction 1 as [|x t _ IH Hall]; constructor; [exact IH|].
  eapply List.Forall_impl; [|exact Hall]. auto.
Qed.

(** Sorting rows by a total, transitive [leb] that only looks at the event
    sorts the events. *)
Lemma exec_select_sorted db stmt (R : Event.t -> Event.t -> Prop) :
  (forall a b, rows_leb (order_by stmt) a b = false ->
               rows_leb (order_by stmt) b a = true) ->
  (forall a b c, rows_leb (order_by stmt) a b = true ->
                 rows_leb (order_by stmt) b c = true ->
                 rows_leb (order_by stmt) a c = true) ->
  (forall a b, rows_leb (order_by stmt) a b = true -> R (fst a) (fst b)) ->
  StronglySorted R (exec_select db stmt).
Proof.
  intros Htot Htrans HR. unfold exec_select, exec_rows.
  apply StronglySorted_map.
  eapply StronglySorted_impl; [|apply sort_by_sorted; assumption].
  exact HR.
Qed.

Lemma rows_leb_price a b :
  rows_leb [price_minor_asc] a b = true
  <-> Event.price_minor (fst a) <= Event.price_minor (fst b).
Proof.
  unfold rows_leb. simpl.
  destruct (Z.compare_spec (Event.price_minor (fst a)) (Event.price_minor (fst b)));
    split; intros; try reflexivity; try discriminate; lia.
Qed.

Lemma rows_leb_created a b :
  rows_leb [created_at_desc] a b = true
  <-> Event.created_at (fst b) <= Event.created_at (fst a).
Proof.
  unfold rows_leb. simpl.
  destruct (Z.compare_spec (Event.created_at (fst b)) (Event.created_at (fst a)));
    split; intros; try reflexivity; try discriminate; lia.
Qed.

Lemma leb_false_iff_not (b : bool) : b = false <-> ~ b = true.
Proof. destruct b; split; congruence. Qed.

(** X18: on a statement that has no order yet, [sort = "price"] lists the
    events by ascending price, and [sort = "recent"], like any option the
    function does not know, lists them by descending creation time. *)
Theorem apply_sort_price_and_recent (db : DB) (stmt : Select) (now : datetime) :
  order_by stmt = [] ->
  StronglySorted (fun e1 e2 => Event.price_minor e1 <= Event.price_minor e2)
                 (exec_select db (_apply_sort stmt "price" now))
  /\ (forall sort,
        sort <> "price" -> sort <> "rating" -> sort <> "popularity" ->
        _apply_sort stmt sort now = _apply_sort stmt "recent" now
        /\ StronglySorted
             (fun e1 e2 => Event.created_at e2 <= Event.created_at e1)
             (exec_select db (_apply_sort stmt sort now))).
Proof.
  intros Hord. split.
  - apply exec_select_sorted; unfold _apply_sort; simpl; rewrite Hord; simpl.
    + intros a b H. apply rows_leb_price. apply leb_false_iff_not in H.
      rewrite rows_leb_price in H. lia.
    + intros a b c. rewrite !rows_leb_price. lia.
    + intros a b. now rewrite rows_leb_price.
  - intros sort H1 H2 H3.
    apply String.eqb_neq in H1, H2, H3.
    assert (_apply_sort stmt sort now = add_order_by stmt [created_at_desc]) as Hs
      by (unfold _apply_sort; now rewrite H1, H2, H3).
    split; [now rewrite Hs|].
    rewrite Hs. apply exec_select_sorted; simpl; rewrite Hord; simpl.
    + intros a b H. apply rows_leb_created. apply leb_false_iff_not in H.
      rewrite rows_leb_created in H. lia.
    + intros a b c. rewrite !rows_leb_created. lia.
    + intros a b. now rewrite rows_leb_created.
Qed.

Lemma apply_sort_price_and_recent_witness :
  List.map Event.id
    (exec_select Sample.db_pop (_apply_sort select_Event "newest" Sample.today))
  = ["ev-b"; "ev-c"; "ev-a"]
  /\ StronglySorted (fun e1 e2 => Event.created_at e2 <= Event.created_at e1)
       (exec_select Sample.db_pop (_apply_sort select_Event "newest" Sample.today)).
Proof.
  split; [vm_compute; reflexivity|].
  apply (proj2 (apply_sort_price_and_recent Sample.db_pop select_Event
                  Sample.today eq_refl) "newest"); discriminate.
Defined.

Lemma rows_leb_rating a b :
  rows_leb [rating_avg_desc_nullslast; created_at_desc] a b = true
  <-> rating_order (fst a) (fst b).
Proof.
  unfold rows_leb, rating_order. simpl.
  destruct (Event.rating_avg (fst a)) as [x|], (Event.rating_avg (fst b)) as [y|];
    simpl.
  - destruct (Qcompare y x) eqn:C.
    + apply Qeq_alt in C.
      destruct (Z.compare_spec (Event.created_at (fst b))
                               (Event.created_at (fst a)));
        split; intros H'; try reflexivity; try discriminate.
      * right. split; [now symmetry | lia].
      * right. split; [now symmetry | lia].
      * exfalso. destruct H' as [Hlt | [_ Hle]]; [|lia].
        rewrite C in Hlt. now apply Qlt_irrefl in Hlt.
    + apply Qlt_alt in C. split; [now left | reflexivity].
    + apply Qgt_alt in C. split; [discriminate|].
      intros [Hlt | [Heq _]]; exfalso.
      * apply (Qlt_irrefl x). now apply (Qlt_trans _ y).
      * rewrite Heq in C. now apply Qlt_irrefl in C.
  - tauto.
  - split; [discriminate | tauto].
  - destruct (Z.compare_spec (Event.created_at (fst b))
                             (Event.created_at (fst a)));
      split; intros; try reflexivity; try discriminate; lia.
Qed.

Lemma rating_order_total e1 e2 : ~ rating_order e1 e2 -> rating_order e2 e1.
Proof.
  unfold rating_order.
  destruct (Event.rating_avg e1) as [x|], (Event.rating_avg e2) as [y|];
    try tauto; [|lia].
  intros Hn. destruct (Q_dec x y) as [[Hlt | Hgt] | Heq].
  - now left.
  - exfalso. apply Hn. now left.
  - right. split; [now symmetry|].
    destruct (Z_le_gt_dec (Event.created_at e1) (Event.created_at e2));
      [assumption|].
    exfalso. apply Hn. right. split; [assumption | lia].
Qed.

Lemma rating_order_trans e1 e2 e3 :
  rating_order e1 e2 -> rating_order e2 e3 -> rating_order e1 e3.
Proof.
  unfold rating_order.
  destruct (Event.rating_avg e1) as [x|], (Event.rating_avg e2) as [y|],
    (Event.rating_avg e3) as [z|]; try tauto; [|lia].
  intros [H1 | [E1 C1]] [H2 | [E2 C2]].
  - left. now apply (Qlt_trans _ y).
  - left. now rewrite <- E2.
  - left. now rewrite E1.
  - right. split; [now rewrite E1 | lia].
Qed.

(** X19: on a statement that has no order yet, [sort = "rating"] lists rated
    events before unrated ones, higher averages first, and breaks ties (and
    orders the unrated) by descending creation time. *)
Theorem apply_sort_rating (db : DB) (stmt : Select) (now : datetime) :
  order_by stmt = [] ->
  StronglySorted rating_order (exec_select db (_apply_sort stmt "rating" now))
  /\ (forall e1 e2,
        In e1 (events db) -> matches stmt e1 = true ->
        In e2 (events db) -> matches stmt e2 = true ->
        Event.rating_avg e1 <> None -> Event.rating_avg e2 = None ->
        ranks_above (exec_select db (_apply_sort stmt "rating" now)) e1 e2).
Proof.
  intros Hord.
  assert (StronglySorted rating_order
            (exec_select db (_apply_sort stmt "rating" now))) as Hs.
  { apply exec_select_sorted; unfold _apply_sort; simpl; rewrite Hord; simpl.
    - intros a b H. apply rows_leb_rating. apply rating_order_total.
      apply leb_false_iff_not in H. now rewrite rows_leb_rating in H.
    - intros a b c. rewrite !rows_leb_rating. apply rating_order_trans.
    - intros a b. now rewrite rows_leb_rating. }
  split; [exact Hs|].
  intros e1 e2 H1 M1 H2 M2 Hr1 Hr2.
  pose proof (apply_sort_keeps_rows_helper db stmt "rating" now) as Hperm.
  apply (StronglySorted_ranks_above rating_order); auto.
  - apply (Permutation_in _ (Permutation_sym Hperm)). apply List.filter_In. auto.
  - apply (Permutation_in _ (Permutation_sym Hperm)). apply List.filter_In. auto.
  - unfold rating_order. rewrite Hr2.
    destruct (Event.rating_avg e1); [tauto | congruence].
  - intros ->. congruence.
Qed.

Lemma apply_sort_rating_witness :
  ranks_above
    (exec_select SampleSearch.db (_apply_sort select_Event "rating" 0))
    SampleSearch.rated SampleSearch.unrated.
Proof.
  apply (proj2 (apply_sort_rating SampleSearch.db select_Event 0 eq_refl));
    vm_compute; auto; discriminate.
Defined.

Lemma matches_add_where stmt p e :
  matches (add_where stmt p) e = matches stmt e && p e.
Proof.
  unfold matches, add_where. simpl. rewrite List.forallb_app. simpl.
  now rewrite andb_true_r.
Qed.




Lemma truthy_None s : truthy s = None <-> s = None \/ s = Some "".
Proof.
  destruct s as [[|c r]|]; simpl; split; auto; try discriminate.
  intros [H|H]; discriminate.
Qed.




(** ** Properties of the rate table *)

(** X21: on the table [_fetch_rates_remote] falls back to when the fetch
    fails, [convert_minor] never yields a converted amount: two different
    currencies always end in the missing-rate error for one of them that is
    not USD; only an amount whose currencies are equal comes back, as it
    is. *)
Theorem fallback_rates_fail_closed (amount_minor : Z)
    (from_currency to_currency : string) :
  (from_currency = to_currency ->
     convert_minor amount_minor from_currency to_currency
                   (_fetch_rates_remote None) = Ok amount_minor)
  /\ (from_currency <> to_currency ->
      exists c, (c = from_currency \/ c = to_currency) /\ c <> "USD"
        /\ convert_minor amount_minor from_currency to_currency
                         (_fetch_rates_remote None) = Raise (MissingRate c)).
Proof.
  split.
  - intros ->. unfold convert_minor. now rewrite String.eqb_refl.
  - intros Hne. unfold convert_minor, _fetch_rates_remote, fallback_rates.
    pose proof Hne as Hne'. apply String.eqb_neq in Hne'. rewrite Hne'.
    destruct (decide (to_currency = "USD")) as [->|Hto].
    + exists from_currency. rewrite lookup_singleton_eq.
      rewrite lookup_singleton_ne by congruence. auto.
    + exists to_currency. rewrite lookup_singleton_ne by congruence. auto.
Qed.

Lemma fallback_rates_fail_closed_witness :
  exists c, convert_minor 4500 "USD" "EUR" (_fetch_rates_remote None)
            = Raise (MissingRate c).
Proof.
  destruct (proj2 (fallback_rates_fail_closed 4500 "USD" "EUR")
              ltac:(discriminate)) as (c & _ & _ & H).
  exists c. exact H.
Defined.

(** X22: [get_rates] answers from the cache without looking at the remote
    response when Redis holds a table and no refresh is forced; a forced
    refresh returns and caches what the remote gives; and a failed fetch
    caches the fallback table, so that later unforced calls keep returning
    it whatever the remote would answer by then. *)
Theorem get_rates_cache (redis : Redis) :
  redis_up redis = true ->
  (forall table response, fx_rates redis = Some table ->
     get_rates false response redis = (table, redis))
  /\ (forall table,
        get_rates true (Some table) redis = (table, mkRedis true (Some table)))
  /\ (forall force, force = true \/ fx_rates redis = None ->
        let redis' := snd (get_rates force None redis) in
        fst (get_rates force None redis) = fallback_rates
        /\ forall response, get_rates false response redis'
                            = (fallback_rates, redis')).
Proof.
  intros Hup. unfold get_rates. rewrite Hup. split; [|split].
  - intros table response ->. reflexivity.
  - intros table. reflexivity.
  - intros force Hforce.
    assert ((if force then None else fx_rates redis) = None) as ->
      by (destruct Hforce as [-> | ->]; [reflexivity | now destruct force]).
    simpl. split; reflexivity.
Qed.

Lemma get_rates_cache_witness :
  get_rates false (Some Sample.rates_example)
    (snd (get_rates false None (mkRedis true None)))
  = (fallback_rates, snd (get_rates false None (mkRedis true None))).
Proof.
  destruct (get_rates_cache (mkRedis true None) eq_refl) as (_ & _ & H).
  destruct (H false (or_intror eq_refl)) as [_ H'].
  apply H'.
Defined.

(** ** Properties of event creation *)

Lemma same_key_false_not_in s table :
  existsb (same_key s) table = false -> ~ In (slot_key s) (List.map slot_key table).
Proof.
  induction table as [|r table IH]; simpl; [tauto|].
  intros H. apply orb_false_elim in H as [Hr Ht].
  intros [E|Hin]; [|now apply IH].
  unfold slot_key in E. inversion E as [[E1 E2]].
  unfold same_key in Hr. rewrite E1, E2, String.eqb_refl, Z.eqb_refl in Hr.
  discriminate.
Qed.

Lemma slot_id_false_not_in s table :
  existsb (fun r => String.eqb (Slot.id r) (Slot.id s)) table = false ->
  ~ In (Slot.id s) (List.map Slot.id table).
Proof.
  induction table as [|r table IH]; simpl; [tauto|].
  intros H. apply orb_false_elim in H as [Hr Ht].
  intros [E|Hin]; [|now apply IH].
  rewrite E, String.eqb_refl in Hr. discriminate.
Qed.

Lemma insert_slots_fresh new table table' :
  insert_slots new table = Ok table' ->
  forall x, In x table -> ~ In (slot_key x) (List.map slot_key new).
Proof.
  revert table. induction new as [|s rest IH]; intros table Hok x Hx; simpl;
    [tauto|].
  simpl in Hok.
  destruct (existsb _ table); [discriminate|].
  destruct (existsb (same_key s) table) eqn:Hkey; [discriminate|].
  intros [E|Hin].
  - apply (same_key_false_not_in s table Hkey). rewrite E. now apply List.in_map.
  - apply (IH _ Hok x); [apply List.in_or_app; now left | exact Hin].
Qed.

(** Rows that were flushed are appended, and keep both constraints. *)
Lemma insert_slots_ok new table table' :
  insert_slots new table = Ok table' ->
  table' = table ++ new
  /\ (List.NoDup (List.map slot_key table) -> List.NoDup (List.map slot_key table'))
  /\ (List.NoDup (List.map Slot.id table) -> List.NoDup (List.map Slot.id table'))
  /\ List.NoDup (List.map slot_key new).
Proof.
  revert table. induction new as [|s rest IH]; intros table; simpl.
  - intros [= <-]. rewrite List.app_nil_r. repeat split; auto. constructor.
  - destruct (existsb _ table) eqn:Hid; [discriminate|].
    destruct (existsb (same_key s) table) eqn:Hkey; [discriminate|].
    intros Hok. destruct (IH _ Hok) as (-> & Hk & Hi & Hnew).
    split; [now rewrite <- List.app_assoc|].
    split; [|split].
    + intros Hnd. apply Hk. rewrite List.map_app. apply NoDup_snoc; [exact Hnd|].
      now apply same_key_false_not_in.
    + intros Hnd. apply Hi. rewrite List.map_app. apply NoDup_snoc; [exact Hnd|].
      now apply slot_id_false_not_in.
    + constructor; [|exact Hnew].
      apply (insert_slots_fresh rest (table ++ [s]) _ Hok s).
      apply List.in_or_app. right. now left.
Qed.

Lemma new_slots_start i event_id uuid clock ds :
  List.map slot_key (new_slots i event_id uuid clock ds)
  = List.map (fun d => (event_id, dict_start_utc d)) ds.
Proof.
  revert i. induction ds as [|d ds IH]; intros i; simpl; [reflexivity|].
  now rewrite IH.
Qed.

Lemma new_slots_props i event_id uuid clock ds s :
  In s (new_slots i event_id uuid clock ds) ->
  Slot.event_id s = event_id
  /\ exists d, In d ds /\ Slot.start_utc s = dict_start_utc d
               /\ Slot.max_bookings s
                  = match dict_max_bookings d with Some m => m | None => 1 end.
Proof.
  revert i. induction ds as [|d ds IH]; intros i; simpl; [tauto|].
  intros [<- | Hin].
  - split; [reflexivity|]. exists d. auto.
  - destruct (IH _ Hin) as (He & d' & Hd & Hs & Hm).
    split; [assumption|]. exists d'. auto.
Qed.

Lemma length_new_slots i event_id uuid clock ds :
  length (new_slots i event_id uuid clock ds) = length ds.
Proof. revert i. induction ds as [|d ds IH]; intros i; simpl; auto. Qed.

(** X23: [create_event] is all or nothing: when it raises, the store is as
    before; when it returns, the event has been appended with no rating and a
    count of 0 and can be read back by its id, one slot row per input dict
    has been appended, each linked to the new event, with the dict's start
    and its [max_bookings] or 1, and the slot table still satisfies its
    primary key and [uix_event_start]. *)
Theorem create_event_all_or_nothing (db : DB)
    (title description host_name category : string)
    (duration_min price_minor : Z) (currency timezone : string)
    (image_url : option string) (slots_in : list SlotDict)
    (uuid : nat -> string) (clock : nat -> datetime) :
  let call := crud_create_event title description host_name category
                duration_min price_minor currency timezone image_url
                slots_in uuid clock db in
  (forall e, fst call = Raise e -> snd call = db)
  /\ (forall event, fst call = Ok event ->
        Event.rating_avg event = None /\ Event.rating_count event = 0
        /\ events (snd call) = events db ++ [event]
        /\ get_event (snd call) (Event.id event) = Some event
        /\ bookings (snd call) = bookings db /\ reviews (snd call) = reviews db
        /\ (exists added,
              slots (snd call) = slots db ++ added
              /\ length added = length slots_in
              /\ forall s, In s added ->
                    Slot.event_id s = Event.id event
                    /\ exists d, In d slots_in
                         /\ Slot.start_utc s = dict_start_utc d
                         /\ Slot.max_bookings s
                            = match dict_max_bookings d with
                              | Some m => m
                              | None => 1
                              end)
        /\ (slots_pk db -> slots_pk (snd call))
        /\ (uix_event_start db -> uix_event_start (snd call))).
Proof.
  intros call. unfold call, crud_create_event.
  destruct (existsb _ (events db)) eqn:Hid; [split; [reflexivity | discriminate]|].
  destruct (insert_slots _ (slots db)) as [table|err] eqn:Hins;
    [|split; [reflexivity | discriminate]].
  split; [discriminate|].
  cbn [fst snd]. intros event [= <-].
  destruct (insert_slots_ok _ _ _ Hins) as (-> & Hk & Hi & _).
  cbn [events slots bookings reviews Event.rating_avg Event.rating_count Event.id].
  split; [reflexivity|]. split; [reflexivity|]. split; [reflexivity|].
  split; [|split; [reflexivity|split; [reflexivity|split; [|split]]]].
  - unfold get_event. cbn [events]. apply find_snoc_fresh;
      [exact Hid | apply String.eqb_refl].
  - eexists. split; [reflexivity|]. split; [apply length_new_slots|].
    intros s Hs. now apply (new_slots_props _ _ _ _ _ _ Hs).
  - exact Hi.
  - exact Hk.
Qed.

Lemma create_event_all_or_nothing_witness :
  get_event (snd (SampleCreate.create SampleCreate.two_slots)) "id-0"
  = Some SampleCreate.yoga
  /\ List.map Slot.max_bookings
       (slots (snd (SampleCreate.create SampleCreate.two_slots))) = [1; 1; 5].
Proof.
  split; [|vm_compute; reflexivity].
  destruct (create_event_all_or_nothing Sample.db0 "Yoga" "Stretch" "Rita"
              "Health" 60 1500 "USD" "UTC" None SampleCreate.two_slots
              SampleCreate.uuid SampleCreate.clock) as [_ H].
  assert (fst (SampleCreate.create SampleCreate.two_slots) = Ok SampleCreate.yoga)
    as Hok by (vm_compute; reflexivity).
  destruct (H SampleCreate.yoga Hok) as (_ & _ & _ & Hget & _).
  exact Hget.
Defined.

(** X24: [create_event] never stores an event whose input has two slots
    with the same start: the flush raises on [uix_event_start] (or on a
    primary key) and nothing is kept. *)
Theorem create_event_rejects_duplicate_starts (db : DB)
    (title description host_name category : string)
    (duration_min price_minor : Z) (currency timezone : string)
    (image_url : option string) (slots_in : list SlotDict)
    (uuid : nat -> string) (clock : nat -> datetime) :
  ~ List.NoDup (List.map dict_start_utc slots_in) ->
  exists constraint,
    crud_create_event title description host_name category duration_min
      price_minor currency timezone image_url slots_in uuid clock db
    = (Raise (IntegrityError constraint), db).
Proof.
  intros Hdup. unfold crud_create_event.
  destruct (existsb _ (events db)); [eexists; reflexivity|].
  destruct (insert_slots _ (slots db)) as [table|err] eqn:Hins.
  - exfalso. apply Hdup.
    destruct (insert_slots_ok _ _ _ Hins) as (_ & _ & _ & Hnew).
    rewrite new_slots_start in Hnew.
    rewrite <- (List.map_map dict_start_utc (pair (uuid 0%nat))) in Hnew.
    now apply List.NoDup_map_inv in Hnew.
  - assert (exists c, err = IntegrityError c) as (c & ->).
    { clear -Hins. revert Hins. generalize (slots db).
      induction (new_slots 0 _ uuid clock slots_in) as [|s rest IH];
        intros table; simpl; [discriminate|].
      destruct (existsb _ table); [intros [= <-]; eauto|].
      destruct (existsb (same_key s) table); [intros [= <-]; eauto|].
      apply IH. }
    eexists. reflexivity.
Qed.

Lemma create_event_rejects_duplicate_starts_witness :
  exists constraint,
    SampleCreate.create SampleCreate.same_start
    = (Raise (IntegrityError constraint), Sample.db0).
Proof.
  apply create_event_rejects_duplicate_starts.
  intros H. inversion H as [|? ? Hnotin _]. apply Hnotin. now left.
Defined.

(** ** Properties of the slot figures and of the cancel broadcast *)

(** X25: a slot's [remaining] is never negative and never above its
    capacity (when that is not negative), and [is_full] holds exactly when
    [remaining] is 0 for a slot whose capacity is not negative. *)
Theorem slot_figures_agree (db : DB) (s : Slot.t) :
  0 <= Slot_remaining db s
  /\ (0 <= Slot.max_bookings s -> Slot_remaining db s <= Slot.max_bookings s)
  /\ (0 <= Slot.max_bookings s ->
      (Slot_is_full db s = true <-> Slot_remaining db s = 0))
  /\ (Slot_is_full db s = false -> 0 < Slot_remaining db s).
Proof.
  unfold Slot_remaining, Slot_is_full.
  set (n := Z.of_nat (length (Slot_bookings db s))).
  assert (0 <= n) by (unfold n; lia).
  repeat split; intros; try lia.
Qed.

Lemma length_slot_bookings_mark id slot_id bs :
  length (List.filter (same_slot slot_id) (List.map (mark_cancelled id) bs))
  = length (List.filter (same_slot slot_id) bs).
Proof.
  induction bs as [|b bs IH]; simpl; [reflexivity|].
  unfold same_slot at 1. rewrite mark_cancelled_slot_id.
  fold (same_slot slot_id b). destruct (same_slot slot_id b); simpl; now rewrite IH.
Qed.

(** X26: the CRUD [cancel_booking] publishes nothing; the service refuses an
    already CANCELLED booking without publishing, and for a CONFIRMED one
    publishes exactly one slot update and queues no e-mail; that update
    carries the same [remaining] and [is_full] the slot had before the
    cancellation. *)
Theorem cancel_booking_side_effects (db : DB) (booking : Booking.t) :
  outbox (snd (crud_cancel_booking booking db)) = outbox db
  /\ (Booking.status booking = CANCELLED ->
      outbox (snd (cancel_booking booking db)) = outbox db)
  /\ (forall slot,
        Booking.status booking = CONFIRMED ->
        Booking_slot db booking = Some slot ->
        outbox (snd (cancel_booking booking db))
        = outbox db ++
          [RedisPublish ("event:" ++ Slot.event_id slot) (Slot.id slot)
                        (Slot_remaining db slot) (Slot_is_full db slot)]).
Proof.
  split; [|split].
  - unfold crud_cancel_booking. destruct (Booking.status booking); reflexivity.
  - intros Hst. unfold cancel_booking. now rewrite Hst.
  - intros slot Hst Hslot. unfold cancel_booking, bind, get_db. rewrite Hst.
    rewrite crud_cancel_confirmed by assumption.
    unfold Booking_slot in *. simpl. rewrite Hslot. simpl.
    unfold Slot_remaining, Slot_is_full, Slot_bookings. simpl.
    now rewrite !length_slot_bookings_mark.
Qed.

Lemma cancel_booking_side_effects_witness :
  outbox (snd (cancel_booking Sample.alice Sample.db1))
  = outbox Sample.db1 ++ [RedisPublish "event:event-1" "slot-1" 0 true].
Proof.
  apply (proj2 (proj2 (cancel_booking_side_effects Sample.db1 Sample.alice))
           Sample.slot1); reflexivity.
Defined.
